(** * timview: the PlayStation TIM codec of [timview-v2.py]

    A shallow embedding of [read_tim] and [image_to_tim] (file
    [src/timview-v2.py], the current implementation) together with the
    properties stated about them.  [src/v1/timview.py] is the legacy copy of
    the same codec; its CLUT parser, which has no fallback, is embedded in
    module [V1].

    Conventions of the embedding:
    - Python [int]s and numpy scalars are [Z]; a numpy array of dtype [uint8]
      or [uint16] is a [list Z] whose elements lie in the dtype's range, a 2-D
      array is kept flat together with its shape, except the CLUT, which is a
      list of rows because it is indexed by row;
    - [bytes] objects (the file contents, [struct.pack] output) are
      [list byte];
    - exceptions are values of type [error], fallible code returns [result];
    - the open file [f] is threaded as the list of bytes not yet read;
    - a PIL image is the record of its size and of its row-major pixel data;
      building one from arrays of the right shape always succeeds;
    - the host is little-endian (numpy's native [uint16] is read and written
      low byte first, as [struct]'s ["<"] formats are). *)

From Stdlib Require Import ZArith List Lia Bool.
From Stdlib Require Import Strings.Byte.
From Stdlib Require Import Strings.Ascii.
Import ListNotations.
Local Open Scope Z_scope.

(** ** Exceptions and the error monad *)

Inductive error : Type :=
| BadMagic              (* ValueError("Not a TIM file (bad magic)") *)
| UnsupportedBppMode    (* ValueError("Unsupported BPP mode: ...") *)
| StructError           (* struct.error: wrong buffer size, value out of range *)
| ValueError            (* any other ValueError (io, numpy, PIL, bytearray) *)
| IndexError            (* index out of bounds *)
| NotImplementedError.  (* NotImplementedError(...) *)

Inductive result (A : Type) : Type :=
| Ok (a : A)
| Err (e : error).
Arguments Ok {A} a.
Arguments Err {A} e.

Definition rbind {A B} (r : result A) (k : A -> result B) : result B :=
  match r with
  | Ok a => k a
  | Err e => Err e
  end.

Notation "x <- e ;; k" := (rbind e (fun x => k))
  (at level 61, e at next level, right associativity).
Notation "' p <- e ;; k" := (rbind e (fun x => match x with p => k end))
  (at level 61, p pattern, e at next level, right associativity).

Fixpoint mapM {A B} (f : A -> result B) (l : list A) : result (list B) :=
  match l with
  | [] => Ok []
  | a :: l' => b <- f a ;; bs <- mapM f l' ;; Ok (b :: bs)
  end.

(** ** Bytes, ranges, indexing *)

Definition b2z (b : byte) : Z := Z.of_N (Byte.to_N b).

(** The byte of a value in [0,255]; [None] outside. *)
Definition z2b (z : Z) : option byte :=
  if z <? 0 then None else Byte.of_N (Z.to_N z).

(** The low eight bits of a value, as a byte. *)
Definition low_byte (z : Z) : byte :=
  match z2b (z mod 256) with
  | Some b => b
  | None => x00
  end.

Definition len {A} (l : list A) : Z := Z.of_nat (length l).

(** [range(n)] *)
Definition range (n : Z) : list Z := map Z.of_nat (seq 0 (Z.to_nat n)).

(** [range(0, n, 2)] *)
Definition range2 (n : Z) : list Z := map (fun k => 2 * k) (range ((n + 1) / 2)).

(** [a[i]] on a sequence or on the first axis of an array: a negative index
    counts from the end, an index outside [-len, len) raises IndexError. *)
Definition index {A} (d : A) (a : list A) (i : Z) : result A :=
  if (0 <=? i) && (i <? len a) then Ok (nth (Z.to_nat i) a d)
  else if (- len a <=? i) && (i <? 0) then Ok (nth (Z.to_nat (len a + i)) a d)
  else Err IndexError.

(** [a[:n]] for [n >= 0] *)
Definition take {A} (n : Z) (a : list A) : list A := firstn (Z.to_nat n) a.

(** ** Color channel converter *)

(** Lines 129-131 (and 117-119) of [read_tim], on one packed color. *)
Definition expand (c : Z) : Z * Z * Z :=
  (Z.shiftl (Z.land c 0x1F) 3,
   Z.shiftl (Z.land (Z.shiftr c 5) 0x1F) 3,
   Z.shiftl (Z.land (Z.shiftr c 10) 0x1F) 3).

(** Line 168-169 of [image_to_tim]: the packed color of three shifted
    channels, masked to 16 bits. *)
Definition pack_color (r g b : Z) : Z :=
  let color_16 := Z.lor (Z.lor (Z.shiftl b 10) (Z.shiftl g 5)) r in
  Z.land color_16 0xFFFF.

(** Lines 165-169 of [image_to_tim], on one palette triple. *)
Definition quantize (r8 g8 b8 : Z) : Z :=
  let r := Z.shiftr r8 3 in
  let g := Z.shiftr g8 3 in
  let b := Z.shiftr b8 3 in
  pack_color r g b.

(** ** The open file *)

(** A computation that reads from the file: it receives the bytes not yet
    read and returns a value with the bytes that remain, or raises. *)
Definition reader (A : Type) : Type := list byte -> result (A * list byte).

Definition ret {A} (a : A) : reader A := fun s => Ok (a, s).

Definition bind {A B} (m : reader A) (k : A -> reader B) : reader B :=
  fun s =>
    match m s with
    | Ok (a, s') => k a s'
    | Err e => Err e
    end.

Definition raise {A} (e : error) : reader A := fun _ => Err e.

Definition lift {A} (r : result A) : reader A :=
  fun s =>
    match r with
    | Ok a => Ok (a, s)
    | Err e => Err e
    end.

Notation "x <~ e ;; k" := (bind e (fun x => k))
  (at level 61, e at next level, right associativity).
Notation "' p <~ e ;; k" := (bind e (fun x => match x with p => k end))
  (at level 61, p pattern, e at next level, right associativity).

(** [with open(filepath, 'rb') as f: ...] on the contents of the file. *)
Definition run {A} (m : reader A) (file : list byte) : result A :=
  match m file with
  | Ok (a, _) => Ok a
  | Err e => Err e
  end.

(** [f.read(n)]: at most [n] bytes; [-1] reads to the end of the file and a
    smaller argument is refused by the buffered reader. *)
Definition f_read (n : Z) : reader (list byte) :=
  fun s =>
    if n <? -1 then Err ValueError
    else if n =? -1 then Ok (s, [])
    else Ok (firstn (Z.to_nat n) s, skipn (Z.to_nat n) s).

(** [f.read()] *)
Definition f_read_all : reader (list byte) := fun s => Ok (s, []).

(** ** struct *)

(** The little-endian value of a byte string. *)
Definition le_bytes (bs : list byte) : Z :=
  fold_right (fun b acc => b2z b + 256 * acc) 0 bs.

(** [struct.unpack("<I", bs)[0]] *)
Definition unpack_I (bs : list byte) : result Z :=
  match bs with
  | [_; _; _; _] => Ok (le_bytes bs)
  | _ => Err StructError
  end.

(** [struct.unpack("<4H", bs)] *)
Definition unpack_4H (bs : list byte) : result (Z * Z * Z * Z) :=
  match bs with
  | [a0; a1; b0; b1; c0; c1; d0; d1] =>
      Ok (le_bytes [a0; a1], le_bytes [b0; b1], le_bytes [c0; c1], le_bytes [d0; d1])
  | _ => Err StructError
  end.

Definition le_I (v : Z) : list byte :=
  [low_byte v; low_byte (v / 256); low_byte (v / 65536); low_byte (v / 16777216)].

Definition le_H (v : Z) : list byte := [low_byte v; low_byte (v / 256)].

(** [struct.pack("<I", v)] *)
Definition pack_I (v : Z) : result (list byte) :=
  if (0 <=? v) && (v <? 2 ^ 32) then Ok (le_I v) else Err StructError.

Definition pack_H (v : Z) : result (list byte) :=
  if (0 <=? v) && (v <? 2 ^ 16) then Ok (le_H v) else Err StructError.

(** [struct.pack("<4H", a, b, c, d)] *)
Definition pack_4H (a b c d : Z) : result (list byte) :=
  a' <- pack_H a ;; b' <- pack_H b ;; c' <- pack_H c ;; d' <- pack_H d ;;
  Ok (a' ++ b' ++ c' ++ d').

(** ** numpy *)

(** [np.frombuffer(data, dtype=np.uint8)] *)
Definition frombuffer_u8 (data : list byte) : list Z := map b2z data.

(** [np.frombuffer(data, dtype=np.uint16)]: the buffer size must be a multiple
    of the element size. *)
Fixpoint frombuffer_u16 (data : list byte) : result (list Z) :=
  match data with
  | [] => Ok []
  | [_] => Err ValueError
  | lo :: hi :: rest =>
      cs <- frombuffer_u16 rest ;; Ok (le_bytes [lo; hi] :: cs)
  end.

(** [a.tobytes()] for dtype [uint8] and [uint16] *)
Definition tobytes_u8 (a : list Z) : list byte := map low_byte a.
Definition tobytes_u16 (a : list Z) : list byte := flat_map le_H a.

(** [np.clip(a, lo, hi)] on one element *)
Definition clip (lo hi x : Z) : Z := Z.min hi (Z.max lo x).

(** [a.astype(np.uint8)] on one element *)
Definition astype_u8 (x : Z) : Z := x mod 256.

Fixpoint rows_of {A} (nrows w : nat) (flat : list A) : list (list A) :=
  match nrows with
  | O => []
  | S k => firstn w flat :: rows_of k w (skipn w flat)
  end.

(** [a.reshape((-1, w))] on a 1-D array: the row count is inferred from the
    size; a zero [w], or a size that [w] does not divide, raises. *)
Definition reshape_rows (a : list Z) (w : Z) : result (list (list Z)) :=
  if w =? 0 then Err ValueError
  else if len a mod w =? 0
       then Ok (rows_of (Z.to_nat (len a / w)) (Z.to_nat w) a)
       else Err ValueError.

(** [palette[pixels]]: every element of [pixels] indexes [palette]. *)
Definition gather (palette pixels : list Z) : result (list Z) :=
  mapM (index 0 palette) pixels.

(** ** Images *)

(** The RGB image [read_tim] returns: its size and row-major pixels. *)
Record Image : Type := mkImage {
  im_width : Z;
  im_height : Z;
  im_data : list (Z * Z * Z)
}.

(** The palette image [image_to_tim] encodes (after [image.convert('P', ...)]
    when the argument was in another mode): [image.size],
    [image.getpalette()] and the index bytes [np.array(image)] is built on. *)
Record PImage : Type := mkPImage {
  p_width : Z;
  p_height : Z;
  p_palette : list byte;
  p_data : list byte
}.

Fixpoint rgb_triples (data : list byte) : list (Z * Z * Z) :=
  match data with
  | r :: g :: b :: rest => (b2z r, b2z g, b2z b) :: rgb_triples rest
  | _ => []
  end.

(** ** read_tim (timview-v2.py, lines 45-135) *)

(** Lines 51-60: magic and flags. *)
Definition bpp_of_mode (bpp_mode : Z) : option Z :=
  if bpp_mode =? 0 then Some 4
  else if bpp_mode =? 1 then Some 8
  else if bpp_mode =? 2 then Some 16
  else if bpp_mode =? 3 then Some 24
  else None.

Definition read_header : reader (Z * bool) :=
  bs <~ f_read 4 ;;
  magic <~ lift (unpack_I bs) ;;
  if negb (magic =? 0x10) then raise BadMagic
  else
    bs <~ f_read 4 ;;
    flags <~ lift (unpack_I bs) ;;
    let has_clut := negb (Z.land flags 0x08 =? 0) in
    let bpp_mode := Z.land flags 0x07 in
    match bpp_of_mode bpp_mode with
    | None => raise UnsupportedBppMode
    | Some bpp => ret (bpp, has_clut)
    end.

(** Lines 65-72: the CLUT block, reshaped into rows of [clut_w] colors, or
    into one row when that reshape raises. *)
Definition read_clut : reader (list (list Z)) :=
  bs <~ f_read 4 ;;
  clut_block_size <~ lift (unpack_I bs) ;;
  bs <~ f_read 8 ;;
  '(clut_x, clut_y, clut_w, clut_h) <~ lift (unpack_4H bs) ;;
  clut_data <~ f_read (clut_block_size - 12) ;;
  clut_colors <~ lift (frombuffer_u16 clut_data) ;;
  ret (match reshape_rows clut_colors clut_w with
       | Ok clut => clut
       | Err _ => [clut_colors]
       end).

(** Lines 73-75. *)
Definition select_palette (clut : list (list Z)) (palette_index : Z)
  : result (list Z) :=
  let palette_index := if palette_index >=? len clut then 0 else palette_index in
  index [] clut palette_index.

(** Lines 104 and 112: the palette used when the file has no CLUT. *)
Definition synth_palette (n : Z) : list Z :=
  map (fun i => Z.lor (Z.lor (Z.land i 0x1F) (Z.shiftl (Z.land i 0x1F) 5))
                      (Z.shiftl (Z.land i 0x1F) 10))
      (range n).

(** Lines 92-101: the nibbles of the 4bpp payload. *)
Definition unpack_4bpp (raw_data : list byte) (num_pixels : Z) : result (list Z) :=
  let bytes_needed := (num_pixels + 1) / 2 in
  let pixels := frombuffer_u8 (take bytes_needed raw_data) in
  mapM (fun i =>
          byte <- index 0 pixels (i / 2) ;;
          Ok (if Z.land i 1 =? 0 then Z.land byte 0x0F
              else Z.land (Z.shiftr byte 4) 0x0F))
       (range num_pixels).

(** Lines 129-135 (and 117-121): the three channels of every color, each
    cast to [uint8], merged into an RGB image. *)
Definition rgb_image (color_vals : list Z) (w h : Z) : Image :=
  {| im_width := w;
     im_height := h;
     im_data := map (fun c => let '(r, g, b) := expand c in
                              (astype_u8 r, astype_u8 g, astype_u8 b))
                    color_vals |}.

(** Lines 91-135: the payload, by bit depth. *)
Definition decode_pixels (bpp : Z) (selected_palette : option (list Z))
    (w h : Z) (raw_data : list byte) : result Image :=
  if bpp =? 4 then
    pixels <- unpack_4bpp raw_data (w * h) ;;
    color_vals <- match selected_palette with
                  | None => gather (synth_palette 16) pixels
                  | Some palette => gather palette pixels
                  end ;;
    Ok (rgb_image color_vals w h)
  else if bpp =? 8 then
    let pixels := frombuffer_u8 (take (w * h) raw_data) in
    if negb (len pixels =? h * w) then Err ValueError   (* reshape((h, w)) *)
    else
      let selected_palette := match selected_palette with
                              | None => synth_palette 256
                              | Some palette => palette
                              end in
      color_vals <- gather selected_palette pixels ;;
      Ok (rgb_image color_vals w h)
  else if bpp =? 16 then
    img_array <- frombuffer_u16 (take (w * h * 2) raw_data) ;;
    if negb (len img_array =? h * w) then Err ValueError   (* reshape((h, w)) *)
    else Ok (rgb_image img_array w h)
  else if bpp =? 24 then
    let data := take (w * h * 3) raw_data in
    if len data <? w * h * 3 then Err ValueError   (* not enough image data *)
    else Ok {| im_width := w; im_height := h; im_data := rgb_triples data |}
  else Err NotImplementedError.

Definition read_tim (file : list byte) (palette_index : Z) : result Image :=
  run ('(bpp, has_clut) <~ read_header ;;
       selected_palette <~
         (if has_clut : bool then
            clut <~ read_clut ;;
            selected_palette <~ lift (select_palette clut palette_index) ;;
            ret (Some selected_palette)
          else ret None) ;;
       bs <~ f_read 4 ;;
       img_block_size <~ lift (unpack_I bs) ;;
       bs <~ f_read 8 ;;
       '(x, y, w_words, h) <~ lift (unpack_4H bs) ;;
       let w := if bpp =? 4 then w_words * 4
                else if bpp =? 8 then w_words * 2
                else w_words in
       raw_data <~ f_read_all ;;
       lift (decode_pixels bpp selected_palette w h raw_data))
      file.

(** The CLUT of a file, when its flags announce one: the header and CLUT
    block as [read_tim] parses them, before a row is selected. *)
Definition file_clut (file : list byte) : result (option (list (list Z))) :=
  run ('(bpp, has_clut) <~ read_header ;;
       if has_clut : bool then clut <~ read_clut ;; ret (Some clut)
       else ret None)
      file.

(** ** image_to_tim (timview-v2.py, lines 138-205) *)

(** Lines 160-169: entry [i] of the CLUT. *)
Definition clut_entry (palette : list byte) (i : Z) : Z :=
  let idx := i * 3 in
  if idx + 2 >=? len palette then pack_color 0 0 0
  else quantize (b2z (nth (Z.to_nat idx) palette x00))
                (b2z (nth (Z.to_nat (idx + 1)) palette x00))
                (b2z (nth (Z.to_nat (idx + 2)) palette x00)).

(** [bytearray.append(v)]: [v] must be in [range(256)]. *)
Definition bytearray_item (v : Z) : result byte :=
  match z2b v with
  | Some b => Ok b
  | None => Err ValueError
  end.

(** Lines 188-195: two clipped indices per byte. *)
Definition pack_4bpp (pixels : list Z) : result (list byte) :=
  let flat_pixels := map (clip 0 15) pixels in
  mapM (fun i =>
          let first := nth (Z.to_nat i) flat_pixels 0 in
          let second := if i + 1 <? len flat_pixels
                        then nth (Z.to_nat (i + 1)) flat_pixels 0
                        else 0 in
          bytearray_item (Z.lor (Z.shiftl second 4) first))
       (range2 (len flat_pixels)).

(** Lines 186-198. *)
Definition encode_pixels (bpp width : Z) (pixels : list Z)
  : result (Z * list byte) :=
  if bpp =? 4 then
    let w_words := (width + 3) / 4 in
    pixel_bytes <- pack_4bpp pixels ;;
    Ok (w_words, pixel_bytes)
  else
    let w_words := (width + 1) / 2 in
    let pixel_bytes := tobytes_u8 pixels in
    Ok (w_words, pixel_bytes).

Definition image_to_tim (image : PImage) (bpp : Z) : result (list byte) :=
  if negb ((bpp =? 4) || (bpp =? 8)) then Err NotImplementedError
  else
    let palette := p_palette image in
    let width := p_width image in
    let height := p_height image in
    let pixels := frombuffer_u8 (p_data image) in
    let pal_len := if bpp =? 4 then 16 else 256 in
    let clut_colors := map (clut_entry palette) (range pal_len) in
    let clut_data := tobytes_u16 clut_colors in
    let clut_w := if bpp =? 4 then 16 else 256 in
    let clut_h := 1 in
    header <- pack_I 0x10 ;;
    let flags_val := Z.lor 0x08 (if bpp =? 4 then 0 else 1) in
    packed <- pack_I flags_val ;;
    let header := header ++ packed in
    let clut_block_size := 12 + len clut_data in
    packed <- pack_I clut_block_size ;;
    let header := header ++ packed in
    packed <- pack_4H 0 0 clut_w clut_h ;;
    let header := header ++ packed in
    let header := header ++ clut_data in
    '(w_words, pixel_bytes) <- encode_pixels bpp width pixels ;;
    let img_block_size := 12 + len pixel_bytes in
    packed <- pack_I img_block_size ;;
    let header := header ++ packed in
    packed <- pack_4H 0 0 w_words height ;;
    let header := header ++ packed in
    let header := header ++ pixel_bytes in
    Ok header.

(** ** The legacy CLUT parser (v1/timview.py, lines 27-31) *)

Module V1.

(** As [read_clut], but the reshape is not guarded: its exception
    propagates. *)
Definition read_clut : reader (list (list Z)) :=
  bs <~ f_read 4 ;;
  clut_size <~ lift (unpack_I bs) ;;
  bs <~ f_read 8 ;;
  '(clut_x, clut_y, clut_w, clut_h) <~ lift (unpack_4H bs) ;;
  clut_data <~ f_read (clut_size - 12) ;;
  clut_colors <~ lift (frombuffer_u16 clut_data) ;;
  lift (reshape_rows clut_colors clut_w).

End V1.

(** ** The rest of the legacy codec (v1/timview.py, lines 12-174)

    The header (lines 14-23), the palette selection (lines 32-34), the image
    block header (lines 38-48) and the 4bpp packing loop (lines 157-164) of
    the legacy file compute what the current file computes, and are not
    repeated. *)

Module V1Codec.

(** How a call ends: the legacy decoder can also raise TypeError. *)
Inductive outcome (A : Type) : Type :=
| Returned (a : A)
| Raised (e : error)
| RaisedTypeError.
Arguments Returned {A} a.
Arguments Raised {A} e.
Arguments RaisedTypeError {A}.

Definition of_result {A} (r : result A) : outcome A :=
  match r with
  | Ok a => Returned a
  | Err e => Raised e
  end.

(** Lines 51-57: the nibbles of the 4bpp payload. *)
Definition unpack_4bpp (raw_data : list byte) (num_pixels : Z) : result (list Z) :=
  let bytes_needed := (num_pixels + 1) / 2 in
  let pixels := frombuffer_u8 (take bytes_needed raw_data) in
  mapM (fun i =>
          byte <- index 0 pixels (i / 2) ;;
          Ok (if i mod 2 =? 0 then Z.land byte 0x0F
              else Z.land (Z.shiftr byte 4) 0x0F))
       (range num_pixels).

(** [selected_palette[pixels]], where [selected_palette] is [None] for a
    file without CLUT. *)
Definition subscript (selected_palette : option (list Z)) (pixels : list Z)
  : outcome (list Z) :=
  match selected_palette with
  | None => RaisedTypeError
  | Some palette => of_result (gather palette pixels)
  end.

(** Lines 50-85. *)
Definition decode_pixels (bpp : Z) (selected_palette : option (list Z))
    (w h : Z) (raw_data : list byte) : outcome Image :=
  if bpp =? 4 then
    match unpack_4bpp raw_data (w * h) with
    | Err e => Raised e
    | Ok pixels =>
        match subscript selected_palette pixels with
        | Returned color_vals => Returned (rgb_image color_vals w h)
        | Raised e => Raised e
        | RaisedTypeError => RaisedTypeError
        end
    end
  else if bpp =? 8 then
    let pixels := frombuffer_u8 (take (w * h) raw_data) in
    if negb (len pixels =? h * w) then Raised ValueError   (* reshape((h, w)) *)
    else
      match subscript selected_palette pixels with
      | Returned color_vals => Returned (rgb_image color_vals w h)
      | Raised e => Raised e
      | RaisedTypeError => RaisedTypeError
      end
  else if bpp =? 16 then
    match frombuffer_u16 raw_data with
    | Err e => Raised e
    | Ok img_array =>
        if negb (len img_array =? h * w) then Raised ValueError
        else Returned (rgb_image img_array w h)
    end
  else if bpp =? 24 then
    let data := take (w * h * 3) raw_data in
    if len data <? w * h * 3 then Raised ValueError
    else Returned {| im_width := w; im_height := h; im_data := rgb_triples data |}
  else Raised NotImplementedError.

(** Lines 12-85. *)
Definition read_tim (file : list byte) (palette_index : Z) : outcome Image :=
  match
    run ('(bpp, has_clut) <~ read_header ;;
         selected_palette <~
           (if has_clut : bool then
              clut <~ V1.read_clut ;;
              selected_palette <~ lift (select_palette clut palette_index) ;;
              ret (Some selected_palette)
            else ret None) ;;
         bs <~ f_read 4 ;;
         image_size <~ lift (unpack_I bs) ;;
         bs <~ f_read 8 ;;
         '(x, y, w_words, h) <~ lift (unpack_4H bs) ;;
         let w := if bpp =? 4 then w_words * 4
                  else if bpp =? 8 then w_words * 2
                  else w_words in
         raw_data <~ f_read_all ;;
         ret (bpp, selected_palette, w, h, raw_data))
        file
  with
  | Err e => Raised e
  | Ok (bpp, selected_palette, w, h, raw_data) =>
      decode_pixels bpp selected_palette w h raw_data
  end.

(** [range(0, n, 3)] *)
Definition range3 (n : Z) : list Z := map (fun k => 3 * k) (range ((n + 2) / 3)).

(** [np.unique(a)] on a [uint8] array: its distinct values, ascending. *)
Definition unique (a : list Z) : list Z :=
  filter (fun c => existsb (Z.eqb c) a) (range 256).

(** Lines 88-174.  The image is in mode ['P']; [palette] is the list of
    integers [image.getpalette()] returns. *)
Definition image_to_tim (image : PImage) (bpp : Z) : result (list byte) :=
  let palette := frombuffer_u8 (p_palette image) in
  let width := p_width image in
  let height := p_height image in
  let pixels := frombuffer_u8 (p_data image) in
  clut_colors <-
    mapM (fun i =>
            r8 <- index 0 palette i ;;
            g8 <- index 0 palette (i + 1) ;;
            b8 <- index 0 palette (i + 2) ;;
            let r := Z.shiftr r8 3 in
            let g := Z.shiftr g8 3 in
            let b := Z.shiftr b8 3 in
            let color_16 := Z.lor (Z.lor (Z.shiftl b 10) (Z.shiftl g 5)) r in
            Ok color_16)
         (range3 (len palette)) ;;
  let unique_colors := unique pixels in
  clut_array <- mapM (index 0 clut_colors) unique_colors ;;
  let clut_array := take (if bpp =? 4 then 16 else 256) clut_colors in
  let clut_w := if bpp =? 4 then 16 else 256 in
  let clut_h := 1 in
  let clut_data := tobytes_u16 clut_array in
  header <- pack_I 0x10 ;;
  flags_val <- (if bpp =? 4 then Ok 0
                else if bpp =? 8 then Ok 1
                else Err NotImplementedError) ;;
  let flags_val := Z.lor flags_val 0x08 in
  packed <- pack_I flags_val ;;
  let header := header ++ packed in
  let clut_block_size := 12 + len clut_data in
  packed <- pack_I clut_block_size ;;
  let header := header ++ packed in
  packed <- pack_4H 0 0 clut_w clut_h ;;
  let header := header ++ packed in
  let header := header ++ clut_data in
  let w_words := if bpp =? 4 then width / 4 else width / 2 in
  pixel_bytes <- (if bpp =? 4 then pack_4bpp pixels
                  else Ok (tobytes_u8 pixels)) ;;
  let img_block_size := 12 + len pixel_bytes in
  packed <- pack_I img_block_size ;;
  let header := header ++ packed in
  packed <- pack_4H 0 0 w_words height ;;
  let header := header ++ packed in
  let header := header ++ pixel_bytes in
  Ok header.

End V1Codec.

(** ** Sample data *)

(** A 4bpp file of 4x1 pixels whose CLUT has two rows of two colors:
    row 0 is black, white; row 1 is red, green.  The payload holds the
    indices 0, 1, 1, 0. *)
Definition two_row_tim : list byte :=
  [x10; x00; x00; x00;  x08; x00; x00; x00;
   x14; x00; x00; x00;  x00; x00; x00; x00; x02; x00; x02; x00;
   x00; x00; xff; x7f;  x1f; x00; xe0; x03;
   x0e; x00; x00; x00;  x00; x00; x00; x00; x01; x00; x01; x00;
   x10; x01].

(** A 4bpp file of 4x1 pixels whose CLUT block holds no color at all: its
    size field is 12, the size of the block's own header, and its width field
    is 16.  The CLUT parses to a table of no rows. *)
Definition empty_clut_tim : list byte :=
  [x10; x00; x00; x00;  x08; x00; x00; x00;
   x0c; x00; x00; x00;  x00; x00; x00; x00; x10; x00; x01; x00;
   x0e; x00; x00; x00;  x00; x00; x00; x00; x01; x00; x01; x00;
   x10; x01].

(** The nibble that pixel [i] of a 4bpp payload is read from. *)
Definition nibble_at (raw_data : list byte) (i : Z) : Z :=
  let byte := b2z (nth (Z.to_nat (i / 2)) raw_data x00) in
  if Z.even i then Z.land byte 0x0F else Z.land (Z.shiftr byte 4) 0x0F.

(** The bytes [image_to_tim] assembles, from the values it has computed:
    magic, flags, CLUT block, image block. *)
Definition tim_layout (bpp : Z) (clut_colors : list Z) (w_words height : Z)
    (pixel_bytes : list byte) : list byte :=
  le_I 0x10 ++
  le_I (Z.lor 0x08 (if bpp =? 4 then 0 else 1)) ++
  le_I (12 + len (tobytes_u16 clut_colors)) ++
  (le_H 0 ++ le_H 0 ++ le_H (if bpp =? 4 then 16 else 256) ++ le_H 1) ++
  tobytes_u16 clut_colors ++
  le_I (12 + len pixel_bytes) ++
  (le_H 0 ++ le_H 0 ++ le_H w_words ++ le_H height) ++
  pixel_bytes.

(** The CLUT [image_to_tim] writes for a palette. *)
Definition clut_of (bpp : Z) (palette : list byte) : list Z :=
  map (clut_entry palette) (range (if bpp =? 4 then 16 else 256)).

(** An image whose indices have been clipped to [0,15]. *)
Definition clip_indices (image : PImage) : PImage :=
  {| p_width := p_width image;
     p_height := p_height image;
     p_palette := p_palette image;
     p_data := map (fun b => low_byte (clip 0 15 (b2z b))) (p_data image) |}.

(** The bytes of a CLUT block: size, origin, width, height, colors. *)
Definition clut_block (clut_block_size clut_x clut_y clut_w clut_h : Z)
    (colors : list Z) : list byte :=
  le_I clut_block_size ++
  (le_H clut_x ++ le_H clut_y ++ le_H clut_w ++ le_H clut_h) ++
  tobytes_u16 colors.

(** A CLUT block announcing one row of one color, holding two colors. *)
Definition tall_clut_block : list byte :=
  clut_block 16 0 0 1 1 [0x001F; 0x03E0].

(** A channel value the 5-bit expansion can produce. *)
Definition expanded_channel (v : Z) : Prop := 0 <= v <= 248 /\ v mod 8 = 0.

(** ** The viewer (timview-v2.py, class TIMViewerApp)

    Of the viewer's methods the parts that compute on bytes, strings, lists
    and integers are embedded; widget calls, which do not touch these values,
    are left out.  A Python [str] is a list of characters. *)

(** [f.seek(pos)] on a file opened at its start, whose contents are [file]. *)
Definition f_seek (file : list byte) (pos : Z) : reader unit :=
  fun _ => Ok (tt, skipn (Z.to_nat pos) file).

(** Lines 478-499 of [_add_paths], for a path of type ['tim']: the palette
    count and the depth recorded for the file.  Any exception leaves the
    defaults. *)
Definition sniff_metadata (file : list byte) : Z * Z :=
  let bpp := 24 in
  let palettes_count := 1 in
  match
    run (_ <~ f_seek file 4 ;;
         bs <~ f_read 4 ;;
         flags <~ lift (unpack_I bs) ;;
         let has_clut := Z.land flags 0x08 in
         let bpp_mode := Z.land flags 0x07 in
         let bpp := match bpp_of_mode bpp_mode with
                    | Some bpp => bpp
                    | None => 24
                    end in
         if negb (has_clut =? 0) then
           _ <~ f_seek file 12 ;;
           bs <~ f_read 4 ;;
           clut_sz <~ lift (unpack_I bs) ;;
           bs <~ f_read 8 ;;
           '(cx, cy, cw, ch) <~ lift (unpack_4H bs) ;;
           let palettes_count := if ch >? 0 then ch else 1 in
           ret (palettes_count, bpp)
         else ret (palettes_count, bpp))
        file
  with
  | Ok r => r
  | Err _ => (1, 24)
  end.

(** [a[start:stop]] on a sequence: negative bounds count from the end, and
    bounds are clamped to the sequence. *)
Definition slice {A} (a : list A) (start stop : Z) : list A :=
  let norm i := if i <? 0 then Z.max 0 (i + len a) else Z.min i (len a) in
  firstn (Z.to_nat (norm stop - norm start)) (skipn (Z.to_nat (norm start)) a).

(** [enumerate(a)] *)
Definition enumerate {A} (a : list A) : list (Z * A) := combine (range (len a)) a.

Definition hex_digit (d : Z) : ascii :=
  nth (Z.to_nat d)
      ["0"; "1"; "2"; "3"; "4"; "5"; "6"; "7";
       "8"; "9"; "a"; "b"; "c"; "d"; "e"; "f"]%char "0"%char.

(** ["%02x" % v] for [v] in [0,255] *)
Definition format_02x (v : Z) : list ascii := [hex_digit (v / 16); hex_digit (v mod 16)].

(** The value of a hexadecimal digit, by its character code: ['0'..'9'] and
    lower-case ['a'..'f']; no other character is one. *)
Definition hex_value (c : ascii) : option Z :=
  let n := Z.of_nat (nat_of_ascii c) in
  if (48 <=? n) && (n <=? 57) then Some (n - 48)
  else if (97 <=? n) && (n <=? 102) then Some (n - 87)
  else None.

(** The number two hexadecimal digits spell, [int(hi + lo, 16)]. *)
Definition hex_byte (hi lo : ascii) : option Z :=
  match hex_value hi, hex_value lo with
  | Some h, Some l => Some (16 * h + l)
  | _, _ => None
  end.

(** Lines 876-877. *)
Definition rgb_to_hex (rgb_tuple : Z * Z * Z) : list ascii :=
  let '(r, g, b) := rgb_tuple in
  let clamp v := Z.max 0 (Z.min 255 v) in
  "#"%char :: format_02x (clamp r) ++ format_02x (clamp g) ++ format_02x (clamp b).

(** Lines 623-654 of [_update_palette_preview]: the rectangles drawn for the
    file on display, as (x0, y0, x1, y1, fill), given the palette index of
    the file and the size the canvas reports.  Any exception is swallowed. *)
Definition palette_preview (file : list byte) (sel_row canvas_w canvas_h : Z)
  : list (Z * Z * Z * Z * list ascii) :=
  match
    run (_ <~ f_seek file 4 ;;
         bs <~ f_read 4 ;;
         flags <~ lift (unpack_I bs) ;;
         let has_clut := Z.land flags 0x08 in
         if has_clut =? 0 then ret []
         else
           _ <~ f_seek file 12 ;;
           bs <~ f_read 4 ;;
           clut_block_size <~ lift (unpack_I bs) ;;
           bs <~ f_read 8 ;;
           '(cx, cy, cw, ch) <~ lift (unpack_4H bs) ;;
           clut_data <~ f_read (clut_block_size - 12) ;;
           clut_colors <~ lift (frombuffer_u16 clut_data) ;;
           if cw =? 0 then ret []
           else
             let cols := cw in
             let start := sel_row * cols in
             let end_ := start + cols in
             let row_colors := slice clut_colors start end_ in
             let w := if canvas_w =? 0 then 400 else canvas_w in
             let h := if canvas_h =? 0 then 60 else canvas_h in
             let box_w := Z.max 8 (w / Z.max 1 (len row_colors)) in
             ret (map (fun ic : Z * Z =>
                         let '(i, c) := ic in
                         let x0 := i * box_w in
                         let x1 := x0 + box_w in
                         (x0, 0, x1, h, rgb_to_hex (expand c)))
                      (enumerate row_colors)))
        file
  with
  | Ok rects => rects
  | Err _ => []
  end.

(** Lines 664-680 of [_on_palette_click]: the palette index of the file on
    display after a click.  [clicked_col] is the column the method computes
    in floating point from the click position and the canvas width. *)
Definition palette_click (file : list byte) (clicked_col palette_index : Z) : Z :=
  match
    run (_ <~ f_seek file 4 ;;
         bs <~ f_read 4 ;;
         flags <~ lift (unpack_I bs) ;;
         let has_clut := Z.land flags 0x08 in
         if has_clut =? 0 then ret palette_index
         else
           _ <~ f_seek file 12 ;;
           bs <~ f_read 4 ;;
           clut_block_size <~ lift (unpack_I bs) ;;
           bs <~ f_read 8 ;;
           '(cx, cy, cw, ch) <~ lift (unpack_4H bs) ;;
           if cw <=? 0 then ret palette_index
           else
             let new_index := clicked_col in
             let new_index := Z.max 0 (Z.min new_index (cw - 1)) in
             ret new_index)
        file
  with
  | Ok new_index => new_index
  | Err _ => palette_index
  end.

(** Lines 825-845 of [_on_dnd]: the paths found in the dropped data. *)
Record dnd_state : Type := mkDnd {
  dnd_paths : list (list ascii);
  dnd_cur : list ascii;
  dnd_in_brace : bool
}.

(** [if cur: paths.append(cur)] *)
Definition dnd_push (paths : list (list ascii)) (cur : list ascii)
  : list (list ascii) :=
  match cur with
  | [] => paths
  | _ => paths ++ [cur]
  end.

Definition dnd_step (st : dnd_state) (ch : ascii) : dnd_state :=
  if Ascii.eqb ch "{" then
    mkDnd (dnd_paths st) [] true
  else if Ascii.eqb ch "}" then
    mkDnd (dnd_push (dnd_paths st) (dnd_cur st)) [] false
  else if Ascii.eqb ch " " && negb (dnd_in_brace st) then
    mkDnd (dnd_push (dnd_paths st) (dnd_cur st)) [] (dnd_in_brace st)
  else
    mkDnd (dnd_paths st) (dnd_cur st ++ [ch]) (dnd_in_brace st).

Definition on_dnd_paths (data : list ascii) : list (list ascii) :=
  let st := fold_left dnd_step data (mkDnd [] [] false) in
  dnd_push (dnd_paths st) (dnd_cur st).

(** A dropped item as the drop source writes it: in braces when it holds a
    space. *)
Definition dnd_item (name : list ascii) : list ascii :=
  if existsb (Ascii.eqb " ") name then "{"%char :: name ++ ["}"%char] else name.

(** Items separated by single spaces. *)
Fixpoint dnd_join (items : list (list ascii)) : list ascii :=
  match items with
  | [] => []
  | [item] => item
  | item :: rest => item ++ " "%char :: dnd_join rest
  end.

(** Lines 750-766: [prev_image] and [next_image] on the index. *)
Definition prev_image {A} (tim_files : list A) (index : Z) : Z :=
  match tim_files with
  | [] => index
  | _ => (index - 1) mod len tim_files
  end.

Definition next_image {A} (tim_files : list A) (index : Z) : Z :=
  match tim_files with
  | [] => index
  | _ => (index + 1) mod len tim_files
  end.

(** Lines 515-540 of [_populate_thumbnails]: the grid cell (row, column) of
    each thumbnail, in the order of the files. *)
Definition thumbnail_cells {A} (tim_files : list A) : list (Z * Z) :=
  let cols := 3 in
  let '(cells, _, _) :=
    fold_left (fun (st : list (Z * Z) * Z * Z) (_ : A) =>
                 let '(cells, cur_col, cur_row) := st in
                 let cells := cells ++ [(cur_row, cur_col)] in
                 let cur_col := cur_col + 1 in
                 if cur_col >=? cols then (cells, 0, cur_row + 1)
                 else (cells, cur_col, cur_row))
              tim_files ([], 0, 0) in
  cells.

(** The lists the viewer keeps in step, one entry per loaded file, and the
    index of the file on display. *)
Record viewer : Type := mkViewer {
  tim_files : list (list ascii);
  file_types : list (list ascii);
  palettes : list Z;
  palette_indices : list Z;
  bpp_modes : list Z;
  index_ : Z
}.

(** [l.pop(i)], on the list that remains: a negative index counts from the
    end, an index out of range raises IndexError. *)
Definition list_pop {A} (l : list A) (i : Z) : result (list A) :=
  if (0 <=? i) && (i <? len l)
  then Ok (firstn (Z.to_nat i) l ++ skipn (S (Z.to_nat i)) l)
  else if (- len l <=? i) && (i <? 0)
  then Ok (firstn (Z.to_nat (len l + i)) l ++ skipn (S (Z.to_nat (len l + i))) l)
  else Err IndexError.

(** Lines 389-401 of [_context_remove]; [idx] is the selection of the list
    box, [None] when nothing is selected.  (When a [pop] raises, the lists
    popped before it stay popped; the model keeps the exception only.) *)
Definition context_remove (idx : option Z) (v : viewer) : result viewer :=
  match idx with
  | None => Ok v
  | Some idx =>
      tim_files' <- list_pop (tim_files v) idx ;;
      file_types' <- list_pop (file_types v) idx ;;
      palettes' <- list_pop (palettes v) idx ;;
      palette_indices' <- list_pop (palette_indices v) idx ;;
      bpp_modes' <- list_pop (bpp_modes v) idx ;;
      Ok (mkViewer tim_files' file_types' palettes' palette_indices' bpp_modes'
                   (Z.max 0 (idx - 1)))
  end.

(** The rows of a viewer, file by file. *)
Definition viewer_rows (v : viewer)
  : list (list ascii * list ascii * Z * Z * Z) :=
  combine (combine (combine (combine (tim_files v) (file_types v)) (palettes v))
                   (palette_indices v)) (bpp_modes v).

(** A name the drop parser can hand on: not empty, without braces. *)
Definition dnd_clean (name : list ascii) : Prop :=
  name <> [] /\ ~ In "{"%char name /\ ~ In "}"%char name.

(** The viewer's lists all hold [n] entries. *)
Definition aligned (n : Z) (v : viewer) : Prop :=
  len (tim_files v) = n /\ len (file_types v) = n /\ len (palettes v) = n /\
  len (palette_indices v) = n /\ len (bpp_modes v) = n.

(** A list without its entry [k]. *)
Definition without {A} (k : Z) (l : list A) : list A :=
  firstn (Z.to_nat k) l ++ skipn (S (Z.to_nat k)) l.

(** Lines 463-468 of [_add_paths]: whether a path ending in [.tim] is put on
    the list; a wrong magic and any exception skip the file. *)
Definition tim_magic_ok (file : list byte) : bool :=
  match
    run (bs <~ f_read 4 ;;
         magic <~ lift (unpack_I bs) ;;
         if negb (magic =? 0x10) then ret false else ret true)
        file
  with
  | Ok listed => listed
  | Err _ => false
  end.

(** The image with its width replaced, pixel data unchanged. *)
Definition with_width (image : PImage) (w : Z) : PImage :=
  {| p_width := w;
     p_height := p_height image;
     p_palette := p_palette image;
     p_data := p_data image |}.

(** * Properties *)

(** ** Bit-level helper lemmas *)

Lemma land_ones_mod (x n : Z) : 0 <= n -> Z.land x (Z.ones n) = x mod 2 ^ n.
Proof. intros Hn. now apply Z.land_ones. Qed.

Lemma land_31 (x : Z) : Z.land x 0x1F = x mod 32.
Proof. change 0x1F with (Z.ones 5). now rewrite land_ones_mod by lia. Qed.

Lemma land_15 (x : Z) : Z.land x 0x0F = x mod 16.
Proof. change 0x0F with (Z.ones 4). now rewrite land_ones_mod by lia. Qed.

Lemma land_65535 (x : Z) : Z.land x 0xFFFF = x mod 65536.
Proof. change 0xFFFF with (Z.ones 16). now rewrite land_ones_mod by lia. Qed.

Lemma small_testbit_false (lo n m : Z) :
  0 <= lo < 2 ^ n -> 0 <= n <= m -> Z.testbit lo m = false.
Proof.
  intros Hlo Hnm.
  destruct (Z.eq_dec lo 0) as [->|Hne]; [apply Z.bits_0|].
  apply Z.bits_above_log2; [lia|].
  assert (Z.log2 lo < n) by (apply Z.log2_lt_pow2; lia).
  lia.
Qed.

Lemma lor_shiftl_add (hi lo n : Z) :
  0 <= n -> 0 <= lo < 2 ^ n -> Z.lor (Z.shiftl hi n) lo = hi * 2 ^ n + lo.
Proof.
  intros Hn Hlo.
  assert (Hdisj : Z.land (Z.shiftl hi n) lo = 0).
  { apply Z.bits_inj'. intros m Hm. rewrite Z.land_spec, Z.bits_0.
    destruct (Z_lt_le_dec m n) as [Hlt|Hge].
    - rewrite Z.shiftl_spec_low by lia. reflexivity.
    - rewrite (small_testbit_false lo n m) by lia. apply andb_false_r. }
  rewrite <- Z.lxor_lor by exact Hdisj.
  rewrite <- Z.add_nocarry_lxor by exact Hdisj.
  now rewrite Z.shiftl_mul_pow2 by lia.
Qed.

(** The packed color of three 5-bit channels, as a sum. *)
Lemma pack_channels (r g b : Z) :
  0 <= r < 32 -> 0 <= g < 32 -> 0 <= b < 32 ->
  Z.lor (Z.lor (Z.shiftl b 10) (Z.shiftl g 5)) r = b * 1024 + g * 32 + r.
Proof.
  intros Hr Hg Hb.
  rewrite (Z.shiftl_mul_pow2 g 5) by lia.
  rewrite (lor_shiftl_add b (g * 2 ^ 5) 10) by lia.
  replace (b * 2 ^ 10 + g * 2 ^ 5) with ((b * 32 + g) * 2 ^ 5) by lia.
  rewrite <- Z.shiftl_mul_pow2 by lia.
  rewrite lor_shiftl_add by lia. lia.
Qed.

Lemma quantize_sum (r g b : Z) :
  0 <= r < 256 -> 0 <= g < 256 -> 0 <= b < 256 ->
  quantize r g b = (b / 8) * 1024 + (g / 8) * 32 + r / 8.
Proof.
  intros Hr Hg Hb. unfold quantize, pack_color. cbv zeta.
  rewrite !Z.shiftr_div_pow2 by lia. change (2 ^ 3) with 8.
  rewrite pack_channels by (split; [apply Z.div_pos | apply Z.div_lt_upper_bound]; lia).
  rewrite land_65535. apply Z.mod_small.
  assert (0 <= r / 8 < 32) by (split; [apply Z.div_pos | apply Z.div_lt_upper_bound]; lia).
  assert (0 <= g / 8 < 32) by (split; [apply Z.div_pos | apply Z.div_lt_upper_bound]; lia).
  assert (0 <= b / 8 < 32) by (split; [apply Z.div_pos | apply Z.div_lt_upper_bound]; lia).
  lia.
Qed.

Lemma expand_arith (c : Z) :
  expand c = ((c mod 32) * 8, ((c / 32) mod 32) * 8, ((c / 1024) mod 32) * 8).
Proof.
  unfold expand. rewrite !land_31, !Z.shiftl_mul_pow2, !Z.shiftr_div_pow2 by lia.
  reflexivity.
Qed.

Lemma quantize_range (r g b : Z) :
  0 <= r < 256 -> 0 <= g < 256 -> 0 <= b < 256 -> 0 <= quantize r g b < 32768.
Proof.
  intros Hr Hg Hb. rewrite quantize_sum by assumption.
  assert (0 <= r / 8 < 32) by (split; [apply Z.div_pos | apply Z.div_lt_upper_bound]; lia).
  assert (0 <= g / 8 < 32) by (split; [apply Z.div_pos | apply Z.div_lt_upper_bound]; lia).
  assert (0 <= b / 8 < 32) by (split; [apply Z.div_pos | apply Z.div_lt_upper_bound]; lia).
  lia.
Qed.

Lemma bit15_clear_bound (c : Z) :
  0 <= c < 65536 -> Z.testbit c 15 = false -> c < 32768.
Proof.
  intros Hc Hbit. apply Z.testbit_false in Hbit; [|lia].
  change (2 ^ 15) with 32768 in Hbit.
  assert (c / 32768 < 2) by (apply Z.div_lt_upper_bound; lia).
  assert (0 <= c / 32768) by (apply Z.div_pos; lia).
  pose proof (Z.div_mod c 32768 ltac:(lia)).
  pose proof (Z.mod_pos_bound c 32768 ltac:(lia)).
  pose proof (Z.div_mod (c / 32768) 2 ltac:(lia)).
  lia.
Qed.

(** ** Properties of the converter *)

(** C2: on a 16-bit color whose bit 15 is clear, quantizing the expanded
    channels gives the color back; on any 8-bit triple, expanding the quantized
    color moves each channel by at most 7. *)
Theorem quantize_expand_roundtrip :
  (forall c, 0 <= c < 65536 -> Z.testbit c 15 = false ->
     let '(r, g, b) := expand c in quantize r g b = c) /\
  (forall r g b, 0 <= r < 256 -> 0 <= g < 256 -> 0 <= b < 256 ->
     let '(r', g', b') := expand (quantize r g b) in
     Z.abs (r - r') <= 7 /\ Z.abs (g - g') <= 7 /\ Z.abs (b - b') <= 7).
Proof.
  split.
  - intros c Hc Hbit. pose proof (bit15_clear_bound c Hc Hbit) as Hlt.
    rewrite expand_arith.
    pose proof (Z.mod_pos_bound c 32 ltac:(lia)).
    pose proof (Z.mod_pos_bound (c / 32) 32 ltac:(lia)).
    pose proof (Z.mod_pos_bound (c / 1024) 32 ltac:(lia)).
    rewrite quantize_sum by lia. rewrite !Z.div_mul by lia.
    Z.to_euclidean_division_equations. lia.
  - intros r g b Hr Hg Hb.
    pose proof (quantize_range r g b Hr Hg Hb) as Hq.
    rewrite expand_arith. rewrite quantize_sum in * by assumption.
    Z.to_euclidean_division_equations. lia.
Qed.

Lemma quantize_expand_roundtrip_witness :
  (let '(r, g, b) := expand 0x4210 in quantize r g b = 0x4210) /\
  (let '(r', g', b') := expand (quantize 255 130 7) in
   Z.abs (255 - r') <= 7 /\ Z.abs (130 - g') <= 7 /\ Z.abs (7 - b') <= 7).
Proof.
  split.
  - apply (proj1 quantize_expand_roundtrip 0x4210); [lia | reflexivity].
  - apply (proj2 quantize_expand_roundtrip 255 130 7); lia.
Defined.

(** ** Bytes, ranges and [mapM] *)

Lemma b2z_range (b : byte) : 0 <= b2z b < 256.
Proof.
  unfold b2z. pose proof (Byte.to_N_bounded b). lia.
Qed.

Lemma z2b_b2z (b : byte) : z2b (b2z b) = Some b.
Proof.
  unfold z2b. pose proof (b2z_range b) as H.
  destruct (Z.ltb_spec (b2z b) 0); [lia|].
  unfold b2z. rewrite N2Z.id. apply Byte.of_to_N.
Qed.

Lemma z2b_some (z : Z) : 0 <= z < 256 -> exists b, z2b z = Some b /\ b2z b = z.
Proof.
  intros Hz. unfold z2b. destruct (Z.ltb_spec z 0); [lia|].
  destruct (Byte.of_N (Z.to_N z)) as [b|] eqn:E.
  - exists b. split; [reflexivity|].
    apply Byte.to_of_N in E. unfold b2z. rewrite E. lia.
  - apply Byte.of_N_None_iff in E. lia.
Qed.

Lemma b2z_low_byte (z : Z) : b2z (low_byte z) = z mod 256.
Proof.
  unfold low_byte.
  destruct (z2b_some (z mod 256)) as (b & -> & Hb); [|exact Hb].
  apply Z.mod_pos_bound. lia.
Qed.

Lemma low_byte_b2z (b : byte) : low_byte (b2z b) = b.
Proof.
  unfold low_byte. rewrite Z.mod_small by apply b2z_range.
  now rewrite z2b_b2z.
Qed.

Lemma len_nonneg {A} (l : list A) : 0 <= len l.
Proof. unfold len. lia. Qed.

Lemma len_map {A B} (f : A -> B) (l : list A) : len (map f l) = len l.
Proof. unfold len. now rewrite length_map. Qed.

Lemma len_range (n : Z) : 0 <= n -> len (range n) = n.
Proof.
  intros Hn. unfold len, range. rewrite length_map, length_seq. lia.
Qed.

Lemma in_range (n x : Z) : In x (range n) <-> 0 <= x < n.
Proof.
  unfold range. rewrite in_map_iff. split.
  - intros (k & <- & Hk). apply in_seq in Hk. lia.
  - intros Hx. exists (Z.to_nat x). split; [lia|]. apply in_seq. lia.
Qed.

Lemma nth_range (n i d : Z) :
  0 <= i < n -> nth (Z.to_nat i) (range n) d = i.
Proof.
  intros Hi. unfold range.
  rewrite (nth_indep _ d (Z.of_nat 0)) by (rewrite length_map, length_seq; lia).
  rewrite map_nth, seq_nth by lia. lia.
Qed.

Lemma len_take {A} (n : Z) (l : list A) :
  0 <= n <= len l -> len (take n l) = n.
Proof.
  unfold len, take. intros Hn. rewrite length_firstn. lia.
Qed.

Lemma nth_take {A} (n : Z) (l : list A) (i : nat) (d : A) :
  (Z.of_nat i < n) -> nth i (take n l) d = nth i l d.
Proof.
  unfold take. intros Hi.
  rewrite <- (firstn_skipn (Z.to_nat n) l) at 2.
  destruct (Nat.lt_ge_cases i (length (firstn (Z.to_nat n) l))) as [Hlt|Hge].
  - now rewrite app_nth1.
  - rewrite length_firstn in Hge.
    assert (Hl : (length l <= i)%nat) by lia.
    rewrite firstn_skipn. rewrite (nth_overflow l) by exact Hl.
    apply nth_overflow. rewrite length_firstn. lia.
Qed.

(** [mapM] of a function that succeeds on every element is a [map]. *)
Lemma mapM_map {A B} (f : A -> result B) (g : A -> B) (l : list A) :
  (forall x, In x l -> f x = Ok (g x)) -> mapM f l = Ok (map g l).
Proof.
  induction l as [|a l IH]; intros Hf; [reflexivity|].
  simpl. rewrite (Hf a) by now left. simpl.
  rewrite IH by (intros x Hx; apply Hf; now right). reflexivity.
Qed.

Lemma index_in_bounds {A} (d : A) (a : list A) (i : Z) :
  0 <= i < len a -> index d a i = Ok (nth (Z.to_nat i) a d).
Proof.
  intros Hi. unfold index.
  destruct (Z.leb_spec 0 i); [|lia]. destruct (Z.ltb_spec i (len a)); [|lia].
  reflexivity.
Qed.

Lemma index_negative {A} (d : A) (a : list A) (i : Z) :
  - len a <= i < 0 -> index d a i = Ok (nth (Z.to_nat (len a + i)) a d).
Proof.
  intros Hi. unfold index.
  destruct (Z.leb_spec 0 i); [lia|]. simpl.
  destruct (Z.leb_spec (- len a) i); [|lia]. destruct (Z.ltb_spec i 0); [|lia].
  reflexivity.
Qed.

(** ** Reading the file *)

Lemma f_read_app (n : Z) (a rest : list byte) :
  len a = n -> f_read n (a ++ rest) = Ok (a, rest).
Proof.
  intros Hn. unfold f_read. pose proof (len_nonneg a).
  destruct (Z.ltb_spec n (-1)); [lia|]. destruct (Z.eqb_spec n (-1)); [lia|].
  assert (Hnat : Z.to_nat n = length a) by (unfold len in Hn; lia).
  rewrite Hnat, firstn_app, skipn_app, Nat.sub_diag, firstn_all, skipn_all.
  simpl. now rewrite app_nil_r.
Qed.

Lemma bind_ok {A B} (m : reader A) (k : A -> reader B) s a s' :
  m s = Ok (a, s') -> bind m k s = k a s'.
Proof. intros H. unfold bind. now rewrite H. Qed.

Lemma bind_err {A B} (m : reader A) (k : A -> reader B) s e :
  m s = Err e -> bind m k s = Err e.
Proof. intros H. unfold bind. now rewrite H. Qed.

Lemma bind_lift_ok {A B} (r : result A) (k : A -> reader B) s a :
  r = Ok a -> bind (lift r) k s = k a s.
Proof. intros ->. reflexivity. Qed.

Lemma bind_assoc {A B C} (m : reader A) (f : A -> reader B) (g : B -> reader C) s :
  bind (bind m f) g s = bind m (fun x => bind (f x) g) s.
Proof. unfold bind. destruct (m s) as [[a s']|e]; reflexivity. Qed.

Lemma bind_lift {A B} (r : result A) (k : A -> reader B) s :
  bind (lift r) k s = match r with Ok a => k a s | Err e => Err e end.
Proof. now destruct r. Qed.

Lemma bind_ret {A B} (a : A) (k : A -> reader B) s : bind (ret a) k s = k a s.
Proof. reflexivity. Qed.

(** ** The header *)

(** C8: a buffer whose first four bytes, read little-endian, are not 0x10 is
    rejected with the bad-magic error, whatever follows and whatever palette
    is requested; no image is produced. *)
Theorem bad_magic_rejected (b0 b1 b2 b3 : byte) (rest : list byte) (p : Z) :
  le_bytes [b0; b1; b2; b3] <> 0x10 ->
  read_tim (b0 :: b1 :: b2 :: b3 :: rest) p = Err BadMagic.
Proof.
  intros Hmagic. unfold read_tim, run.
  change (b0 :: b1 :: b2 :: b3 :: rest) with ([b0; b1; b2; b3] ++ rest).
  rewrite (bind_err read_header _ _ BadMagic); [reflexivity|].
  unfold read_header.
  rewrite (bind_ok _ _ _ _ _ (f_read_app 4 [b0; b1; b2; b3] rest eq_refl)).
  rewrite (bind_lift_ok _ _ _ (le_bytes [b0; b1; b2; b3])) by reflexivity.
  destruct (Z.eqb_spec (le_bytes [b0; b1; b2; b3]) 0x10) as [E|_]; [contradiction|].
  reflexivity.
Qed.

Lemma bad_magic_rejected_witness :
  read_tim [x11; x00; x00; x00; x08; x00; x00; x00] 0 = Err BadMagic.
Proof.
  apply (bad_magic_rejected x11 x00 x00 x00 [x08; x00; x00; x00] 0).
  vm_compute. discriminate.
Defined.

(** ** Palette selection *)

Lemma select_palette_clamp (clut : list (list Z)) (p : Z) :
  len clut <= p -> select_palette clut p = select_palette clut 0.
Proof.
  intros Hp. unfold select_palette.
  destruct (Z.geb_spec p (len clut)); [|lia].
  now destruct (0 >=? len clut).
Qed.

Lemma select_palette_first (clut : list (list Z)) (p : Z) :
  1 <= len clut <= p -> select_palette clut p = Ok (nth 0 clut []).
Proof.
  intros Hp. unfold select_palette.
  destruct (Z.geb_spec p (len clut)); [|lia].
  now rewrite index_in_bounds by lia.
Qed.

Lemma select_palette_negative (clut : list (list Z)) (p : Z) :
  - len clut <= p < 0 ->
  select_palette clut p = Ok (nth (Z.to_nat (len clut + p)) clut []).
Proof.
  intros Hp. unfold select_palette.
  destruct (Z.geb_spec p (len clut)); [lia|].
  now apply index_negative.
Qed.

Lemma select_palette_in_bounds (clut : list (list Z)) (p : Z) :
  0 <= p < len clut -> select_palette clut p = Ok (nth (Z.to_nat p) clut []).
Proof.
  intros Hp. unfold select_palette.
  destruct (Z.geb_spec p (len clut)); [lia|].
  now apply index_in_bounds.
Qed.

(** [read_tim] looks at the requested index only through the row it
    selects. *)
Lemma read_tim_palette_cong (file : list byte) (clut : list (list Z)) (p q : Z) :
  file_clut file = Ok (Some clut) ->
  select_palette clut p = select_palette clut q ->
  read_tim file p = read_tim file q.
Proof.
  unfold file_clut, read_tim, run, bind. intros Hclut Hsel.
  destruct (read_header file) as [[[bpp has_clut] s]|e]; [|discriminate].
  destruct has_clut; [|discriminate].
  destruct (read_clut s) as [[c s']|e]; [|discriminate].
  unfold ret in Hclut. injection Hclut as ->.
  now rewrite Hsel.
Qed.

(** The claim of C5 fails where it says that decoding never fails: a CLUT
    block that holds no color parses to a table of no rows, and then every
    request, also one at or above the row count, fails with IndexError. *)
Lemma zero_row_clut_request_fails :
  file_clut empty_clut_tim = Ok (Some []) /\
  len (@nil (list Z)) <= 5 /\
  read_tim empty_clut_tim 5 = Err IndexError /\
  read_tim empty_clut_tim 0 = Err IndexError.
Proof. repeat split; try reflexivity. vm_compute. discriminate. Qed.

(** C5, as the code has it: when the file has a CLUT of [h] rows, requesting
    a row [p >= h] decodes exactly as requesting row 0 does: the same image,
    or the same failure when row 0 fails too.  For [h >= 1] the request is no
    error of its own: the selection succeeds and yields the first row, not
    the last.  For [h = 0] decoding fails with IndexError. *)
Theorem palette_index_clamped_to_row0
    (file : list byte) (clut : list (list Z)) (h p : Z) :
  file_clut file = Ok (Some clut) ->
  len clut = h ->
  h <= p ->
  read_tim file p = read_tim file 0 /\
  (1 <= h -> select_palette clut p = Ok (nth 0 clut [])) /\
  (h = 0 -> read_tim file p = Err IndexError).
Proof.
  intros Hclut Hh Hp. split; [|split].
  - apply (read_tim_palette_cong file clut); [exact Hclut|].
    apply select_palette_clamp. lia.
  - intros H1. apply select_palette_first. lia.
  - intros H0. revert Hclut. unfold file_clut, read_tim, run, bind.
    destruct (read_header file) as [[[bpp has_clut] s]|e]; [|discriminate].
    destruct has_clut; [|discriminate].
    destruct (read_clut s) as [[c s']|e]; [|discriminate].
    unfold ret. intros Hclut.
    assert (Hc : c = clut) by congruence. subst c.
    unfold select_palette.
    destruct (Z.geb_spec p (len clut)) as [_|Hlt]; [|lia].
    unfold index. rewrite Hh, H0. reflexivity.
Qed.

(** C9: when the file has a CLUT of [h >= 1] rows, a negative index
    [-h <= p < 0] is neither rejected nor clamped: row [h + p] is selected, and
    decoding proceeds as for that row. *)
Theorem negative_palette_index_wraps
    (file : list byte) (clut : list (list Z)) (h p : Z) :
  file_clut file = Ok (Some clut) ->
  len clut = h ->
  1 <= h ->
  - h <= p < 0 ->
  select_palette clut p = Ok (nth (Z.to_nat (h + p)) clut []) /\
  read_tim file p = read_tim file (h + p).
Proof.
  intros Hclut Hh H1 Hp. subst h. split.
  - now apply select_palette_negative.
  - apply (read_tim_palette_cong file clut); [exact Hclut|].
    rewrite select_palette_negative by lia.
    now rewrite select_palette_in_bounds by lia.
Qed.

(** ** The 4bpp payload *)

Lemma nth_frombuffer_u8 (data : list byte) (k : nat) :
  nth k (frombuffer_u8 data) 0 = b2z (nth k data x00).
Proof. exact (map_nth b2z data x00 k). Qed.

Lemma land_1_even (i : Z) : (Z.land i 1 =? 0) = Z.even i.
Proof.
  change 1 with (Z.ones 1). rewrite land_ones_mod by lia.
  change (2 ^ 1) with 2. rewrite Zmod_even. now destruct (Z.even i).
Qed.

Lemma unpack_4bpp_map (raw_data : list byte) (n : Z) :
  0 <= n -> (n + 1) / 2 <= len raw_data ->
  unpack_4bpp raw_data n = Ok (map (nibble_at raw_data) (range n)).
Proof.
  intros Hn Hlen. unfold unpack_4bpp. apply mapM_map.
  intros i Hi. apply in_range in Hi.
  assert (Hhalf : 0 <= i / 2 < (n + 1) / 2)
    by (Z.to_euclidean_division_equations; lia).
  rewrite index_in_bounds
    by (unfold frombuffer_u8; rewrite len_map, len_take; lia).
  simpl. rewrite nth_frombuffer_u8, nth_take by lia.
  unfold nibble_at. now rewrite land_1_even.
Qed.

(** C3: in a 4bpp decode of [n] pixels (the payload holding the bytes the
    decoder asks for), the index of pixel [i] comes from payload byte
    [i / 2]: its low nibble when [i] is even, its high nibble when [i] is
    odd. *)
Theorem unpack_4bpp_nibbles (raw_data : list byte) (n : Z) :
  0 <= n -> (n + 1) / 2 <= len raw_data ->
  exists pixels,
    unpack_4bpp raw_data n = Ok pixels /\
    len pixels = n /\
    forall i, 0 <= i < n ->
      let byte := b2z (nth (Z.to_nat (i / 2)) raw_data x00) in
      nth (Z.to_nat i) pixels 0 =
        if Z.even i then Z.land byte 0x0F else Z.land (Z.shiftr byte 4) 0x0F.
Proof.
  intros Hn Hlen. exists (map (nibble_at raw_data) (range n)).
  split; [now apply unpack_4bpp_map|]. split.
  - now rewrite len_map, len_range.
  - intros i Hi. cbv zeta.
    rewrite (nth_indep _ 0 (nibble_at raw_data 0))
      by (rewrite length_map; pose proof (len_range n Hn); unfold len in *; lia).
    rewrite map_nth, nth_range by lia. reflexivity.
Qed.

Lemma unpack_4bpp_nibbles_witness :
  exists pixels,
    unpack_4bpp [x01; x00] 4 = Ok pixels /\
    len pixels = 4 /\
    forall i, 0 <= i < 4 ->
      let byte := b2z (nth (Z.to_nat (i / 2)) [x01; x00] x00) in
      nth (Z.to_nat i) pixels 0 =
        if Z.even i then Z.land byte 0x0F else Z.land (Z.shiftr byte 4) 0x0F.
Proof.
  apply (unpack_4bpp_nibbles [x01; x00] 4); [lia | vm_compute; discriminate].
Defined.

(** ** Sample decodes *)

Example two_row_tim_clut :
  file_clut two_row_tim = Ok (Some [[0; 0x7FFF]; [0x1F; 0x3E0]]).
Proof. reflexivity. Qed.

Example two_row_tim_row0 :
  read_tim two_row_tim 0 =
  Ok (mkImage 4 1 [(0, 0, 0); (248, 248, 248); (248, 248, 248); (0, 0, 0)]).
Proof. reflexivity. Qed.

Example two_row_tim_last_row :
  read_tim two_row_tim (-1) =
  Ok (mkImage 4 1 [(248, 0, 0); (0, 248, 0); (0, 248, 0); (248, 0, 0)]).
Proof. reflexivity. Qed.

Example two_row_tim_below_range : read_tim two_row_tim (-3) = Err IndexError.
Proof. reflexivity. Qed.

Lemma palette_index_clamped_to_row0_witness :
  read_tim two_row_tim 7 = read_tim two_row_tim 0 /\
  (1 <= 2 -> select_palette [[0; 0x7FFF]; [0x1F; 0x3E0]] 7
             = Ok (nth 0 [[0; 0x7FFF]; [0x1F; 0x3E0]] [])) /\
  (2 = 0 -> read_tim two_row_tim 7 = Err IndexError).
Proof.
  apply (palette_index_clamped_to_row0 two_row_tim
           [[0; 0x7FFF]; [0x1F; 0x3E0]] 2 7); [reflexivity | reflexivity | lia].
Defined.

Lemma negative_palette_index_wraps_witness :
  select_palette [[0; 0x7FFF]; [0x1F; 0x3E0]] (-1)
    = Ok (nth (Z.to_nat (2 + -1)) [[0; 0x7FFF]; [0x1F; 0x3E0]] []) /\
  read_tim two_row_tim (-1) = read_tim two_row_tim (2 + -1).
Proof.
  apply (negative_palette_index_wraps two_row_tim
           [[0; 0x7FFF]; [0x1F; 0x3E0]] 2 (-1));
    [reflexivity | reflexivity | lia | lia].
Defined.

(** ** The palette of a file without CLUT *)

Lemma nth_map_range {B} (f : Z -> B) (n i : Z) (d : B) :
  0 <= i < n -> nth (Z.to_nat i) (map f (range n)) d = f i.
Proof.
  intros Hi.
  rewrite (nth_indep _ d (f 0))
    by (rewrite length_map; pose proof (len_range n ltac:(lia)); unfold len in *; lia).
  now rewrite map_nth, nth_range.
Qed.

Lemma synth_entry (n i : Z) :
  0 <= i < n ->
  nth (Z.to_nat i) (synth_palette n) 0 = (i mod 32) * 1057.
Proof.
  intros Hi. unfold synth_palette. rewrite nth_map_range by exact Hi.
  rewrite land_31. set (m := i mod 32).
  assert (Hm : 0 <= m < 32) by (apply Z.mod_pos_bound; lia).
  rewrite (Z.lor_comm m), lor_shiftl_add by lia.
  rewrite Z.lor_comm, lor_shiftl_add by lia.
  lia.
Qed.

(** C10: without a CLUT, entry [i] of the synthesized palette is the color
    whose three channels all equal [i mod 32] (bit 15 clear), for the 16-entry
    palette of 4bpp and the 256-entry palette of 8bpp alike; so the 256-entry
    palette repeats with period 32 and is not an increasing ramp (entry 32
    falls back below entry 31). *)
Theorem synth_palette_repeats :
  (forall n i, (n = 16 \/ n = 256) -> 0 <= i < n ->
     let c := nth (Z.to_nat i) (synth_palette n) 0 in
     Z.land c 0x1F = i mod 32 /\
     Z.land (Z.shiftr c 5) 0x1F = i mod 32 /\
     Z.land (Z.shiftr c 10) 0x1F = i mod 32 /\
     Z.shiftr c 15 = 0) /\
  (forall i, 0 <= i <= 223 ->
     nth (Z.to_nat i) (synth_palette 256) 0 =
     nth (Z.to_nat (i + 32)) (synth_palette 256) 0) /\
  nth 32 (synth_palette 256) 0 < nth 31 (synth_palette 256) 0.
Proof.
  split; [|split].
  - intros n i _ Hi. cbv zeta. rewrite synth_entry by exact Hi.
    rewrite !land_31, !Z.shiftr_div_pow2 by lia.
    pose proof (Z.mod_pos_bound i 32 ltac:(lia)) as Hm.
    change (2 ^ 5) with 32. change (2 ^ 10) with 1024. change (2 ^ 15) with 32768.
    Z.to_euclidean_division_equations. lia.
  - intros i Hi. rewrite !synth_entry by lia.
    replace (i + 32) with (i + 1 * 32) by lia.
    now rewrite Z.mod_add by lia.
  - vm_compute. reflexivity.
Qed.

Lemma synth_palette_repeats_witness :
  (let c := nth (Z.to_nat 37) (synth_palette 256) 0 in
   Z.land c 0x1F = 37 mod 32 /\
   Z.land (Z.shiftr c 5) 0x1F = 37 mod 32 /\
   Z.land (Z.shiftr c 10) 0x1F = 37 mod 32 /\
   Z.shiftr c 15 = 0) /\
  nth (Z.to_nat 5) (synth_palette 256) 0 =
  nth (Z.to_nat (5 + 32)) (synth_palette 256) 0.
Proof.
  split.
  - apply (proj1 synth_palette_repeats 256 37); [now right | lia].
  - apply (proj1 (proj2 synth_palette_repeats) 5). lia.
Defined.

(** ** The encoder *)

Lemma pack_I_ok (v : Z) : 0 <= v < 2 ^ 32 -> pack_I v = Ok (le_I v).
Proof.
  intros Hv. unfold pack_I.
  destruct (Z.leb_spec 0 v); [|lia]. destruct (Z.ltb_spec v (2 ^ 32)); [|lia].
  reflexivity.
Qed.

Lemma pack_H_ok (v : Z) : 0 <= v < 2 ^ 16 -> pack_H v = Ok (le_H v).
Proof.
  intros Hv. unfold pack_H.
  destruct (Z.leb_spec 0 v); [|lia]. destruct (Z.ltb_spec v (2 ^ 16)); [|lia].
  reflexivity.
Qed.

Lemma pack_I_inv (v : Z) (bs : list byte) :
  pack_I v = Ok bs -> 0 <= v < 2 ^ 32 /\ bs = le_I v.
Proof.
  unfold pack_I.
  destruct (Z.leb_spec 0 v); [|discriminate].
  destruct (Z.ltb_spec v (2 ^ 32)); [|discriminate].
  simpl. intros Hbs. injection Hbs as <-. split; [lia | reflexivity].
Qed.

Lemma pack_H_inv (v : Z) (bs : list byte) :
  pack_H v = Ok bs -> 0 <= v < 2 ^ 16 /\ bs = le_H v.
Proof.
  unfold pack_H.
  destruct (Z.leb_spec 0 v); [|discriminate].
  destruct (Z.ltb_spec v (2 ^ 16)); [|discriminate].
  simpl. intros Hbs. injection Hbs as <-. split; [lia | reflexivity].
Qed.

Lemma pack_4H_ok (a b c d : Z) :
  0 <= a < 2 ^ 16 -> 0 <= b < 2 ^ 16 -> 0 <= c < 2 ^ 16 -> 0 <= d < 2 ^ 16 ->
  pack_4H a b c d = Ok (le_H a ++ le_H b ++ le_H c ++ le_H d).
Proof.
  intros Ha Hb Hc Hd. unfold pack_4H.
  now rewrite !pack_H_ok by assumption.
Qed.

Lemma pack_4H_inv (a b c d : Z) (bs : list byte) :
  pack_4H a b c d = Ok bs ->
  (0 <= a < 2 ^ 16 /\ 0 <= b < 2 ^ 16 /\ 0 <= c < 2 ^ 16 /\ 0 <= d < 2 ^ 16) /\
  bs = le_H a ++ le_H b ++ le_H c ++ le_H d.
Proof.
  unfold pack_4H. intros H.
  destruct (pack_H a) as [a'|] eqn:Ea; [|discriminate].
  destruct (pack_H b) as [b'|] eqn:Eb; [|discriminate].
  destruct (pack_H c) as [c'|] eqn:Ec; [|discriminate].
  destruct (pack_H d) as [d'|] eqn:Ed; [|discriminate].
  apply pack_H_inv in Ea, Eb, Ec, Ed. simpl in H. injection H as Hbs. subst bs.
  destruct Ea as [Ha ->], Eb as [Hb ->], Ec as [Hc ->], Ed as [Hd ->]. tauto.
Qed.

Lemma len_tobytes_u16 (a : list Z) : len (tobytes_u16 a) = 2 * len a.
Proof.
  unfold len, tobytes_u16. induction a as [|c a IH]; [reflexivity|].
  simpl flat_map. simpl length. lia.
Qed.

Lemma len_clut_of (bpp : Z) (palette : list byte) :
  len (clut_of bpp palette) = if bpp =? 4 then 16 else 256.
Proof.
  unfold clut_of. rewrite len_map, len_range; [reflexivity|].
  destruct (bpp =? 4); lia.
Qed.

(** [image_to_tim] as its three fallible steps and the layout of the bytes. *)
Lemma image_to_tim_eq (image : PImage) (bpp : Z) :
  bpp = 4 \/ bpp = 8 ->
  image_to_tim image bpp =
    ('(w_words, pixel_bytes) <-
        encode_pixels bpp (p_width image) (frombuffer_u8 (p_data image)) ;;
     _ <- pack_I (12 + len pixel_bytes) ;;
     _ <- pack_4H 0 0 w_words (p_height image) ;;
     Ok (tim_layout bpp (clut_of bpp (p_palette image)) w_words (p_height image)
                    pixel_bytes)).
Proof.
  intros Hbpp. unfold image_to_tim.
  replace (negb ((bpp =? 4) || (bpp =? 8))) with false
    by (destruct Hbpp as [-> | ->]; reflexivity).
  cbv zeta. fold (clut_of bpp (p_palette image)).
  change (pack_I 16) with (Ok (le_I 16)).
  assert (Hflags : pack_I (Z.lor 8 (if bpp =? 4 then 0 else 1))
                   = Ok (le_I (Z.lor 8 (if bpp =? 4 then 0 else 1))))
    by (destruct Hbpp as [-> | ->]; reflexivity).
  rewrite Hflags.
  rewrite (pack_I_ok (12 + len (tobytes_u16 (clut_of bpp (p_palette image)))))
    by (rewrite len_tobytes_u16, len_clut_of; destruct (bpp =? 4); lia).
  rewrite (pack_4H_ok 0 0 (if bpp =? 4 then 16 else 256) 1)
    by (try destruct (bpp =? 4); lia).
  cbn [rbind].
  destruct (encode_pixels bpp (p_width image) (frombuffer_u8 (p_data image)))
    as [[w_words pixel_bytes]|e]; [|reflexivity].
  cbn [rbind].
  destruct (pack_I (12 + len pixel_bytes)) as [sz|e] eqn:Esz; [|reflexivity].
  apply pack_I_inv in Esz. destruct Esz as [_ ->]. cbn [rbind].
  destruct (pack_4H 0 0 w_words (p_height image)) as [fields|e] eqn:Ef;
    [|reflexivity].
  apply pack_4H_inv in Ef. destruct Ef as [_ ->]. cbn [rbind].
  unfold tim_layout. now rewrite <- !app_assoc.
Qed.

(** ** 4bpp packing *)

Lemma clip_range (x : Z) : 0 <= clip 0 15 x <= 15.
Proof. unfold clip. lia. Qed.

Lemma clip_id (x : Z) : 0 <= x <= 15 -> clip 0 15 x = x.
Proof. unfold clip. lia. Qed.

Lemma nth_clipped_range (l : list Z) (k : nat) :
  0 <= nth k (map (clip 0 15) l) 0 <= 15.
Proof.
  destruct (nth_in_or_default k (map (clip 0 15) l) 0) as [Hin | ->]; [|lia].
  apply in_map_iff in Hin. destruct Hin as (x & <- & _). apply clip_range.
Qed.

Lemma nth_map_clip (l : list Z) (k : nat) :
  nth k (map (clip 0 15) l) 0 = clip 0 15 (nth k l 0).
Proof. exact (map_nth (clip 0 15) l 0 k). Qed.

Lemma nibble_pair (lo hi : Z) :
  0 <= lo <= 15 -> 0 <= hi <= 15 ->
  Z.lor (Z.shiftl hi 4) lo = hi * 16 + lo.
Proof.
  intros Hlo Hhi. rewrite lor_shiftl_add by lia. reflexivity.
Qed.

Lemma bytearray_item_ok (v : Z) :
  0 <= v < 256 -> bytearray_item v = Ok (low_byte v).
Proof.
  intros Hv. unfold bytearray_item.
  destruct (z2b_some v Hv) as (b & -> & <-). now rewrite low_byte_b2z.
Qed.

(** The value [pack_4bpp] appends for the pair that starts at index [i]. *)
Lemma pack_4bpp_map (pixels : list Z) :
  let flat_pixels := map (clip 0 15) pixels in
  pack_4bpp pixels =
  Ok (map (fun i =>
             let first := nth (Z.to_nat i) flat_pixels 0 in
             let second := if i + 1 <? len flat_pixels
                           then nth (Z.to_nat (i + 1)) flat_pixels 0
                           else 0 in
             low_byte (Z.lor (Z.shiftl second 4) first))
          (range2 (len flat_pixels))).
Proof.
  cbv zeta. unfold pack_4bpp. apply mapM_map. intros i _.
  apply bytearray_item_ok.
  pose proof (nth_clipped_range pixels (Z.to_nat i)) as Hfirst.
  set (second := if i + 1 <? _ then _ else 0).
  assert (Hsecond : 0 <= second <= 15).
  { subst second. destruct (i + 1 <? _); [apply nth_clipped_range | lia]. }
  rewrite nibble_pair by assumption. lia.
Qed.

Lemma len_range2 (n : Z) : 0 <= n -> len (range2 n) = (n + 1) / 2.
Proof.
  intros Hn. unfold range2. rewrite len_map, len_range; [reflexivity|].
  apply Z.div_pos; lia.
Qed.

Lemma pack_4bpp_len (pixels : list Z) (pixel_bytes : list byte) :
  pack_4bpp pixels = Ok pixel_bytes -> len pixel_bytes = (len pixels + 1) / 2.
Proof.
  pose proof (pack_4bpp_map pixels) as Hmap. cbv zeta in Hmap.
  rewrite Hmap. intros H. injection H as <-.
  rewrite len_map, len_range2, len_map; [reflexivity|].
  rewrite len_map. apply len_nonneg.
Qed.

(** Byte [k] of the packed payload, on the clipped indices. *)
Lemma pack_4bpp_nth (pixels : list Z) (pixel_bytes : list byte) (k : Z) :
  pack_4bpp pixels = Ok pixel_bytes ->
  0 <= k < (len pixels + 1) / 2 ->
  let first := clip 0 15 (nth (Z.to_nat (2 * k)) pixels 0) in
  let second := if 2 * k + 1 <? len pixels
                then clip 0 15 (nth (Z.to_nat (2 * k + 1)) pixels 0)
                else 0 in
  b2z (nth (Z.to_nat k) pixel_bytes x00) = Z.lor (Z.shiftl second 4) first.
Proof.
  pose proof (pack_4bpp_map pixels) as Hmap. cbv zeta in Hmap.
  intros H Hk. rewrite Hmap in H.
  assert (Hpb : pixel_bytes = map (fun i =>
             low_byte (Z.lor (Z.shiftl
                (if i + 1 <? len (map (clip 0 15) pixels)
                 then nth (Z.to_nat (i + 1)) (map (clip 0 15) pixels) 0
                 else 0) 4) (nth (Z.to_nat i) (map (clip 0 15) pixels) 0)))
          (range2 (len (map (clip 0 15) pixels)))) by congruence.
  clear H Hmap. subst pixel_bytes. cbv zeta.
  unfold range2. rewrite map_map, len_map.
  rewrite nth_map_range by exact Hk.
  rewrite !nth_map_clip.
  set (first := clip 0 15 (nth (Z.to_nat (2 * k)) pixels 0)).
  set (second := if 2 * k + 1 <? len pixels then _ else 0).
  assert (Hfirst : 0 <= first <= 15) by apply clip_range.
  assert (Hsecond : 0 <= second <= 15).
  { subst second. destruct (2 * k + 1 <? _); [apply clip_range | lia]. }
  rewrite b2z_low_byte, nibble_pair by assumption.
  apply Z.mod_small. lia.
Qed.

Lemma le_bytes_le_H (v : Z) : 0 <= v < 2 ^ 16 -> le_bytes (le_H v) = v.
Proof.
  intros Hv. unfold le_H, le_bytes, fold_right. rewrite !b2z_low_byte.
  change (2 ^ 16) with 65536 in Hv.
  Z.to_euclidean_division_equations. lia.
Qed.

Lemma le_bytes_le_I (v : Z) : 0 <= v < 2 ^ 32 -> le_bytes (le_I v) = v.
Proof.
  intros Hv. unfold le_I, le_bytes, fold_right. rewrite !b2z_low_byte.
  change (2 ^ 32) with 4294967296 in Hv.
  Z.to_euclidean_division_equations. lia.
Qed.

Lemma image_to_tim_inv (image : PImage) (bpp : Z) (out : list byte) :
  image_to_tim image bpp = Ok out ->
  (bpp = 4 \/ bpp = 8) /\
  exists w_words pixel_bytes,
    encode_pixels bpp (p_width image) (frombuffer_u8 (p_data image))
      = Ok (w_words, pixel_bytes) /\
    out = tim_layout bpp (clut_of bpp (p_palette image)) w_words
                     (p_height image) pixel_bytes /\
    0 <= 12 + len pixel_bytes < 2 ^ 32 /\
    0 <= w_words < 2 ^ 16 /\
    0 <= p_height image < 2 ^ 16.
Proof.
  intros H.
  assert (Hbpp : bpp = 4 \/ bpp = 8).
  { unfold image_to_tim in H.
    destruct (Z.eqb_spec bpp 4); [now left|].
    destruct (Z.eqb_spec bpp 8); [now right|]. discriminate. }
  split; [exact Hbpp|].
  rewrite image_to_tim_eq in H by exact Hbpp.
  destruct (encode_pixels _ _ _) as [[w_words pixel_bytes]|e]; [|discriminate].
  cbn [rbind] in H. exists w_words, pixel_bytes.
  destruct (pack_I _) as [sz|e] eqn:Esz; [|discriminate].
  destruct (pack_4H _ _ _ _) as [fields|e] eqn:Ef; [|discriminate].
  cbn [rbind] in H. apply pack_I_inv in Esz. apply pack_4H_inv in Ef.
  split; [reflexivity|]. split; [congruence|]. tauto.
Qed.

Lemma image_to_tim_ok (image : PImage) (bpp w_words : Z) (pixel_bytes : list byte) :
  bpp = 4 \/ bpp = 8 ->
  encode_pixels bpp (p_width image) (frombuffer_u8 (p_data image))
    = Ok (w_words, pixel_bytes) ->
  12 + len pixel_bytes < 2 ^ 32 ->
  0 <= w_words < 2 ^ 16 ->
  0 <= p_height image < 2 ^ 16 ->
  image_to_tim image bpp =
  Ok (tim_layout bpp (clut_of bpp (p_palette image)) w_words (p_height image)
                 pixel_bytes).
Proof.
  intros Hbpp Henc Hsz Hw Hh. rewrite image_to_tim_eq by exact Hbpp.
  rewrite Henc. cbn [rbind].
  rewrite pack_I_ok by (pose proof (len_nonneg pixel_bytes); lia).
  rewrite pack_4H_ok by (assumption || lia). reflexivity.
Qed.





(** ** Indices above 15 *)

Lemma pack_4bpp_ext (p1 p2 : list Z) :
  map (clip 0 15) p1 = map (clip 0 15) p2 -> pack_4bpp p1 = pack_4bpp p2.
Proof. intros H. unfold pack_4bpp. cbv zeta. now rewrite H. Qed.

Lemma clip_indices_flat (data : list byte) :
  map (clip 0 15)
      (frombuffer_u8 (map (fun b => low_byte (clip 0 15 (b2z b))) data))
  = map (clip 0 15) (frombuffer_u8 data).
Proof.
  unfold frombuffer_u8. rewrite !map_map. apply map_ext. intros b.
  rewrite b2z_low_byte. pose proof (clip_range (b2z b)) as Hc.
  rewrite Z.mod_small by lia. apply clip_id. exact Hc.
Qed.

(** The claim of C6 fails: a 2x1 image whose first index is 16 is encoded,
    the index being written as 15. *)
Lemma out_of_range_index_is_clipped :
  let image := mkPImage 2 1 [] [x10; x00] in
  Exists (fun b => 15 < b2z b) (p_data image) /\
  exists out, image_to_tim image 4 = Ok out /\ skipn 64 out = [x0f].
Proof.
  split.
  - apply Exists_cons_hd. vm_compute. reflexivity.
  - eexists. split; [vm_compute; reflexivity | reflexivity].
Qed.

(** C6, as the code has it: a 4bpp encode never fails because of an index
    above 15; such an index is written as 15, the output being that of the
    image with clipped indices, and bytes are produced whenever the width in
    words, the height and the block size fit their header fields. *)
Theorem out_of_range_indices_clipped (image : PImage) :
  image_to_tim image 4 = image_to_tim (clip_indices image) 4 /\
  Forall (fun b => b2z b <= 15) (p_data (clip_indices image)) /\
  (0 <= (p_width image + 3) / 4 < 2 ^ 16 ->
   0 <= p_height image < 2 ^ 16 ->
   12 + (len (p_data image) + 1) / 2 < 2 ^ 32 ->
   exists out, image_to_tim image 4 = Ok out).
Proof.
  split; [|split].
  - rewrite !image_to_tim_eq by now left.
    unfold encode_pixels. cbn [Z.eqb Pos.eqb].
    unfold clip_indices. cbn [p_width p_height p_palette p_data].
    now rewrite (pack_4bpp_ext _ _ (clip_indices_flat (p_data image))).
  - unfold clip_indices. cbn [p_data]. apply Forall_forall.
    intros b Hb. apply in_map_iff in Hb. destruct Hb as (b0 & <- & _).
    rewrite b2z_low_byte. pose proof (clip_range (b2z b0)) as Hc.
    rewrite Z.mod_small by lia. lia.
  - intros Hw Hh Hsz.
    pose proof (pack_4bpp_map (frombuffer_u8 (p_data image))) as Hmap.
    cbv zeta in Hmap.
    eexists. apply (image_to_tim_ok image 4 ((p_width image + 3) / 4));
      [now left | | | exact Hw | exact Hh].
    + unfold encode_pixels. cbn [Z.eqb Pos.eqb]. rewrite Hmap. reflexivity.
    + rewrite len_map, len_range2, len_map by (rewrite len_map; apply len_nonneg).
      unfold frombuffer_u8. rewrite len_map. exact Hsz.
Qed.

Lemma out_of_range_indices_clipped_witness :
  exists out, image_to_tim (mkPImage 2 1 [] [x10; x00]) 4 = Ok out.
Proof.
  apply (proj2 (proj2 (out_of_range_indices_clipped (mkPImage 2 1 [] [x10; x00]))));
    vm_compute; intuition discriminate.
Defined.

(** ** The CLUT block *)

Lemma unpack_I_le_I (v : Z) : 0 <= v < 2 ^ 32 -> unpack_I (le_I v) = Ok v.
Proof.
  intros Hv. unfold unpack_I, le_I. f_equal. now apply le_bytes_le_I.
Qed.

Lemma unpack_4H_le_H (a b c d : Z) :
  0 <= a < 2 ^ 16 -> 0 <= b < 2 ^ 16 -> 0 <= c < 2 ^ 16 -> 0 <= d < 2 ^ 16 ->
  unpack_4H (le_H a ++ le_H b ++ le_H c ++ le_H d) = Ok (a, b, c, d).
Proof.
  intros Ha Hb Hc Hd. unfold unpack_4H, le_H. cbn [app].
  change [low_byte a; low_byte (a / 256)] with (le_H a).
  change [low_byte b; low_byte (b / 256)] with (le_H b).
  change [low_byte c; low_byte (c / 256)] with (le_H c).
  change [low_byte d; low_byte (d / 256)] with (le_H d).
  now rewrite !le_bytes_le_H by assumption.
Qed.

Lemma frombuffer_u16_tobytes (colors : list Z) :
  Forall (fun c => 0 <= c < 2 ^ 16) colors ->
  frombuffer_u16 (tobytes_u16 colors) = Ok colors.
Proof.
  induction 1 as [|c cs Hc _ IH]; [reflexivity|].
  unfold tobytes_u16. cbn [flat_map le_H app frombuffer_u16].
  fold (tobytes_u16 cs). rewrite IH. cbn [rbind].
  change [low_byte c; low_byte (c / 256)] with (le_H c).
  now rewrite le_bytes_le_H.
Qed.

Lemma read_clut_block (clut_x clut_y clut_w clut_h : Z) (colors : list Z)
    (rest : list byte) :
  0 <= clut_x < 2 ^ 16 -> 0 <= clut_y < 2 ^ 16 ->
  0 <= clut_w < 2 ^ 16 -> 0 <= clut_h < 2 ^ 16 ->
  Forall (fun c => 0 <= c < 2 ^ 16) colors ->
  12 + 2 * len colors < 2 ^ 32 ->
  read_clut (clut_block (12 + 2 * len colors) clut_x clut_y clut_w clut_h colors
             ++ rest)
  = Ok (match reshape_rows colors clut_w with
        | Ok clut => clut
        | Err _ => [colors]
        end, rest).
Proof.
  intros Hx Hy Hw Hh Hcolors Hsize. pose proof (len_nonneg colors) as Hlen.
  unfold clut_block, read_clut. rewrite <- !app_assoc.
  rewrite (bind_ok _ _ _ _ _ (f_read_app 4 (le_I _) _ eq_refl)).
  rewrite (bind_lift_ok _ _ _ _ (unpack_I_le_I (12 + 2 * len colors) ltac:(lia))).
  rewrite (bind_ok _ _ _ _ _
             (f_read_app 8 (le_H clut_x ++ le_H clut_y ++ le_H clut_w ++ le_H clut_h)
                         (tobytes_u16 colors ++ rest) eq_refl)).
  rewrite (bind_lift_ok _ _ _ _ (unpack_4H_le_H _ _ _ _ Hx Hy Hw Hh)).
  cbv beta iota.
  rewrite (bind_ok _ _ _ _ _
             (f_read_app (12 + 2 * len colors - 12) (tobytes_u16 colors) rest
                         ltac:(rewrite len_tobytes_u16; lia))).
  rewrite (bind_lift_ok _ _ _ _ (frombuffer_u16_tobytes _ Hcolors)).
  reflexivity.
Qed.

Lemma length_rows_of {A} (n w : nat) (l : list A) : length (rows_of n w l) = n.
Proof.
  revert l. induction n as [|n IH]; intros l; [reflexivity|].
  simpl. now rewrite IH.
Qed.

Lemma concat_rows_of {A} (n w : nat) (l : list A) :
  length l = (n * w)%nat -> concat (rows_of n w l) = l.
Proof.
  revert l. induction n as [|n IH]; intros l Hl.
  - destruct l; [reflexivity | discriminate].
  - simpl. rewrite IH by (rewrite length_skipn; lia). apply firstn_skipn.
Qed.

Lemma rows_of_width {A} (n w : nat) (l : list A) :
  length l = (n * w)%nat -> Forall (fun row => length row = w) (rows_of n w l).
Proof.
  revert l. induction n as [|n IH]; intros l Hl; [constructor|].
  simpl. constructor.
  - rewrite length_firstn. lia.
  - apply IH. rewrite length_skipn. lia.
Qed.

Lemma reshape_rows_ok (a : list Z) (w : Z) :
  0 < w -> len a mod w = 0 ->
  exists clut,
    reshape_rows a w = Ok clut /\
    len clut = len a / w /\
    Forall (fun row => len row = w) clut /\
    concat clut = a.
Proof.
  intros Hw Hmod. unfold reshape_rows.
  destruct (Z.eqb_spec w 0); [lia|].
  destruct (Z.eqb_spec (len a mod w) 0); [|contradiction].
  pose proof (len_nonneg a) as Hlen.
  assert (Hq : 0 <= len a / w) by (apply Z.div_pos; lia).
  assert (Hsplit : length a = (Z.to_nat (len a / w) * Z.to_nat w)%nat).
  { pose proof (Z.div_mod (len a) w ltac:(lia)) as Hdm.
    rewrite Hmod in Hdm. apply Nat2Z.inj.
    rewrite Nat2Z.inj_mul. rewrite (Z2Nat.id (len a / w)) by exact Hq.
    rewrite (Z2Nat.id w) by lia. fold (len a). lia. }
  eexists. split; [reflexivity|]. split; [|split].
  - unfold len at 1. rewrite length_rows_of. lia.
  - apply (Forall_impl _ (P := fun row => length row = Z.to_nat w));
      [|apply (rows_of_width _ _ a Hsplit)].
    intros row Hrow. unfold len. lia.
  - now apply concat_rows_of.
Qed.

Lemma reshape_rows_err (a : list Z) (w : Z) :
  w = 0 \/ len a mod w <> 0 -> reshape_rows a w = Err ValueError.
Proof.
  intros H. unfold reshape_rows.
  destruct (Z.eqb_spec w 0); [reflexivity|].
  destruct (Z.eqb_spec (len a mod w) 0); [|reflexivity].
  destruct H; contradiction.
Qed.

(** The claim of C4 fails: a block whose header announces one row of one
    color and whose payload holds two colors is parsed into two rows. *)
Lemma clut_row_count_ignores_height :
  unpack_4H (firstn 8 (skipn 4 tall_clut_block)) = Ok (0, 0, 1, 1) /\
  frombuffer_u16 (skipn 12 tall_clut_block) = Ok [0x001F; 0x03E0] /\
  len [0x001F; 0x03E0] mod 1 = 0 /\
  read_clut tall_clut_block = Ok ([[0x001F]; [0x03E0]], []) /\
  len [[0x001F]; [0x03E0]] <> 1.
Proof.
  repeat split; try reflexivity. vm_compute. discriminate.
Qed.

(** C4, as the code has it: the colors of a CLUT block are reshaped into
    rows of [clut_w] columns when [clut_w] is not zero and divides their
    number; the number of rows is then that number divided by [clut_w], which
    is [clut_h] exactly when the block holds [clut_w * clut_h] colors (the
    height field is not consulted).  Otherwise the table is the single row of
    all the colors, in order. *)
Theorem clut_reshape_by_width
    (clut_x clut_y clut_w clut_h : Z) (colors : list Z) (rest : list byte) :
  0 <= clut_x < 2 ^ 16 -> 0 <= clut_y < 2 ^ 16 ->
  0 <= clut_w < 2 ^ 16 -> 0 <= clut_h < 2 ^ 16 ->
  Forall (fun c => 0 <= c < 2 ^ 16) colors ->
  12 + 2 * len colors < 2 ^ 32 ->
  exists clut,
    read_clut (clut_block (12 + 2 * len colors) clut_x clut_y clut_w clut_h colors
               ++ rest) = Ok (clut, rest) /\
    (clut_w <> 0 -> len colors mod clut_w = 0 ->
       len clut = len colors / clut_w /\
       Forall (fun row => len row = clut_w) clut /\
       concat clut = colors /\
       (len clut = clut_h <-> len colors = clut_w * clut_h)) /\
    (clut_w = 0 \/ len colors mod clut_w <> 0 -> clut = [colors]).
Proof.
  intros Hx Hy Hw Hh Hcolors Hsize.
  eexists. split; [now apply read_clut_block|]. split.
  - intros Hw0 Hmod.
    destruct (reshape_rows_ok colors clut_w ltac:(lia) Hmod)
      as (clut & -> & Hrows & Hwidth & Hcat).
    repeat split; try assumption.
    + intros Hc. rewrite Hrows in Hc.
      pose proof (Z.div_mod (len colors) clut_w Hw0) as Hdm. nia.
    + intros Hc. rewrite Hrows, Hc. rewrite Z.mul_comm. apply Z.div_mul. exact Hw0.
  - intros Hbad. now rewrite reshape_rows_err.
Qed.

Lemma clut_reshape_by_width_witness :
  exists clut,
    read_clut (clut_block (12 + 2 * len [0x001F; 0x03E0; 0x7C00]) 0 0 2 1
                          [0x001F; 0x03E0; 0x7C00] ++ [x0d])
      = Ok (clut, [x0d]) /\
    (2 <> 0 -> len [0x001F; 0x03E0; 0x7C00] mod 2 = 0 ->
       len clut = len [0x001F; 0x03E0; 0x7C00] / 2 /\
       Forall (fun row => len row = 2) clut /\
       concat clut = [0x001F; 0x03E0; 0x7C00] /\
       (len clut = 1 <-> len [0x001F; 0x03E0; 0x7C00] = 2 * 1)) /\
    (2 = 0 \/ len [0x001F; 0x03E0; 0x7C00] mod 2 <> 0 ->
       clut = [[0x001F; 0x03E0; 0x7C00]]).
Proof.
  apply (clut_reshape_by_width 0 0 2 1 [0x001F; 0x03E0; 0x7C00] [x0d]);
    try (vm_compute; intuition discriminate).
  repeat constructor; vm_compute; discriminate.
Defined.

(** ** Decoding what the encoder wrote *)

Lemma read_header_layout (bpp : Z) (rest : list byte) :
  bpp = 4 \/ bpp = 8 ->
  read_header (le_I 0x10 ++ le_I (Z.lor 0x08 (if bpp =? 4 then 0 else 1)) ++ rest)
  = Ok ((bpp, true), rest).
Proof.
  intros Hbpp. unfold read_header.
  rewrite (bind_ok _ _ _ _ _ (f_read_app 4 (le_I 0x10) _ eq_refl)).
  rewrite (bind_lift_ok _ _ _ 0x10) by reflexivity.
  change (negb (0x10 =? 0x10)) with false. cbv iota.
  rewrite (bind_ok _ _ _ _ _ (f_read_app 4 (le_I _) rest eq_refl)).
  destruct Hbpp as [-> | ->].
  - rewrite (bind_lift_ok _ _ _ 8) by reflexivity. reflexivity.
  - rewrite (bind_lift_ok _ _ _ 9) by reflexivity. reflexivity.
Qed.

Lemma clut_entry_range (palette : list byte) (i : Z) :
  0 <= clut_entry palette i < 2 ^ 16.
Proof.
  unfold clut_entry. cbv zeta. destruct (_ >=? _).
  - vm_compute. split; [discriminate | reflexivity].
  - pose proof (quantize_range _ _ _
                  (b2z_range (nth (Z.to_nat (i * 3)) palette x00))
                  (b2z_range (nth (Z.to_nat (i * 3 + 1)) palette x00))
                  (b2z_range (nth (Z.to_nat (i * 3 + 2)) palette x00))).
    change (2 ^ 16) with 65536. lia.
Qed.

Lemma clut_of_range (bpp : Z) (palette : list byte) :
  Forall (fun c => 0 <= c < 2 ^ 16) (clut_of bpp palette).
Proof.
  unfold clut_of. apply Forall_forall. intros c Hc.
  apply in_map_iff in Hc. destruct Hc as (i & <- & _). apply clut_entry_range.
Qed.

Lemma reshape_single_row (a : list Z) (w : Z) :
  0 < w -> len a = w -> reshape_rows a w = Ok [a].
Proof.
  intros Hw Hlen. unfold reshape_rows.
  destruct (Z.eqb_spec w 0); [lia|].
  rewrite Hlen, Z.mod_same, Z.div_same by lia.
  change (0 =? 0) with true. cbv iota.
  change (Z.to_nat 1) with 1%nat. cbn [rows_of].
  rewrite firstn_all2 by (unfold len in Hlen; lia). reflexivity.
Qed.

(** A file written by [image_to_tim] is read back as its single CLUT row
    (when the requested index selects it) and its payload. *)
Lemma read_tim_layout (bpp : Z) (palette : list byte) (w_words h : Z)
    (pixel_bytes : list byte) (p : Z) :
  bpp = 4 \/ bpp = 8 ->
  0 <= 12 + len pixel_bytes < 2 ^ 32 ->
  0 <= w_words < 2 ^ 16 ->
  0 <= h < 2 ^ 16 ->
  read_tim (tim_layout bpp (clut_of bpp palette) w_words h pixel_bytes) p =
  (selected_palette <- select_palette [clut_of bpp palette] p ;;
   decode_pixels bpp (Some selected_palette)
                 (if bpp =? 4 then w_words * 4 else w_words * 2) h pixel_bytes).
Proof.
  intros Hbpp Hsz Hw Hh. unfold read_tim, run, tim_layout.
  rewrite (bind_ok _ _ _ _ _ (read_header_layout bpp _ Hbpp)).
  cbv beta iota.
  assert (Hclen : 0 < len (clut_of bpp palette) < 2 ^ 16)
    by (rewrite len_clut_of; destruct (bpp =? 4); lia).
  set (clut := clut_of bpp palette) in *.
  set (img_block := le_I (12 + len pixel_bytes) ++
                    (le_H 0 ++ le_H 0 ++ le_H w_words ++ le_H h) ++ pixel_bytes).
  assert (Hread : read_clut
            (le_I (12 + len (tobytes_u16 clut)) ++
             (le_H 0 ++ le_H 0 ++ le_H (if bpp =? 4 then 16 else 256) ++ le_H 1) ++
             tobytes_u16 clut ++ img_block) = Ok ([clut], img_block)).
  { pose proof (read_clut_block 0 0 (len clut) 1 clut img_block) as Hrc.
    unfold clut_block in Hrc. rewrite <- !app_assoc in Hrc.
    rewrite len_tobytes_u16.
    replace (if bpp =? 4 then 16 else 256) with (len clut)
      by (subst clut; apply len_clut_of).
    rewrite <- !app_assoc.
    rewrite Hrc by (try apply clut_of_range; lia).
    now rewrite reshape_single_row by lia. }
  rewrite bind_assoc. rewrite (bind_ok _ _ _ _ _ Hread).
  rewrite bind_assoc. rewrite bind_lift.
  destruct (select_palette [clut] p) as [sel|e]; [|reflexivity].
  cbn [rbind]. rewrite bind_ret. subst img_block.
  rewrite (bind_ok _ _ _ _ _ (f_read_app 4 (le_I (12 + len pixel_bytes)) _ eq_refl)).
  rewrite (bind_lift_ok _ _ _ _ (unpack_I_le_I (12 + len pixel_bytes) Hsz)).
  rewrite (bind_ok _ _ _ _ _
             (f_read_app 8 (le_H 0 ++ le_H 0 ++ le_H w_words ++ le_H h)
                         pixel_bytes eq_refl)).
  rewrite (bind_lift_ok _ _ _ _
             (unpack_4H_le_H 0 0 w_words h ltac:(lia) ltac:(lia) Hw Hh)).
  cbv beta iota. unfold bind, f_read_all, lift.
  destruct Hbpp as [-> | ->]; cbn [Z.eqb Pos.eqb];
    now destruct (decode_pixels _ _ _ _ _).
Qed.

Lemma decode_pixels_size (bpp : Z) (sel : option (list Z)) (w h : Z)
    (raw_data : list byte) (img : Image) :
  decode_pixels bpp sel w h raw_data = Ok img ->
  im_width img = w /\ im_height img = h.
Proof.
  unfold decode_pixels. intros H.
  destruct (bpp =? 4).
  { destruct (unpack_4bpp _ _) as [pixels|e]; [|discriminate]. cbn [rbind] in H.
    destruct (match sel with None => _ | Some palette => _ end) as [cv|e];
      [|discriminate].
    cbn [rbind] in H. injection H as <-. now split. }
  destruct (bpp =? 8).
  { destruct (negb _); [discriminate|].
    destruct (gather _ _) as [cv|e]; [|discriminate].
    cbn [rbind] in H. injection H as <-. now split. }
  destruct (bpp =? 16).
  { destruct (frombuffer_u16 _) as [a|e]; [|discriminate]. cbn [rbind] in H.
    destruct (negb _); [discriminate|]. injection H as <-. now split. }
  destruct (bpp =? 24); [|discriminate].
  destruct (_ <? _); [discriminate|]. injection H as <-. now split.
Qed.

Lemma nibble_at_range (raw_data : list byte) (i : Z) :
  0 <= nibble_at raw_data i < 16.
Proof.
  unfold nibble_at. cbv zeta. destruct (Z.even i); rewrite land_15;
    apply Z.mod_pos_bound; lia.
Qed.

Lemma gather_ok (palette pixels : list Z) :
  Forall (fun v => 0 <= v < len palette) pixels ->
  gather palette pixels = Ok (map (fun v => nth (Z.to_nat v) palette 0) pixels).
Proof.
  intros Hall. unfold gather. apply mapM_map. intros v Hv.
  rewrite Forall_forall in Hall. now apply index_in_bounds, Hall.
Qed.

Lemma decode_4bpp_ok (palette : list Z) (w h : Z) (raw_data : list byte) :
  len palette = 16 -> 0 <= w * h -> (w * h + 1) / 2 <= len raw_data ->
  exists img, decode_pixels 4 (Some palette) w h raw_data = Ok img.
Proof.
  intros Hpal Hn Hraw. unfold decode_pixels. cbn [Z.eqb Pos.eqb].
  rewrite unpack_4bpp_map by assumption. cbn [rbind].
  rewrite gather_ok.
  - cbn [rbind]. eexists. reflexivity.
  - apply Forall_forall. intros v Hv. apply in_map_iff in Hv.
    destruct Hv as (i & <- & _). rewrite Hpal. apply nibble_at_range.
Qed.

Lemma decode_8bpp_ok (palette : list Z) (w h : Z) (raw_data : list byte) :
  len palette = 256 -> 0 <= w * h <= len raw_data ->
  exists img, decode_pixels 8 (Some palette) w h raw_data = Ok img.
Proof.
  intros Hpal Hraw. unfold decode_pixels. cbn [Z.eqb Pos.eqb].
  unfold frombuffer_u8 at 1. rewrite len_map, len_take by lia.
  rewrite (Z.mul_comm h w), Z.eqb_refl. cbn [negb].
  rewrite gather_ok.
  - cbn [rbind]. eexists. reflexivity.
  - apply Forall_forall. intros v Hv. apply in_map_iff in Hv.
    destruct Hv as (b & <- & _). rewrite Hpal. apply b2z_range.
Qed.

Lemma tobytes_frombuffer_u8 (data : list byte) :
  tobytes_u8 (frombuffer_u8 data) = data.
Proof.
  unfold tobytes_u8, frombuffer_u8. rewrite map_map.
  rewrite <- (map_id data) at 2. apply map_ext, low_byte_b2z.
Qed.

Lemma select_single_row (clut : list Z) (p : Z) :
  0 <= p -> select_palette [clut] p = Ok clut.
Proof.
  intros Hp. destruct (Z.eq_dec p 0) as [-> | Hne]; [reflexivity|].
  rewrite select_palette_first by (change (len [clut]) with 1; lia).
  reflexivity.
Qed.

(** The claim of C1 fails when the width is not a whole number of words: a
    3x1 image written at 4bpp is read back 4 pixels wide, and a 1x1 image
    written at 8bpp is not read back at all. *)
Lemma partial_word_width_not_recovered :
  (exists out img,
     image_to_tim (mkPImage 3 1 [] [x00; x00; x00]) 4 = Ok out /\
     read_tim out 0 = Ok img /\ im_width img = 4 /\ im_width img <> 3) /\
  (exists out,
     image_to_tim (mkPImage 1 1 [] [x00]) 8 = Ok out /\
     read_tim out 0 = Err ValueError).
Proof.
  split.
  - eexists. eexists. split; [vm_compute; reflexivity|].
    split; [vm_compute; reflexivity|]. split; [reflexivity | discriminate].
  - eexists. split; vm_compute; reflexivity.
Qed.

(** C1, as the code has it: for an image of [w] by [h] indices ([w] and [h]
    positive) that the encoder accepts, the stored width in words is
    [ceil(w/4)] at 4bpp and [ceil(w/2)] at 8bpp; whenever the written file
    decodes, the decoded width is that number of words times 4 (resp. 2); and
    when [w] is a multiple of 4 (resp. 2) the file does decode, for every
    requested palette [p >= 0], to an image of width [w] and height [h]. *)
Theorem encoded_width_roundtrip (image : PImage) (bpp : Z) (out : list byte) :
  0 < p_width image -> 0 < p_height image ->
  len (p_data image) = p_width image * p_height image ->
  image_to_tim image bpp = Ok out ->
  let k := if bpp =? 4 then 4 else 2 in
  let w_words := (p_width image + (k - 1)) / k in
  (bpp = 4 \/ bpp = 8) /\
  k * (w_words - 1) < p_width image <= k * w_words /\
  (exists pixel_bytes,
     out = tim_layout bpp (clut_of bpp (p_palette image)) w_words
                      (p_height image) pixel_bytes) /\
  (forall p img, read_tim out p = Ok img -> im_width img = k * w_words) /\
  (p_width image mod k = 0 ->
   forall p, 0 <= p ->
     exists img, read_tim out p = Ok img /\
                 im_width img = p_width image /\
                 im_height img = p_height image).
Proof.
  intros Hw0 Hh0 Hdata Hout. cbv zeta.
  apply image_to_tim_inv in Hout.
  destruct Hout as (Hbpp & w_words & pixel_bytes & Henc & -> & Hsz & Hww & Hh).
  split; [exact Hbpp|].
  assert (Hk : (if bpp =? 4 then 4 else 2) = 4 /\ bpp = 4 \/
               (if bpp =? 4 then 4 else 2) = 2 /\ bpp = 8)
    by (destruct Hbpp as [-> | ->]; [left | right]; now split).
  set (k := if bpp =? 4 then 4 else 2) in *.
  assert (Hwords : w_words = (p_width image + (k - 1)) / k).
  { unfold encode_pixels in Henc. destruct Hk as [[-> ->] | [-> ->]];
      cbn [Z.eqb Pos.eqb] in Henc.
    - destruct (pack_4bpp _); [|discriminate]. cbn [rbind] in Henc.
      injection Henc as <- _. reflexivity.
    - injection Henc as <- _. reflexivity. }
  assert (Hlenpb : len pixel_bytes =
                   if bpp =? 4 then (len (p_data image) + 1) / 2
                   else len (p_data image)).
  { unfold encode_pixels in Henc. destruct Hk as [[_ ->] | [_ ->]];
      cbn [Z.eqb Pos.eqb] in Henc |- *.
    - destruct (pack_4bpp _) as [pb|] eqn:Epack; [|discriminate].
      cbn [rbind] in Henc. injection Henc as _ <-.
      apply pack_4bpp_len in Epack. unfold frombuffer_u8 in Epack.
      now rewrite len_map in Epack.
    - injection Henc as _ <-. now rewrite tobytes_frombuffer_u8. }
  rewrite <- Hwords.
  assert (Hkw : (if bpp =? 4 then w_words * 4 else w_words * 2) = k * w_words)
    by (destruct Hk as [[-> ->] | [-> ->]]; cbn [Z.eqb Pos.eqb]; lia).
  split; [|split; [|split]].
  - assert (0 < k) by (destruct Hk as [[-> _] | [-> _]]; lia).
    rewrite Hwords. Z.to_euclidean_division_equations. nia.
  - now exists pixel_bytes.
  - intros p img Hread.
    rewrite read_tim_layout in Hread by assumption.
    destruct (select_palette _ p) as [sel|e]; [|discriminate].
    cbn [rbind] in Hread. apply decode_pixels_size in Hread.
    rewrite Hkw in Hread. tauto.
  - intros Hmod p Hp.
    assert (Hexact : k * w_words = p_width image).
    { assert (0 < k) by (destruct Hk as [[-> _] | [-> _]]; lia).
      rewrite Hwords. Z.to_euclidean_division_equations. nia. }
    assert (Hnn : 0 <= p_width image * p_height image) by nia.
    assert (Hdec : exists img,
               decode_pixels bpp (Some (clut_of bpp (p_palette image)))
                             (p_width image) (p_height image) pixel_bytes = Ok img).
    { destruct Hk as [[_ ->] | [_ ->]]; cbn [Z.eqb Pos.eqb] in Hlenpb.
      - apply decode_4bpp_ok; [apply len_clut_of | exact Hnn |].
        rewrite Hlenpb, Hdata. lia.
      - apply decode_8bpp_ok; [apply len_clut_of |].
        rewrite Hlenpb, Hdata. lia. }
    destruct Hdec as (img & Hdec). exists img.
    rewrite read_tim_layout by assumption.
    rewrite select_single_row by exact Hp. cbn [rbind].
    rewrite Hkw, Hexact. split; [exact Hdec|].
    now apply decode_pixels_size in Hdec.
Qed.

Lemma encoded_width_roundtrip_witness :
  let image := mkPImage 4 1 [xff; x80; x08] [x01; x02; x03; x04] in
  let out := tim_layout 4 (clut_of 4 [xff; x80; x08]) 1 1 [x21; x43] in
  let k := 4 in
  let w_words := (4 + (k - 1)) / k in
  (4 = 4 \/ 4 = 8) /\
  k * (w_words - 1) < 4 <= k * w_words /\
  (exists pixel_bytes,
     out = tim_layout 4 (clut_of 4 [xff; x80; x08]) w_words 1 pixel_bytes) /\
  (forall p img, read_tim out p = Ok img -> im_width img = k * w_words) /\
  (4 mod k = 0 ->
   forall p, 0 <= p ->
     exists img, read_tim out p = Ok img /\ im_width img = 4 /\ im_height img = 1).
Proof.
  apply (encoded_width_roundtrip
           (mkPImage 4 1 [xff; x80; x08] [x01; x02; x03; x04]) 4
           (tim_layout 4 (clut_of 4 [xff; x80; x08]) 1 1 [x21; x43]));
    vm_compute; intuition discriminate.
Defined.

(** ** What the decoder shows *)

(** A 4bpp payload decoded through a palette of at least 16 colors: pixel [i]
    is the expansion of the palette entry its nibble selects. *)
Lemma decode_4bpp_with_palette (palette : list Z) (w h : Z) (raw_data : list byte) :
  16 <= len palette -> 0 <= w * h -> (w * h + 1) / 2 <= len raw_data ->
  decode_pixels 4 (Some palette) w h raw_data =
  Ok (rgb_image (map (fun i => nth (Z.to_nat (nibble_at raw_data i)) palette 0)
                     (range (w * h))) w h).
Proof.
  intros Hpal Hn Hraw. unfold decode_pixels. cbn [Z.eqb Pos.eqb].
  rewrite unpack_4bpp_map by assumption. cbn [rbind].
  rewrite gather_ok.
  - cbn [rbind]. now rewrite map_map.
  - apply Forall_forall. intros v Hv. apply in_map_iff in Hv.
    destruct Hv as (i & <- & _). pose proof (nibble_at_range raw_data i). lia.
Qed.

Lemma len_synth_palette (n : Z) : 0 <= n -> len (synth_palette n) = n.
Proof. intros Hn. unfold synth_palette. now rewrite len_map, len_range. Qed.

(** Without a CLUT, an 8bpp pixel of value [v] and a 4bpp pixel of nibble [v]
    show the gray level [v mod 32]. *)
Lemma decode_8bpp_without_clut (w h : Z) (raw_data : list byte) :
  0 <= w * h <= len raw_data ->
  decode_pixels 8 None w h raw_data =
  Ok (rgb_image (map (fun b => (b2z b mod 32) * 1057) (take (w * h) raw_data)) w h).
Proof.
  intros Hraw. unfold decode_pixels. cbn [Z.eqb Pos.eqb].
  unfold frombuffer_u8 at 1. rewrite len_map, len_take by lia.
  rewrite (Z.mul_comm h w), Z.eqb_refl. cbn [negb].
  rewrite gather_ok.
  - cbn [rbind]. unfold frombuffer_u8. rewrite map_map. do 2 f_equal.
    apply map_ext. intros b. apply synth_entry. apply b2z_range.
  - apply Forall_forall. intros v Hv. apply in_map_iff in Hv.
    destruct Hv as (b & <- & _). rewrite len_synth_palette by lia.
    apply b2z_range.
Qed.

Lemma decode_4bpp_without_clut (w h : Z) (raw_data : list byte) :
  0 <= w * h -> (w * h + 1) / 2 <= len raw_data ->
  decode_pixels 4 None w h raw_data =
  Ok (rgb_image (map (fun i => (nibble_at raw_data i mod 32) * 1057)
                     (range (w * h))) w h).
Proof.
  intros Hn Hraw. unfold decode_pixels. cbn [Z.eqb Pos.eqb].
  rewrite unpack_4bpp_map by assumption. cbn [rbind].
  rewrite gather_ok.
  - cbn [rbind]. rewrite map_map. do 2 f_equal.
    apply map_ext. intros i. apply synth_entry.
    pose proof (nibble_at_range raw_data i). lia.
  - apply Forall_forall. intros v Hv. apply in_map_iff in Hv.
    destruct Hv as (i & <- & _). rewrite len_synth_palette by lia.
    apply nibble_at_range.
Qed.

(** ** The legacy CLUT parser *)

(** Where v2 falls back to a single row, v1 raises; where the reshape
    succeeds the two agree. *)
Lemma v1_read_clut_no_fallback
    (clut_x clut_y clut_w clut_h : Z) (colors : list Z) (rest : list byte) :
  0 <= clut_x < 2 ^ 16 -> 0 <= clut_y < 2 ^ 16 ->
  0 <= clut_w < 2 ^ 16 -> 0 <= clut_h < 2 ^ 16 ->
  Forall (fun c => 0 <= c < 2 ^ 16) colors ->
  12 + 2 * len colors < 2 ^ 32 ->
  V1.read_clut (clut_block (12 + 2 * len colors) clut_x clut_y clut_w clut_h colors
                ++ rest)
  = match reshape_rows colors clut_w with
    | Ok clut => Ok (clut, rest)
    | Err e => Err e
    end.
Proof.
  intros Hx Hy Hw Hh Hcolors Hsize. pose proof (len_nonneg colors) as Hlen.
  unfold clut_block, V1.read_clut. rewrite <- !app_assoc.
  rewrite (bind_ok _ _ _ _ _ (f_read_app 4 (le_I _) _ eq_refl)).
  rewrite (bind_lift_ok _ _ _ _ (unpack_I_le_I (12 + 2 * len colors) ltac:(lia))).
  rewrite (bind_ok _ _ _ _ _
             (f_read_app 8 (le_H clut_x ++ le_H clut_y ++ le_H clut_w ++ le_H clut_h)
                         (tobytes_u16 colors ++ rest) eq_refl)).
  rewrite (bind_lift_ok _ _ _ _ (unpack_4H_le_H _ _ _ _ Hx Hy Hw Hh)).
  cbv beta iota.
  rewrite (bind_ok _ _ _ _ _
             (f_read_app (12 + 2 * len colors - 12) (tobytes_u16 colors) rest
                         ltac:(rewrite len_tobytes_u16; lia))).
  rewrite (bind_lift_ok _ _ _ _ (frombuffer_u16_tobytes _ Hcolors)).
  reflexivity.
Qed.

Example v1_read_clut_raises :
  V1.read_clut (clut_block 18 0 0 2 1 [0x001F; 0x03E0; 0x7C00]) = Err ValueError.
Proof. reflexivity. Qed.

(** ** A solid 8bpp image, written and read back *)

(** Two pixels of index 5 with palette entry 5 = (0x80, 0x80, 0x80): the CLUT
    holds 0x4210 at entry 5 and both pixels come back as (128, 128, 128). *)
Example solid_8bpp_roundtrip :
  let palette := repeat x00 15 ++ [x80; x80; x80] in
  nth 5 (clut_of 8 palette) 0 = 0x4210 /\
  (out <- image_to_tim (mkPImage 2 1 palette [x05; x05]) 8 ;; read_tim out 0)
  = Ok (mkImage 2 1 [(128, 128, 128); (128, 128, 128)]).
Proof. split; vm_compute; reflexivity. Qed.

(** * Further properties of the codec *)

(** ** Rejected and truncated headers *)

Lemma le_bytes_nonneg (bs : list byte) : 0 <= le_bytes bs.
Proof.
  induction bs as [|b bs IH]; [cbn; lia|].
  cbn [le_bytes fold_right]. fold (le_bytes bs). pose proof (b2z_range b). lia.
Qed.

Lemma read_header_flags (flags : Z) (rest : list byte) :
  0 <= flags < 2 ^ 32 ->
  read_header (le_I 0x10 ++ le_I flags ++ rest) =
  match bpp_of_mode (Z.land flags 0x07) with
  | None => Err UnsupportedBppMode
  | Some bpp => Ok ((bpp, negb (Z.land flags 0x08 =? 0)), rest)
  end.
Proof.
  intros Hflags. unfold read_header.
  rewrite (bind_ok _ _ _ _ _ (f_read_app 4 (le_I 0x10) _ eq_refl)).
  rewrite (bind_lift_ok _ _ _ 0x10) by reflexivity.
  change (negb (0x10 =? 0x10)) with false. cbv iota.
  rewrite (bind_ok _ _ _ _ _ (f_read_app 4 (le_I flags) rest eq_refl)).
  rewrite (bind_lift_ok _ _ _ _ (unpack_I_le_I flags Hflags)).
  now destruct (bpp_of_mode (Z.land flags 7)).
Qed.

(** After a good magic, a mode field of 4..7 is refused with the
    unsupported-mode error, whatever the CLUT flag and the rest of the file. *)
Theorem unsupported_bpp_mode_rejected (flags : Z) (rest : list byte) (p : Z) :
  0 <= flags < 2 ^ 32 ->
  4 <= Z.land flags 0x07 ->
  read_tim (le_I 0x10 ++ le_I flags ++ rest) p = Err UnsupportedBppMode.
Proof.
  intros Hflags Hmode. unfold read_tim, run.
  rewrite (bind_err read_header _ _ UnsupportedBppMode); [reflexivity|].
  rewrite read_header_flags by exact Hflags.
  unfold bpp_of_mode.
  destruct (Z.eqb_spec (Z.land flags 7) 0); [lia|].
  destruct (Z.eqb_spec (Z.land flags 7) 1); [lia|].
  destruct (Z.eqb_spec (Z.land flags 7) 2); [lia|].
  destruct (Z.eqb_spec (Z.land flags 7) 3); [lia|].
  reflexivity.
Qed.

Lemma unsupported_bpp_mode_rejected_witness :
  read_tim (le_I 0x10 ++ le_I 0x0D ++ [x00; x01]) 0 = Err UnsupportedBppMode.
Proof.
  apply (unsupported_bpp_mode_rejected 0x0D [x00; x01] 0);
    vm_compute; intuition discriminate.
Defined.

(** A file that ends inside the magic or inside the flags is refused with
    [struct.error], not with the bad-magic error. *)
Theorem truncated_header_struct_error (file : list byte) (p : Z) :
  len file < 4 \/ (exists tail, file = le_I 0x10 ++ tail /\ len tail < 4) ->
  read_tim file p = Err StructError.
Proof.
  intros [Hshort | (tail & -> & Hshort)]; unfold len in Hshort.
  - destruct file as [|a [|b [|c [|d file]]]]; try reflexivity.
    cbn [length] in Hshort. lia.
  - destruct tail as [|a [|b [|c [|d tail]]]]; try reflexivity.
    cbn [length] in Hshort. lia.
Qed.

Lemma truncated_header_struct_error_witness :
  read_tim [x10; x00; x00] 0 = Err StructError.
Proof.
  apply (truncated_header_struct_error [x10; x00; x00] 0).
  left. vm_compute. reflexivity.
Defined.

(** ** Files without CLUT *)

(** A file without CLUT is its header, its image block header and its
    payload; only the mode, the width in words and the height reach the
    pixel decoder. *)
Lemma read_tim_without_clut_eq (flags bpp size x y w_words h : Z)
    (raw_data : list byte) (p : Z) :
  0 <= flags < 2 ^ 32 ->
  Z.land flags 0x08 = 0 ->
  bpp_of_mode (Z.land flags 0x07) = Some bpp ->
  0 <= size < 2 ^ 32 ->
  0 <= x < 2 ^ 16 -> 0 <= y < 2 ^ 16 ->
  0 <= w_words < 2 ^ 16 -> 0 <= h < 2 ^ 16 ->
  read_tim (le_I 0x10 ++ le_I flags ++ le_I size ++
            (le_H x ++ le_H y ++ le_H w_words ++ le_H h) ++ raw_data) p =
  decode_pixels bpp None
                (if bpp =? 4 then w_words * 4
                 else if bpp =? 8 then w_words * 2 else w_words)
                h raw_data.
Proof.
  intros Hflags Hclut Hmode Hsize Hx Hy Hw Hh. unfold read_tim, run.
  assert (Hhdr : read_header
            (le_I 0x10 ++ le_I flags ++ le_I size ++
             (le_H x ++ le_H y ++ le_H w_words ++ le_H h) ++ raw_data)
          = Ok ((bpp, false),
                le_I size ++ (le_H x ++ le_H y ++ le_H w_words ++ le_H h) ++ raw_data)).
  { rewrite read_header_flags by exact Hflags. rewrite Hmode, Hclut. reflexivity. }
  rewrite (bind_ok _ _ _ _ _ Hhdr). cbv beta iota. rewrite bind_ret.
  rewrite (bind_ok _ _ _ _ _ (f_read_app 4 (le_I size) _ eq_refl)).
  rewrite (bind_lift_ok _ _ _ _ (unpack_I_le_I size Hsize)).
  rewrite (bind_ok _ _ _ _ _
             (f_read_app 8 (le_H x ++ le_H y ++ le_H w_words ++ le_H h)
                         raw_data eq_refl)).
  rewrite (bind_lift_ok _ _ _ _ (unpack_4H_le_H x y w_words h Hx Hy Hw Hh)).
  cbv beta iota. unfold bind, f_read_all, lift.
  now destruct (decode_pixels _ _ _ _ _).
Qed.

(** The decoder never looks at the image block's size field, at its origin
    or, when the file has no CLUT, at the requested palette index: two
    CLUT-less files that differ only there decode alike. *)
Theorem block_size_and_origin_ignored
    (flags bpp size size' x x' y y' w_words h : Z) (raw_data : list byte)
    (p p' : Z) :
  0 <= flags < 2 ^ 32 ->
  Z.land flags 0x08 = 0 ->
  bpp_of_mode (Z.land flags 0x07) = Some bpp ->
  0 <= size < 2 ^ 32 -> 0 <= size' < 2 ^ 32 ->
  0 <= x < 2 ^ 16 -> 0 <= y < 2 ^ 16 ->
  0 <= x' < 2 ^ 16 -> 0 <= y' < 2 ^ 16 ->
  0 <= w_words < 2 ^ 16 -> 0 <= h < 2 ^ 16 ->
  read_tim (le_I 0x10 ++ le_I flags ++ le_I size ++
            (le_H x ++ le_H y ++ le_H w_words ++ le_H h) ++ raw_data) p =
  read_tim (le_I 0x10 ++ le_I flags ++ le_I size' ++
            (le_H x' ++ le_H y' ++ le_H w_words ++ le_H h) ++ raw_data) p'.
Proof.
  intros. now rewrite !(read_tim_without_clut_eq flags bpp) by assumption.
Qed.

Lemma block_size_and_origin_ignored_witness :
  read_tim (le_I 0x10 ++ le_I 3 ++ le_I 18 ++
            (le_H 0 ++ le_H 0 ++ le_H 2 ++ le_H 1) ++ [x0a; x14; x1e; x28; x32; x3c]) 0 =
  read_tim (le_I 0x10 ++ le_I 3 ++ le_I 0 ++
            (le_H 320 ++ le_H 240 ++ le_H 2 ++ le_H 1) ++ [x0a; x14; x1e; x28; x32; x3c]) 5.
Proof.
  apply (block_size_and_origin_ignored 3 24 18 0 0 320 0 240 2 1);
    vm_compute; intuition discriminate.
Defined.

(** Without a CLUT the requested palette index plays no part, for any file. *)
Theorem palette_index_unused_without_clut (file : list byte) (p q : Z) :
  file_clut file = Ok None -> read_tim file p = read_tim file q.
Proof.
  unfold file_clut, read_tim, run, bind. intros Hclut.
  destruct (read_header file) as [[[bpp has_clut] s]|e]; [|discriminate].
  destruct has_clut; [|reflexivity].
  destruct (read_clut s) as [[c s']|e]; discriminate.
Qed.

Lemma palette_index_unused_without_clut_witness :
  read_tim (le_I 0x10 ++ le_I 1 ++ le_I 14 ++
            (le_H 0 ++ le_H 0 ++ le_H 1 ++ le_H 1) ++ [x21; x05]) 3 =
  read_tim (le_I 0x10 ++ le_I 1 ++ le_I 14 ++
            (le_H 0 ++ le_H 0 ++ le_H 1 ++ le_H 1) ++ [x21; x05]) (-7).
Proof.
  apply palette_index_unused_without_clut. vm_compute. reflexivity.
Defined.

(** ** Palette requests that fail *)

Lemma select_palette_below (clut : list (list Z)) (p : Z) :
  p < - len clut \/ len clut = 0 -> select_palette clut p = Err IndexError.
Proof.
  intros Hp. pose proof (len_nonneg clut) as Hlen. unfold select_palette.
  destruct (Z.geb_spec p (len clut)).
  - assert (Hz : len clut = 0) by lia. unfold index. rewrite Hz. reflexivity.
  - unfold index.
    destruct (Z.leb_spec 0 p); destruct (Z.ltb_spec p (len clut));
      destruct (Z.leb_spec (- len clut) p); destruct (Z.ltb_spec p 0);
      try reflexivity; lia.
Qed.

(** A request below [-h] on a CLUT of [h] rows, and any request on a CLUT of
    no rows at all, makes the whole decode fail with IndexError. *)
Theorem palette_index_below_range_fails
    (file : list byte) (clut : list (list Z)) (p : Z) :
  file_clut file = Ok (Some clut) ->
  p < - len clut \/ len clut = 0 ->
  read_tim file p = Err IndexError.
Proof.
  unfold file_clut, read_tim, run, bind. intros Hclut Hp.
  destruct (read_header file) as [[[bpp has_clut] s]|e]; [|discriminate].
  destruct has_clut; [|discriminate].
  destruct (read_clut s) as [[c s']|e]; [|discriminate].
  unfold ret in Hclut. injection Hclut as ->.
  now rewrite (select_palette_below clut p Hp).
Qed.

Lemma palette_index_below_range_fails_witness :
  read_tim two_row_tim (-3) = Err IndexError.
Proof.
  apply (palette_index_below_range_fails two_row_tim [[0; 0x7FFF]; [0x1F; 0x3E0]]).
  - reflexivity.
  - left. vm_compute. reflexivity.
Defined.

(** ** Direct-color payloads *)

Lemma nth_rgb_triples (data : list byte) (i : nat) (d : Z * Z * Z) :
  (3 * i + 2 < length data)%nat ->
  nth i (rgb_triples data) d =
  (b2z (nth (3 * i) data x00), b2z (nth (3 * i + 1) data x00),
   b2z (nth (3 * i + 2) data x00)).
Proof.
  revert data. induction i as [|i IH]; intros data Hlen.
  - destruct data as [|r [|g [|b data]]]; cbn [length] in Hlen; try lia.
    reflexivity.
  - destruct data as [|r [|g [|b data]]]; cbn [length] in Hlen; try lia.
    cbn [rgb_triples nth]. rewrite IH by lia.
    replace (3 * S i)%nat with (S (S (S (3 * i)))) by lia.
    reflexivity.
Qed.

Lemma length_rgb_triples (data : list byte) (n : nat) :
  length data = (3 * n)%nat -> length (rgb_triples data) = n.
Proof.
  revert data. induction n as [|n IH]; intros data Hlen.
  - destruct data; [reflexivity | discriminate].
  - destruct data as [|r [|g [|b data]]]; cbn [length] in Hlen; try lia.
    cbn [rgb_triples length]. f_equal. apply IH. lia.
Qed.

(** [np.frombuffer(..., uint16)] on an even number of bytes: one word per
    pair, low byte first. *)
Lemma frombuffer_u16_even (data : list byte) (n : nat) :
  length data = (2 * n)%nat ->
  exists a, frombuffer_u16 data = Ok a /\ length a = n /\
    forall i, (i < n)%nat ->
      nth i a 0 = b2z (nth (2 * i) data x00) + 256 * b2z (nth (2 * i + 1) data x00).
Proof.
  revert data. induction n as [|n IH]; intros data Hlen.
  - destruct data; [|discriminate]. exists []. repeat split. intros i Hi. lia.
  - destruct data as [|lo [|hi data]]; cbn [length] in Hlen; try lia.
    destruct (IH data ltac:(lia)) as (a & Ha & Hlena & Hnth).
    exists (le_bytes [lo; hi] :: a). cbn [frombuffer_u16]. rewrite Ha.
    split; [reflexivity|]. split; [cbn [length]; lia|].
    intros [|i] Hi.
    + cbn [nth le_bytes fold_right Nat.mul Nat.add]. lia.
    + cbn [nth]. rewrite Hnth by lia.
      replace (2 * S i)%nat with (S (S (2 * i))) by lia. reflexivity.
Qed.

Lemma frombuffer_u16_odd (data : list byte) (n : nat) :
  length data = (2 * n + 1)%nat -> frombuffer_u16 data = Err ValueError.
Proof.
  revert data. induction n as [|n IH]; intros data Hlen.
  - destruct data as [|lo [|hi data]]; cbn [length] in Hlen; try lia.
    reflexivity.
  - destruct data as [|lo [|hi data]]; cbn [length] in Hlen; try lia.
    cbn [frombuffer_u16]. now rewrite IH by lia.
Qed.

Lemma firstn_take_length {A} (n : Z) (l : list A) :
  0 <= n <= len l -> length (take n l) = Z.to_nat n.
Proof. intros Hn. unfold take, len in *. rewrite length_firstn. lia. Qed.

(** A 24bpp file is an identity copy: pixel [i] is bytes [3i], [3i+1],
    [3i+2] of the payload, unconverted; the width is the stored width field
    itself. *)
Theorem decode_24bpp_copies_bytes
    (flags size x y w h : Z) (raw_data : list byte) (p : Z) :
  0 <= flags < 2 ^ 32 -> Z.land flags 0x08 = 0 -> Z.land flags 0x07 = 3 ->
  0 <= size < 2 ^ 32 ->
  0 <= x < 2 ^ 16 -> 0 <= y < 2 ^ 16 -> 0 <= w < 2 ^ 16 -> 0 <= h < 2 ^ 16 ->
  w * h * 3 <= len raw_data ->
  exists img,
    read_tim (le_I 0x10 ++ le_I flags ++ le_I size ++
              (le_H x ++ le_H y ++ le_H w ++ le_H h) ++ raw_data) p = Ok img /\
    im_width img = w /\ im_height img = h /\
    len (im_data img) = w * h /\
    forall i, 0 <= i < w * h ->
      nth (Z.to_nat i) (im_data img) (0, 0, 0) =
      (b2z (nth (Z.to_nat (3 * i)) raw_data x00),
       b2z (nth (Z.to_nat (3 * i + 1)) raw_data x00),
       b2z (nth (Z.to_nat (3 * i + 2)) raw_data x00)).
Proof.
  intros Hflags Hclut Hmode Hsize Hx Hy Hw Hh Hraw.
  rewrite (read_tim_without_clut_eq flags 24) by (assumption || now rewrite Hmode).
  cbn [Z.eqb Pos.eqb]. unfold decode_pixels. cbn [Z.eqb Pos.eqb].
  assert (Hn : 0 <= w * h * 3) by nia.
  rewrite len_take by lia. rewrite Z.ltb_irrefl.
  eexists. split; [reflexivity|]. cbn [im_width im_height im_data].
  assert (Hlen : length (take (w * h * 3) raw_data) = (3 * Z.to_nat (w * h))%nat)
    by (rewrite firstn_take_length; lia).
  repeat split.
  - unfold len. rewrite (length_rgb_triples _ _ Hlen). nia.
  - intros i Hi. rewrite nth_rgb_triples by lia.
    rewrite !nth_take by lia.
    replace (3 * Z.to_nat i)%nat with (Z.to_nat (3 * i)) by lia.
    replace (Z.to_nat (3 * i) + 1)%nat with (Z.to_nat (3 * i + 1)) by lia.
    replace (Z.to_nat (3 * i) + 2)%nat with (Z.to_nat (3 * i + 2)) by lia.
    reflexivity.
Qed.

Lemma decode_24bpp_copies_bytes_witness :
  exists img,
    read_tim (le_I 0x10 ++ le_I 3 ++ le_I 15 ++
              (le_H 0 ++ le_H 0 ++ le_H 1 ++ le_H 1) ++ [x0a; x14; x1e]) 0 = Ok img /\
    im_width img = 1 /\ im_height img = 1 /\
    len (im_data img) = 1 * 1 /\
    forall i, 0 <= i < 1 * 1 ->
      nth (Z.to_nat i) (im_data img) (0, 0, 0) =
      (b2z (nth (Z.to_nat (3 * i)) [x0a; x14; x1e] x00),
       b2z (nth (Z.to_nat (3 * i + 1)) [x0a; x14; x1e] x00),
       b2z (nth (Z.to_nat (3 * i + 2)) [x0a; x14; x1e] x00)).
Proof.
  apply (decode_24bpp_copies_bytes 3 15 0 0 1 1 [x0a; x14; x1e] 0);
    vm_compute; intuition discriminate.
Defined.

Lemma expand_astype (c : Z) :
  (let '(r, g, b) := expand c in (astype_u8 r, astype_u8 g, astype_u8 b)) = expand c.
Proof.
  rewrite expand_arith. unfold astype_u8.
  pose proof (Z.mod_pos_bound c 32 ltac:(lia)).
  pose proof (Z.mod_pos_bound (c / 32) 32 ltac:(lia)).
  pose proof (Z.mod_pos_bound (c / 1024) 32 ltac:(lia)).
  rewrite (Z.mod_small (c mod 32 * 8)) by lia.
  rewrite (Z.mod_small (c / 32 mod 32 * 8)) by lia.
  rewrite (Z.mod_small (c / 1024 mod 32 * 8)) by lia.
  reflexivity.
Qed.

Lemma im_data_rgb_image (color_vals : list Z) (w h : Z) :
  im_data (rgb_image color_vals w h) = map expand color_vals.
Proof.
  unfold rgb_image. cbn [im_data]. apply map_ext. intros c. apply expand_astype.
Qed.

Lemma nth_map_expand (a : list Z) (i : nat) :
  (i < length a)%nat -> nth i (map expand a) (0, 0, 0) = expand (nth i a 0).
Proof.
  intros Hi. rewrite (nth_indep _ (0, 0, 0) (expand 0)) by now rewrite length_map.
  apply map_nth.
Qed.

(** In a 16bpp file every pixel is the little-endian word at its position,
    expanded channel by channel; no palette is involved. *)
Theorem decode_16bpp_expands_words
    (flags size x y w h : Z) (raw_data : list byte) (p : Z) :
  0 <= flags < 2 ^ 32 -> Z.land flags 0x08 = 0 -> Z.land flags 0x07 = 2 ->
  0 <= size < 2 ^ 32 ->
  0 <= x < 2 ^ 16 -> 0 <= y < 2 ^ 16 -> 0 <= w < 2 ^ 16 -> 0 <= h < 2 ^ 16 ->
  w * h * 2 <= len raw_data ->
  exists img,
    read_tim (le_I 0x10 ++ le_I flags ++ le_I size ++
              (le_H x ++ le_H y ++ le_H w ++ le_H h) ++ raw_data) p = Ok img /\
    im_width img = w /\ im_height img = h /\
    len (im_data img) = w * h /\
    forall i, 0 <= i < w * h ->
      nth (Z.to_nat i) (im_data img) (0, 0, 0) =
      expand (b2z (nth (Z.to_nat (2 * i)) raw_data x00)
              + 256 * b2z (nth (Z.to_nat (2 * i + 1)) raw_data x00)).
Proof.
  intros Hflags Hclut Hmode Hsize Hx Hy Hw Hh Hraw.
  rewrite (read_tim_without_clut_eq flags 16) by (assumption || now rewrite Hmode).
  cbn [Z.eqb Pos.eqb]. unfold decode_pixels. cbn [Z.eqb Pos.eqb].
  assert (Hn : 0 <= w * h) by nia.
  assert (Hlen : length (take (w * h * 2) raw_data) = (2 * Z.to_nat (w * h))%nat)
    by (rewrite firstn_take_length; lia).
  destruct (frombuffer_u16_even _ _ Hlen) as (a & -> & Hlena & Hnth).
  cbn [rbind]. unfold len at 1. rewrite Hlena, Z2Nat.id by lia.
  rewrite (Z.mul_comm h w), Z.eqb_refl. cbn [negb].
  eexists. split; [reflexivity|]. cbn [im_width im_height].
  rewrite im_data_rgb_image. repeat split.
  - rewrite len_map. unfold len. lia.
  - intros i Hi. rewrite nth_map_expand by lia. rewrite Hnth by lia.
    rewrite !nth_take by lia.
    replace (2 * Z.to_nat i)%nat with (Z.to_nat (2 * i)) by lia.
    replace (Z.to_nat (2 * i) + 1)%nat with (Z.to_nat (2 * i + 1)) by lia.
    reflexivity.
Qed.

Lemma decode_16bpp_expands_words_witness :
  exists img,
    read_tim (le_I 0x10 ++ le_I 2 ++ le_I 14 ++
              (le_H 0 ++ le_H 0 ++ le_H 1 ++ le_H 1) ++ [x10; x42]) 0 = Ok img /\
    im_width img = 1 /\ im_height img = 1 /\
    len (im_data img) = 1 * 1 /\
    forall i, 0 <= i < 1 * 1 ->
      nth (Z.to_nat i) (im_data img) (0, 0, 0) =
      expand (b2z (nth (Z.to_nat (2 * i)) [x10; x42] x00)
              + 256 * b2z (nth (Z.to_nat (2 * i + 1)) [x10; x42] x00)).
Proof.
  apply (decode_16bpp_expands_words 2 14 0 0 1 1 [x10; x42] 0);
    vm_compute; intuition discriminate.
Defined.

(** ** Payloads shorter than the header announces *)

Lemma mapM_first_error {A B} (f : A -> result B) (l : list A) (e : error) :
  (forall x, In x l -> (exists y, f x = Ok y) \/ f x = Err e) ->
  (exists x, In x l /\ f x = Err e) ->
  mapM f l = Err e.
Proof.
  induction l as [|a l IH]; intros Hall (x & Hin & Hx); [destruct Hin|].
  cbn [mapM]. destruct (Hall a ltac:(now left)) as [(y & Hy) | Hy].
  - rewrite Hy. cbn [rbind]. rewrite IH; [reflexivity | |].
    + intros z Hz. apply Hall. now right.
    + destruct Hin as [-> | Hin]; [congruence|]. now exists x.
  - now rewrite Hy.
Qed.

Lemma index_out_of_bounds {A} (d : A) (a : list A) (i : Z) :
  len a <= i -> index d a i = Err IndexError.
Proof.
  intros Hi. pose proof (len_nonneg a). unfold index.
  destruct (Z.leb_spec 0 i); [|lia]. destruct (Z.ltb_spec i (len a)); [lia|].
  cbn [andb]. destruct (Z.leb_spec (- len a) i); [|reflexivity].
  destruct (Z.ltb_spec i 0); [lia | reflexivity].
Qed.

Lemma unpack_4bpp_short (raw_data : list byte) (n : Z) :
  len raw_data < (n + 1) / 2 -> unpack_4bpp raw_data n = Err IndexError.
Proof.
  intros Hshort. pose proof (len_nonneg raw_data) as Hlen.
  assert (Hpix : len (frombuffer_u8 (take ((n + 1) / 2) raw_data)) = len raw_data).
  { unfold frombuffer_u8, take, len. rewrite length_map, length_firstn.
    unfold len in *. lia. }
  unfold unpack_4bpp. apply mapM_first_error.
  - intros i Hi. apply in_range in Hi.
    destruct (Z_lt_le_dec (i / 2) (len raw_data)) as [Hlt | Hge].
    + left. eexists. rewrite index_in_bounds; [reflexivity|].
      rewrite Hpix. split; [apply Z.div_pos; lia | exact Hlt].
    + right. rewrite index_out_of_bounds by (rewrite Hpix; exact Hge).
      reflexivity.
  - exists (2 * len raw_data). split.
    + apply in_range. Z.to_euclidean_division_equations. lia.
    + rewrite index_out_of_bounds; [reflexivity|].
      rewrite Hpix. Z.to_euclidean_division_equations. lia.
Qed.

(** When the payload holds fewer bytes than width, height and depth require,
    decoding fails: with IndexError at 4bpp (the unpacking loop runs off the
    buffer) and with ValueError at 8, 16 and 24bpp; no partial image is
    returned. *)
Theorem truncated_payload_fails
    (flags bpp size x y w_words h : Z) (raw_data : list byte) (p : Z) :
  0 <= flags < 2 ^ 32 ->
  Z.land flags 0x08 = 0 ->
  bpp_of_mode (Z.land flags 0x07) = Some bpp ->
  0 <= size < 2 ^ 32 ->
  0 <= x < 2 ^ 16 -> 0 <= y < 2 ^ 16 ->
  0 <= w_words < 2 ^ 16 -> 0 <= h < 2 ^ 16 ->
  len raw_data < (if bpp =? 4 then (w_words * 4 * h + 1) / 2
                  else if bpp =? 8 then w_words * 2 * h
                  else if bpp =? 16 then w_words * h * 2
                  else w_words * h * 3) ->
  read_tim (le_I 0x10 ++ le_I flags ++ le_I size ++
            (le_H x ++ le_H y ++ le_H w_words ++ le_H h) ++ raw_data) p =
  Err (if bpp =? 4 then IndexError else ValueError).
Proof.
  intros Hflags Hclut Hmode Hsize Hx Hy Hw Hh Hshort.
  rewrite (read_tim_without_clut_eq flags bpp) by assumption.
  pose proof (len_nonneg raw_data) as Hlen.
  assert (Hbpp : bpp = 4 \/ bpp = 8 \/ bpp = 16 \/ bpp = 24).
  { unfold bpp_of_mode in Hmode.
    repeat match type of Hmode with
           | (if ?c then _ else _) = _ => destruct c
           end; inversion Hmode; tauto. }
  unfold decode_pixels.
  destruct Hbpp as [-> | [-> | [-> | ->]]]; cbn [Z.eqb Pos.eqb] in Hshort |- *.
  - now rewrite unpack_4bpp_short.
  - unfold frombuffer_u8, take, len. rewrite length_map, length_firstn.
    destruct (Z.eqb_spec (Z.of_nat (Nat.min (Z.to_nat (w_words * 2 * h))
                                            (length raw_data))) (h * (w_words * 2)));
      [unfold len in *; lia | reflexivity].
  - assert (Htake : take (w_words * h * 2) raw_data = raw_data)
      by (unfold take; apply firstn_all2; unfold len in *; lia).
    rewrite Htake.
    destruct (Nat.Even_or_Odd (length raw_data)) as [[n Hn] | [n Hn]].
    + destruct (frombuffer_u16_even _ _ Hn) as (a & -> & Hlena & _).
      cbn [rbind].
      destruct (Z.eqb_spec (len a) (h * w_words)); [unfold len in *; lia|].
      reflexivity.
    + now rewrite (frombuffer_u16_odd _ _ Hn).
  - unfold take, len. rewrite length_firstn.
    destruct (Z.ltb_spec (Z.of_nat (Nat.min (Z.to_nat (w_words * h * 3))
                                            (length raw_data))) (w_words * h * 3));
      [reflexivity | unfold len in *; lia].
Qed.

Lemma truncated_payload_fails_witness :
  read_tim (le_I 0x10 ++ le_I 0 ++ le_I 13 ++
            (le_H 0 ++ le_H 0 ++ le_H 1 ++ le_H 1) ++ [x21]) 0 =
  Err (if 4 =? 4 then IndexError else ValueError).
Proof.
  apply (truncated_payload_fails 0 4 13 0 0 1 1 [x21] 0);
    vm_compute; intuition discriminate.
Defined.

(** ** What every decoded image satisfies *)

Lemma unpack_4H_range (bs : list byte) (a b c d : Z) :
  unpack_4H bs = Ok (a, b, c, d) -> 0 <= c /\ 0 <= d.
Proof.
  unfold unpack_4H.
  destruct bs as [|a0 [|a1 [|b0 [|b1 [|c0 [|c1 [|d0 [|d1 [|? ?]]]]]]]]];
    try discriminate.
  intros H.
  assert (Hc : c = le_bytes [c0; c1]) by congruence.
  assert (Hd : d = le_bytes [d0; d1]) by congruence.
  rewrite Hc, Hd. split; apply le_bytes_nonneg.
Qed.

(** A successful [read_tim] ends in a successful [decode_pixels] on the mode
    of the header and on a width and height that are not negative. *)
Lemma read_tim_inv (file : list byte) (p : Z) (img : Image) :
  read_tim file p = Ok img ->
  exists bpp has_clut sel w h raw_data,
    run read_header file = Ok (bpp, has_clut) /\
    0 <= w /\ 0 <= h /\
    decode_pixels bpp sel w h raw_data = Ok img.
Proof.
  unfold read_tim, run. intros H.
  destruct (read_header file) as [[[bpp has_clut] s0]|e] eqn:Ehdr;
    [|rewrite (bind_err _ _ _ _ Ehdr) in H; discriminate].
  rewrite (bind_ok _ _ _ _ _ Ehdr) in H. cbv beta iota in H.
  unfold bind at 1 in H.
  match type of H with
  | context [(if has_clut then ?a else ?b) s0] =>
      destruct ((if has_clut then a else b) s0) as [[sel s1]|e]; [|discriminate]
  end.
  unfold bind at 1 in H. unfold f_read at 1 in H. cbn [Z.ltb Z.eqb Z.compare] in H.
  rewrite bind_lift in H.
  destruct (unpack_I _) as [sz|e]; [|discriminate].
  unfold bind at 1 in H. unfold f_read at 1 in H. cbn [Z.ltb Z.eqb Z.compare] in H.
  rewrite bind_lift in H.
  destruct (unpack_4H _) as [[[[x y] w_words] h]|e] eqn:Efields; [|discriminate].
  apply unpack_4H_range in Efields. unfold bind, f_read_all, lift in H.
  destruct (decode_pixels _ _ _ _ _) as [img'|e] eqn:Edec; [|discriminate].
  injection H as ->.
  exists bpp, has_clut, sel,
    (if bpp =? 4 then w_words * 4 else if bpp =? 8 then w_words * 2 else w_words),
    h, (skipn (Z.to_nat 8) (skipn (Z.to_nat 4) s1)).
  split; [reflexivity|]. split; [|split; [tauto | exact Edec]].
  destruct (bpp =? 4); [lia|]. destruct (bpp =? 8); lia.
Qed.

Lemma mapM_length {A B} (f : A -> result B) (l : list A) (out : list B) :
  mapM f l = Ok out -> length out = length l.
Proof.
  revert out. induction l as [|a l IH]; intros out H; cbn [mapM] in H.
  - injection H as <-. reflexivity.
  - destruct (f a) as [b|e]; [|discriminate]. cbn [rbind] in H.
    destruct (mapM f l) as [bs|e]; [|discriminate]. cbn [rbind] in H.
    injection H as <-. cbn [length]. f_equal. now apply IH.
Qed.

Lemma gather_length (palette pixels color_vals : list Z) :
  gather palette pixels = Ok color_vals -> len color_vals = len pixels.
Proof. unfold gather, len. intros H. now rewrite (mapM_length _ _ _ H). Qed.

(** Below 24bpp the image is the expansion of a list of packed colors. *)
Lemma decode_pixels_rgb (bpp : Z) (sel : option (list Z)) (w h : Z)
    (raw_data : list byte) (img : Image) :
  decode_pixels bpp sel w h raw_data = Ok img ->
  bpp <> 24 ->
  exists color_vals, img = rgb_image color_vals w h.
Proof.
  unfold decode_pixels. intros H Hbpp.
  destruct (bpp =? 4).
  { destruct (unpack_4bpp _ _) as [pixels|e]; [|discriminate]. cbn [rbind] in H.
    destruct (match sel with None => _ | Some palette => _ end) as [cv|e];
      [|discriminate].
    cbn [rbind] in H. injection H as <-. now exists cv. }
  destruct (bpp =? 8).
  { destruct (negb _); [discriminate|].
    destruct (gather _ _) as [cv|e]; [|discriminate].
    cbn [rbind] in H. injection H as <-. now exists cv. }
  destruct (bpp =? 16).
  { destruct (frombuffer_u16 _) as [a|e]; [|discriminate]. cbn [rbind] in H.
    destruct (negb _); [discriminate|]. injection H as <-. now exists a. }
  destruct (Z.eqb_spec bpp 24); [contradiction | discriminate].
Qed.

Lemma decode_pixels_count (bpp : Z) (sel : option (list Z)) (w h : Z)
    (raw_data : list byte) (img : Image) :
  decode_pixels bpp sel w h raw_data = Ok img ->
  0 <= w -> 0 <= h ->
  len (im_data img) = w * h.
Proof.
  unfold decode_pixels. intros H Hw Hh. assert (Hn : 0 <= w * h) by nia.
  destruct (bpp =? 4).
  { destruct (unpack_4bpp _ _) as [pixels|e] eqn:Epix; [|discriminate].
    cbn [rbind] in H. unfold unpack_4bpp in Epix. apply mapM_length in Epix.
    assert (Hpix : len pixels = w * h)
      by (pose proof (len_range (w * h) Hn); unfold len in *; lia).
    destruct sel as [palette|];
      (destruct (gather _ pixels) as [cv|e] eqn:Ecv; [|discriminate]);
      cbn [rbind] in H; injection H as <-; apply gather_length in Ecv;
      unfold rgb_image; cbn [im_data]; rewrite len_map; lia. }
  destruct (bpp =? 8).
  { destruct (Z.eqb_spec (len (frombuffer_u8 (take (w * h) raw_data))) (h * w))
      as [Hpix|]; [|discriminate].
    cbn [negb] in H. destruct (gather _ _) as [cv|e] eqn:Ecv; [|discriminate].
    cbn [rbind] in H. injection H as <-. apply gather_length in Ecv.
    unfold rgb_image. cbn [im_data]. rewrite len_map. lia. }
  destruct (bpp =? 16).
  { destruct (frombuffer_u16 _) as [a|e]; [|discriminate]. cbn [rbind] in H.
    destruct (Z.eqb_spec (len a) (h * w)) as [Ha|]; [|discriminate].
    cbn [negb] in H. injection H as <-.
    unfold rgb_image. cbn [im_data]. rewrite len_map. lia. }
  destruct (bpp =? 24); [|discriminate].
  destruct (Z.ltb_spec (len (take (w * h * 3) raw_data)) (w * h * 3)) as [|Hge];
    [discriminate|].
  injection H as <-. cbn [im_data].
  assert (Hlen : length (take (w * h * 3) raw_data) = (3 * Z.to_nat (w * h))%nat).
  { unfold take, len in *. rewrite length_firstn in *. lia. }
  unfold len. rewrite (length_rgb_triples _ _ Hlen). lia.
Qed.

(** Whenever [read_tim] returns an image, its width and height are not
    negative and it holds exactly width times height pixels. *)
Theorem decoded_pixel_count (file : list byte) (p : Z) (img : Image) :
  read_tim file p = Ok img ->
  0 <= im_width img /\ 0 <= im_height img /\
  len (im_data img) = im_width img * im_height img.
Proof.
  intros H. apply read_tim_inv in H.
  destruct H as (bpp & hc & sel & w & h & raw & _ & Hw & Hh & Hdec).
  pose proof (decode_pixels_count _ _ _ _ _ _ Hdec Hw Hh) as Hcount.
  apply decode_pixels_size in Hdec. destruct Hdec as [-> ->]. tauto.
Qed.

Lemma decoded_pixel_count_witness :
  0 <= im_width (mkImage 4 1 [(0, 0, 0); (248, 248, 248); (248, 248, 248); (0, 0, 0)]) /\
  0 <= im_height (mkImage 4 1 [(0, 0, 0); (248, 248, 248); (248, 248, 248); (0, 0, 0)]) /\
  len (im_data (mkImage 4 1 [(0, 0, 0); (248, 248, 248); (248, 248, 248); (0, 0, 0)])) =
  im_width (mkImage 4 1 [(0, 0, 0); (248, 248, 248); (248, 248, 248); (0, 0, 0)]) *
  im_height (mkImage 4 1 [(0, 0, 0); (248, 248, 248); (248, 248, 248); (0, 0, 0)]).
Proof.
  apply (decoded_pixel_count two_row_tim 0). reflexivity.
Defined.

Lemma expand_channels (c : Z) :
  let '(r, g, b) := expand c in
  expanded_channel r /\ expanded_channel g /\ expanded_channel b.
Proof.
  rewrite expand_arith. unfold expanded_channel.
  pose proof (Z.mod_pos_bound c 32 ltac:(lia)).
  pose proof (Z.mod_pos_bound (c / 32) 32 ltac:(lia)).
  pose proof (Z.mod_pos_bound (c / 1024) 32 ltac:(lia)).
  rewrite !Z.mod_mul by lia. lia.
Qed.

(** In every image decoded from a 4, 8 or 16bpp file each channel of each
    pixel is a multiple of 8 between 0 and 248: the low three bits are never
    set, whatever the file and its palette hold. *)
Theorem decoded_channels_multiples_of_8
    (file : list byte) (p bpp : Z) (has_clut : bool) (img : Image) :
  read_tim file p = Ok img ->
  run read_header file = Ok (bpp, has_clut) ->
  bpp <> 24 ->
  Forall (fun px => let '(r, g, b) := px in
                    expanded_channel r /\ expanded_channel g /\ expanded_channel b)
         (im_data img).
Proof.
  intros H Hhdr Hbpp. apply read_tim_inv in H.
  destruct H as (bpp' & hc & sel & w & h & raw & Hhdr' & _ & _ & Hdec).
  rewrite Hhdr in Hhdr'. injection Hhdr' as <- <-.
  destruct (decode_pixels_rgb _ _ _ _ _ _ Hdec Hbpp) as (cv & ->).
  rewrite im_data_rgb_image. apply Forall_forall. intros px Hpx.
  apply in_map_iff in Hpx. destruct Hpx as (c & <- & _). apply expand_channels.
Qed.

Lemma decoded_channels_multiples_of_8_witness :
  Forall (fun px => let '(r, g, b) := px in
                    expanded_channel r /\ expanded_channel g /\ expanded_channel b)
         (im_data (mkImage 4 1 [(248, 0, 0); (0, 248, 0); (0, 248, 0); (248, 0, 0)])).
Proof.
  apply (decoded_channels_multiples_of_8 two_row_tim (-1) 4 true);
    [reflexivity | reflexivity | discriminate].
Defined.

(** * Further properties of the encoder *)

(** ** Which images are accepted *)

Lemma pack_I_err (v : Z) : ~ (0 <= v < 2 ^ 32) -> pack_I v = Err StructError.
Proof.
  intros Hv. unfold pack_I.
  destruct (Z.leb_spec 0 v); destruct (Z.ltb_spec v (2 ^ 32)); try reflexivity.
  lia.
Qed.

Lemma pack_4H_err (c d : Z) :
  ~ (0 <= c < 2 ^ 16 /\ 0 <= d < 2 ^ 16) -> pack_4H 0 0 c d = Err StructError.
Proof.
  intros Hv. unfold pack_4H. change (pack_H 0) with (Ok (le_H 0)). cbn [rbind].
  unfold pack_H.
  destruct (Z.leb_spec 0 c); destruct (Z.ltb_spec c (2 ^ 16)); try reflexivity.
  cbn [andb rbind].
  destruct (Z.leb_spec 0 d); destruct (Z.ltb_spec d (2 ^ 16)); try reflexivity.
  lia.
Qed.

Lemma encode_pixels_ok (bpp width : Z) (data : list byte) :
  exists pixel_bytes,
    encode_pixels bpp width (frombuffer_u8 data) =
      Ok (if bpp =? 4 then (width + 3) / 4 else (width + 1) / 2, pixel_bytes) /\
    len pixel_bytes = if bpp =? 4 then (len data + 1) / 2 else len data.
Proof.
  unfold encode_pixels. destruct (bpp =? 4).
  - pose proof (pack_4bpp_map (frombuffer_u8 data)) as Hmap. cbv zeta in Hmap.
    rewrite Hmap. cbn [rbind]. eexists. split; [reflexivity|].
    rewrite len_map, len_range2, len_map by (rewrite len_map; apply len_nonneg).
    unfold frombuffer_u8. now rewrite len_map.
  - eexists. split; [reflexivity|]. now rewrite tobytes_frombuffer_u8.
Qed.

(** [image_to_tim] refuses every depth but 4 and 8 with NotImplementedError;
    at 4 and 8 it returns bytes exactly when the width in words and the
    height fit 16 bits and the image block size fits 32 bits, and raises
    [struct.error] otherwise.  The palette and the index values never make it
    fail. *)
Theorem image_to_tim_acceptance (image : PImage) (bpp : Z) :
  let w_words := if bpp =? 4 then (p_width image + 3) / 4
                 else (p_width image + 1) / 2 in
  let payload := if bpp =? 4 then (len (p_data image) + 1) / 2
                 else len (p_data image) in
  let fits := 0 <= w_words < 2 ^ 16 /\ 0 <= p_height image < 2 ^ 16 /\
              12 + payload < 2 ^ 32 in
  (bpp <> 4 -> bpp <> 8 -> image_to_tim image bpp = Err NotImplementedError) /\
  (bpp = 4 \/ bpp = 8 ->
   (fits -> exists out, image_to_tim image bpp = Ok out) /\
   (~ fits -> image_to_tim image bpp = Err StructError)).
Proof.
  cbv zeta. split.
  - intros H4 H8. unfold image_to_tim.
    destruct (Z.eqb_spec bpp 4); [contradiction|].
    destruct (Z.eqb_spec bpp 8); [contradiction|]. reflexivity.
  - intros Hbpp.
    destruct (encode_pixels_ok bpp (p_width image) (p_data image))
      as (pb & Henc & Hlen).
    pose proof (len_nonneg (p_data image)) as Hn.
    assert (Hpay : 0 <= len pb)
      by apply len_nonneg.
    split.
    + intros (Hw & Hh & Hsz). eexists.
      apply (image_to_tim_ok image bpp _ pb Hbpp Henc); [|exact Hw | exact Hh].
      now rewrite Hlen.
    + intros Hfits. rewrite image_to_tim_eq by exact Hbpp. rewrite Henc.
      cbn [rbind].
      destruct (Z_lt_le_dec (12 + len pb) (2 ^ 32)) as [Hsz | Hsz].
      * rewrite pack_I_ok by lia. cbn [rbind].
        rewrite pack_4H_err; [reflexivity|].
        intros [Hw Hh]. apply Hfits. rewrite <- Hlen. tauto.
      * rewrite pack_I_err by lia. reflexivity.
Qed.

Lemma image_to_tim_acceptance_witness :
  image_to_tim (mkPImage 2 1 [] [x00; x01]) 16 = Err NotImplementedError /\
  (exists out, image_to_tim (mkPImage 2 1 [] [x00; x01]) 8 = Ok out) /\
  image_to_tim (mkPImage 2 65536 [] []) 8 = Err StructError.
Proof.
  split; [|split].
  - apply (proj1 (image_to_tim_acceptance (mkPImage 2 1 [] [x00; x01]) 16));
      discriminate.
  - apply (proj1 (proj2 (image_to_tim_acceptance (mkPImage 2 1 [] [x00; x01]) 8)
                        (or_intror eq_refl))).
    vm_compute. intuition discriminate.
  - apply (proj2 (proj2 (image_to_tim_acceptance (mkPImage 2 65536 [] []) 8)
                        (or_intror eq_refl))).
    vm_compute. intros (_ & [_ H] & _). discriminate H.
Defined.

(** ** Size of the written file *)

Lemma len_tim_layout (bpp : Z) (clut_colors : list Z) (w_words height : Z)
    (pixel_bytes : list byte) :
  len (tim_layout bpp clut_colors w_words height pixel_bytes) =
  32 + 2 * len clut_colors + len pixel_bytes.
Proof.
  unfold tim_layout, len. rewrite !length_app.
  pose proof (len_tobytes_u16 clut_colors) as Hc. unfold len in Hc.
  cbn [le_I le_H length]. lia.
Qed.

(** A written file is 64 bytes plus one byte per two pixels at 4bpp, and 544
    bytes plus one byte per pixel at 8bpp; it starts with the magic 0x10. *)
Theorem written_file_size (image : PImage) (bpp : Z) (out : list byte) :
  image_to_tim image bpp = Ok out ->
  len out = (if bpp =? 4 then 64 + (len (p_data image) + 1) / 2
             else 544 + len (p_data image)) /\
  firstn 4 out = [x10; x00; x00; x00].
Proof.
  intros H. apply image_to_tim_inv in H.
  destruct H as (Hbpp & w_words & pb & Henc & -> & _).
  destruct (encode_pixels_ok bpp (p_width image) (p_data image))
    as (pb' & Henc' & Hlen).
  rewrite Henc in Henc'. injection Henc' as _ <-.
  split.
  - rewrite len_tim_layout, len_clut_of, Hlen.
    destruct Hbpp as [-> | ->]; cbn [Z.eqb Pos.eqb]; lia.
  - reflexivity.
Qed.

Lemma written_file_size_witness :
  len (tim_layout 4 (clut_of 4 []) 1 1 [x21; x03]) =
    (if 4 =? 4 then 64 + (len [x01; x02; x03] + 1) / 2
     else 544 + len [x01; x02; x03]) /\
  firstn 4 (tim_layout 4 (clut_of 4 []) 1 1 [x21; x03]) = [x10; x00; x00; x00].
Proof.
  apply (written_file_size (mkPImage 3 1 [] [x01; x02; x03]) 4).
  vm_compute. reflexivity.
Defined.

(** ** Reading back what was written *)

Lemma read_clut_layout (bpp : Z) (palette : list byte) (rest : list byte) :
  bpp = 4 \/ bpp = 8 ->
  read_clut
    (le_I (12 + len (tobytes_u16 (clut_of bpp palette))) ++
     (le_H 0 ++ le_H 0 ++ le_H (if bpp =? 4 then 16 else 256) ++ le_H 1) ++
     tobytes_u16 (clut_of bpp palette) ++ rest)
  = Ok ([clut_of bpp palette], rest).
Proof.
  intros Hbpp.
  assert (Hclen : 0 < len (clut_of bpp palette) < 2 ^ 16)
    by (rewrite len_clut_of; destruct (bpp =? 4); lia).
  set (clut := clut_of bpp palette) in *.
  pose proof (read_clut_block 0 0 (len clut) 1 clut rest) as Hrc.
  unfold clut_block in Hrc. rewrite <- !app_assoc in Hrc.
  rewrite len_tobytes_u16.
  replace (if bpp =? 4 then 16 else 256) with (len clut)
    by (subst clut; apply len_clut_of).
  rewrite <- !app_assoc.
  rewrite Hrc by (try apply clut_of_range; lia).
  now rewrite reshape_single_row by lia.
Qed.

Lemma nth_clut_of (bpp : Z) (palette : list byte) (i : Z) :
  0 <= i < (if bpp =? 4 then 16 else 256) ->
  nth (Z.to_nat i) (clut_of bpp palette) 0 = clut_entry palette i.
Proof. intros Hi. unfold clut_of. now rewrite nth_map_range. Qed.

(** The CLUT of a written file is read back as a single row of 16 (4bpp) or
    256 (8bpp) colors: entry [i] is the quantized palette triple [i] when the
    palette holds it entirely, and black otherwise. *)
Theorem written_clut_read_back (image : PImage) (bpp : Z) (out : list byte) :
  image_to_tim image bpp = Ok out ->
  exists row,
    file_clut out = Ok (Some [row]) /\
    len row = (if bpp =? 4 then 16 else 256) /\
    forall i, 0 <= i < len row ->
      let palette := p_palette image in
      nth (Z.to_nat i) row 0 =
        if i * 3 + 2 <? len palette
        then quantize (b2z (nth (Z.to_nat (i * 3)) palette x00))
                      (b2z (nth (Z.to_nat (i * 3 + 1)) palette x00))
                      (b2z (nth (Z.to_nat (i * 3 + 2)) palette x00))
        else 0.
Proof.
  intros H. apply image_to_tim_inv in H.
  destruct H as (Hbpp & w_words & pb & _ & -> & _).
  exists (clut_of bpp (p_palette image)). split; [|split].
  - unfold file_clut, run, tim_layout.
    rewrite (bind_ok _ _ _ _ _ (read_header_layout bpp _ Hbpp)). cbv beta iota.
    rewrite (bind_ok _ _ _ _ _ (read_clut_layout bpp _ _ Hbpp)). reflexivity.
  - apply len_clut_of.
  - intros i Hi. cbv zeta. rewrite len_clut_of in Hi.
    rewrite nth_clut_of by exact Hi. unfold clut_entry. cbv zeta.
    destruct (Z.geb_spec (i * 3 + 2) (len (p_palette image)));
      destruct (Z.ltb_spec (i * 3 + 2) (len (p_palette image)));
      try lia; reflexivity.
Qed.

Lemma written_clut_read_back_witness :
  exists row,
    file_clut (tim_layout 4 (clut_of 4 [xff; x80; x08]) 1 1 [x21; x43])
      = Ok (Some [row]) /\
    len row = (if 4 =? 4 then 16 else 256) /\
    forall i, 0 <= i < len row ->
      let palette := p_palette (mkPImage 4 1 [xff; x80; x08] [x01; x02; x03; x04]) in
      nth (Z.to_nat i) row 0 =
        if i * 3 + 2 <? len palette
        then quantize (b2z (nth (Z.to_nat (i * 3)) palette x00))
                      (b2z (nth (Z.to_nat (i * 3 + 1)) palette x00))
                      (b2z (nth (Z.to_nat (i * 3 + 2)) palette x00))
        else 0.
Proof.
  apply (written_clut_read_back
           (mkPImage 4 1 [xff; x80; x08] [x01; x02; x03; x04]) 4).
  vm_compute. reflexivity.
Defined.

(** ** Nibbles, packed and unpacked *)

Lemma map_range_nth {A} (l : list A) (d : A) :
  map (fun i => nth (Z.to_nat i) l d) (range (len l)) = l.
Proof.
  unfold range, len. rewrite map_map, Nat2Z.id.
  apply (nth_ext _ _ d d).
  - now rewrite length_map, length_seq.
  - intros k Hk. rewrite length_map, length_seq in Hk.
    rewrite (nth_indep _ d (nth (Z.to_nat (Z.of_nat 0)) l d))
      by (rewrite length_map, length_seq; exact Hk).
    rewrite (map_nth (fun x => nth (Z.to_nat (Z.of_nat x)) l d)).
    rewrite seq_nth by exact Hk. now rewrite Nat2Z.id.
Qed.

Lemma nibble_at_packed (pixels : list Z) (pixel_bytes : list byte) (i : Z) :
  pack_4bpp pixels = Ok pixel_bytes ->
  0 <= i < len pixels ->
  nibble_at pixel_bytes i = clip 0 15 (nth (Z.to_nat i) pixels 0).
Proof.
  intros Hpack Hi.
  assert (Hk : 0 <= i / 2 < (len pixels + 1) / 2)
    by (Z.to_euclidean_division_equations; lia).
  pose proof (pack_4bpp_nth pixels pixel_bytes (i / 2) Hpack Hk) as Hbyte.
  cbv zeta in Hbyte. unfold nibble_at. cbv zeta. rewrite Hbyte.
  pose proof (clip_range (nth (Z.to_nat (2 * (i / 2))) pixels 0)) as Hfirst.
  pose proof (clip_range (nth (Z.to_nat (2 * (i / 2) + 1)) pixels 0)) as Hsecond.
  pose proof (Zmod_even i) as Hpar.
  destruct (Z.even i).
  - assert (Hi2 : 2 * (i / 2) = i) by (Z.to_euclidean_division_equations; lia).
    rewrite land_15.
    destruct (2 * (i / 2) + 1 <? len pixels);
      rewrite nibble_pair by lia; rewrite Hi2 in *;
      Z.to_euclidean_division_equations; lia.
  - assert (Hi2 : 2 * (i / 2) + 1 = i) by (Z.to_euclidean_division_equations; lia).
    rewrite land_15, Z.shiftr_div_pow2 by lia. change (2 ^ 4) with 16.
    destruct (Z.ltb_spec (2 * (i / 2) + 1) (len pixels)); [|lia].
    rewrite nibble_pair by lia. rewrite Hi2 in *.
    Z.to_euclidean_division_equations. lia.
Qed.

Lemma unpack_pack_4bpp_eq (pixels : list Z) (pixel_bytes : list byte) :
  pack_4bpp pixels = Ok pixel_bytes ->
  unpack_4bpp pixel_bytes (len pixels) = Ok (map (clip 0 15) pixels).
Proof.
  intros Hpack. pose proof (len_nonneg pixels) as Hn.
  rewrite unpack_4bpp_map by (try rewrite (pack_4bpp_len _ _ Hpack); lia).
  f_equal.
  etransitivity; [|apply (map_range_nth (map (clip 0 15) pixels) 0)].
  rewrite len_map. apply map_ext_in. intros i Hi. apply in_range in Hi.
  rewrite nth_map_clip. now apply nibble_at_packed.
Qed.

(** Packing any sequence of indices, of even or odd length, never fails, takes
    one byte per two indices, and unpacking the bytes for the same count
    returns the indices clipped to [0,15] (so exactly the indices, when none
    exceeds 15). *)
Theorem unpack_pack_4bpp (pixels : list Z) :
  exists pixel_bytes,
    pack_4bpp pixels = Ok pixel_bytes /\
    len pixel_bytes = (len pixels + 1) / 2 /\
    unpack_4bpp pixel_bytes (len pixels) = Ok (map (clip 0 15) pixels).
Proof.
  pose proof (pack_4bpp_map pixels) as Hmap. cbv zeta in Hmap.
  eexists. split; [exact Hmap|].
  split; [now apply pack_4bpp_len | now apply unpack_pack_4bpp_eq].
Qed.

(** ** Pixels, written and read back *)

Lemma rgb_image_eq (color_vals : list Z) (w h : Z) :
  rgb_image color_vals w h = mkImage w h (map expand color_vals).
Proof.
  unfold rgb_image. f_equal. apply map_ext. intros c. apply expand_astype.
Qed.

Lemma take_all {A} (n : Z) (l : list A) : len l <= n -> take n l = l.
Proof. intros Hn. unfold take, len in *. apply firstn_all2. lia. Qed.

(** An 8bpp file written from an image of even width decodes, for every
    palette request [p >= 0], to an image of the same size whose pixel [i] is
    the expansion of the CLUT entry of index [i]: the palette color of that
    index with each channel rounded down to a multiple of 8, or black when
    the palette does not hold the index. *)
Theorem roundtrip_8bpp_pixels (image : PImage) (out : list byte) (p : Z) :
  0 < p_width image -> 0 < p_height image ->
  p_width image mod 2 = 0 ->
  len (p_data image) = p_width image * p_height image ->
  image_to_tim image 8 = Ok out ->
  0 <= p ->
  read_tim out p =
  Ok (mkImage (p_width image) (p_height image)
        (map (fun b => expand (clut_entry (p_palette image) (b2z b)))
             (p_data image))).
Proof.
  intros Hw Hh Hmod Hdata Hout Hp.
  apply image_to_tim_inv in Hout.
  destruct Hout as (_ & w_words & pb & Henc & -> & Hsz & Hww & Hh16).
  unfold encode_pixels in Henc. cbn [Z.eqb Pos.eqb] in Henc.
  injection Henc as <- <-. rewrite tobytes_frombuffer_u8 in *.
  rewrite read_tim_layout by (assumption || now right).
  rewrite select_single_row by exact Hp. cbn [rbind Z.eqb Pos.eqb].
  assert (Hexact : (p_width image + 1) / 2 * 2 = p_width image)
    by (Z.to_euclidean_division_equations; lia).
  rewrite Hexact. unfold decode_pixels. cbn [Z.eqb Pos.eqb].
  rewrite take_all by lia.
  unfold frombuffer_u8 at 1. rewrite len_map, Hdata, (Z.mul_comm (p_height image)).
  rewrite Z.eqb_refl. cbn [negb].
  rewrite gather_ok.
  - cbn [rbind]. rewrite rgb_image_eq. do 2 f_equal.
    unfold frombuffer_u8. rewrite !map_map. apply map_ext. intros b.
    f_equal. apply (nth_clut_of 8). apply b2z_range.
  - apply Forall_forall. intros v Hv. apply in_map_iff in Hv.
    destruct Hv as (b & <- & _). rewrite (len_clut_of 8). apply b2z_range.
Qed.

Lemma roundtrip_8bpp_pixels_witness :
  read_tim (tim_layout 8 (clut_of 8 [xff; x80; x08; x10; x20; x30]) 1 1 [x01; x00]) 0 =
  Ok (mkImage 2 1
        (map (fun b => expand (clut_entry [xff; x80; x08; x10; x20; x30] (b2z b)))
             [x01; x00])).
Proof.
  apply (roundtrip_8bpp_pixels
           (mkPImage 2 1 [xff; x80; x08; x10; x20; x30] [x01; x00]));
    vm_compute; intuition discriminate.
Defined.

(** A 4bpp file written from an image whose width is a multiple of 4
    decodes, for every palette request [p >= 0], to an image of the same size
    whose pixel [i] is the expansion of the CLUT entry of index [i] clipped to
    15. *)
Theorem roundtrip_4bpp_pixels (image : PImage) (out : list byte) (p : Z) :
  0 < p_width image -> 0 < p_height image ->
  p_width image mod 4 = 0 ->
  len (p_data image) = p_width image * p_height image ->
  image_to_tim image 4 = Ok out ->
  0 <= p ->
  read_tim out p =
  Ok (mkImage (p_width image) (p_height image)
        (map (fun b => expand (clut_entry (p_palette image) (clip 0 15 (b2z b))))
             (p_data image))).
Proof.
  intros Hw Hh Hmod Hdata Hout Hp.
  apply image_to_tim_inv in Hout.
  destruct Hout as (_ & w_words & pb & Henc & -> & Hsz & Hww & Hh16).
  unfold encode_pixels in Henc. cbn [Z.eqb Pos.eqb] in Henc.
  destruct (pack_4bpp _) as [pb'|e] eqn:Epack; [|discriminate].
  cbn [rbind] in Henc. injection Henc as <- <-.
  rewrite read_tim_layout by (assumption || now left).
  rewrite select_single_row by exact Hp. cbn [rbind Z.eqb Pos.eqb].
  assert (Hexact : (p_width image + 3) / 4 * 4 = p_width image)
    by (Z.to_euclidean_division_equations; lia).
  rewrite Hexact. unfold decode_pixels. cbn [Z.eqb Pos.eqb].
  assert (Hn : len (frombuffer_u8 (p_data image)) = p_width image * p_height image)
    by (unfold frombuffer_u8; now rewrite len_map).
  rewrite <- Hn. rewrite (unpack_pack_4bpp_eq _ _ Epack). cbn [rbind].
  rewrite gather_ok.
  - cbn [rbind]. rewrite rgb_image_eq. do 2 f_equal.
    unfold frombuffer_u8. rewrite !map_map. apply map_ext. intros b.
    f_equal. apply (nth_clut_of 4). pose proof (clip_range (b2z b)).
    cbn [Z.eqb Pos.eqb]. lia.
  - apply Forall_forall. intros v Hv. apply in_map_iff in Hv.
    destruct Hv as (x & <- & _). rewrite (len_clut_of 4).
    pose proof (clip_range x). cbn [Z.eqb Pos.eqb]. lia.
Qed.

Lemma roundtrip_4bpp_pixels_witness :
  read_tim (tim_layout 4 (clut_of 4 [xff; x80; x08; x10; x20; x30]) 1 1 [x01; x1f]) 0 =
  Ok (mkImage 4 1
        (map (fun b => expand (clut_entry [xff; x80; x08; x10; x20; x30]
                                          (clip 0 15 (b2z b))))
             [x01; x00; x1f; x01])).
Proof.
  apply (roundtrip_4bpp_pixels
           (mkPImage 4 1 [xff; x80; x08; x10; x20; x30] [x01; x00; x1f; x01]));
    vm_compute; intuition discriminate.
Defined.

(** * Further properties of the CLUT parser *)

Lemma unpack_4H_total (fields : list byte) :
  len fields = 8 -> exists a b c d, unpack_4H fields = Ok (a, b, c, d).
Proof.
  unfold len. intros Hlen.
  destruct fields as [|a0 [|a1 [|b0 [|b1 [|c0 [|c1 [|d0 [|d1 [|? ?]]]]]]]]];
    cbn [length] in Hlen; try lia.
  cbn [unpack_4H]. eauto.
Qed.

(** A CLUT block whose size field is 10 or less asks the file for a negative
    number of bytes other than -1: the read raises ValueError and the decode
    fails, whatever the rest of the file holds. *)
Theorem undersized_clut_block_fails
    (flags bpp size : Z) (fields rest : list byte) (p : Z) :
  0 <= flags < 2 ^ 32 ->
  Z.land flags 0x08 <> 0 ->
  bpp_of_mode (Z.land flags 0x07) = Some bpp ->
  0 <= size <= 10 ->
  len fields = 8 ->
  read_tim (le_I 0x10 ++ le_I flags ++ le_I size ++ fields ++ rest) p
  = Err ValueError.
Proof.
  intros Hflags Hclut Hmode Hsize Hfields. unfold read_tim, run.
  assert (Hhdr : read_header (le_I 0x10 ++ le_I flags ++ le_I size ++ fields ++ rest)
                 = Ok ((bpp, true), le_I size ++ fields ++ rest)).
  { rewrite read_header_flags by exact Hflags. rewrite Hmode.
    destruct (Z.eqb_spec (Z.land flags 8) 0); [contradiction | reflexivity]. }
  rewrite (bind_ok _ _ _ _ _ Hhdr). cbv beta iota.
  rewrite !bind_assoc.
  rewrite (bind_err read_clut _ _ ValueError); [reflexivity|].
  unfold read_clut.
  rewrite (bind_ok _ _ _ _ _ (f_read_app 4 (le_I size) _ eq_refl)).
  rewrite (bind_lift_ok _ _ _ _ (unpack_I_le_I size ltac:(lia))).
  rewrite (bind_ok _ _ _ _ _ (f_read_app 8 fields rest Hfields)).
  destruct (unpack_4H_total fields Hfields) as (a & b & c & d & Hu).
  rewrite (bind_lift_ok _ _ _ _ Hu). cbv beta iota.
  apply bind_err. unfold f_read.
  destruct (Z.ltb_spec (size - 12) (-1)); [reflexivity | lia].
Qed.

Lemma undersized_clut_block_fails_witness :
  read_tim (le_I 0x10 ++ le_I 0x08 ++ le_I 8 ++
            [x00; x00; x00; x00; x10; x00; x01; x00] ++ [x01; x02]) 0
  = Err ValueError.
Proof.
  apply (undersized_clut_block_fails 0x08 4 8
           [x00; x00; x00; x00; x10; x00; x01; x00] [x01; x02] 0);
    vm_compute; intuition discriminate.
Defined.

(** The current CLUT parser accepts everything the legacy one accepts, with
    the same table and the same bytes left; where the legacy parser raises,
    the current one raises the same error or, when only the reshape failed,
    returns a table of a single row. *)
Theorem clut_parser_extends_legacy (s : list byte) :
  (forall r, V1.read_clut s = Ok r -> read_clut s = Ok r) /\
  (forall e, V1.read_clut s = Err e ->
     read_clut s = Err e \/
     (e = ValueError /\ exists colors rest, read_clut s = Ok ([colors], rest))).
Proof.
  unfold V1.read_clut, read_clut, bind.
  destruct (f_read 4 s) as [[bs s1]|e1]; [|split; [discriminate | now left]].
  destruct (lift (unpack_I bs) s1) as [[sz s2]|e2];
    [|split; [discriminate | now left]].
  destruct (f_read 8 s2) as [[bs' s3]|e3]; [|split; [discriminate | now left]].
  destruct (lift (unpack_4H bs') s3) as [[[[[cx cy] cw] ch] s4]|e4];
    [|split; [discriminate | now left]].
  destruct (f_read (sz - 12) s4) as [[data s5]|e5];
    [|split; [discriminate | now left]].
  destruct (lift (frombuffer_u16 data) s5) as [[colors s6]|e6];
    [|split; [discriminate | now left]].
  unfold lift, ret, reshape_rows.
  destruct (cw =? 0); [split; [discriminate | intros e He; right]|].
  - injection He as <-. split; [reflexivity | eauto].
  - destruct (len colors mod cw =? 0);
      [split; [intros r Hr; exact Hr | discriminate]
      | split; [discriminate | intros e He; right]].
    injection He as <-. split; [reflexivity | eauto].
Qed.

(** * The viewer's header sniffers *)

Lemma bind_seek {B} (file : list byte) (pos : Z) (k : unit -> reader B) s :
  bind (f_seek file pos) k s = k tt (skipn (Z.to_nat pos) file).
Proof. reflexivity. Qed.

Lemma skipn_app_exact {A} (n : nat) (a b : list A) :
  length a = n -> skipn n (a ++ b) = b.
Proof.
  intros <-. rewrite skipn_app, skipn_all, Nat.sub_diag. reflexivity.
Qed.

(** A file with a CLUT, as [read_tim] parses it, with the eight bytes that
    follow the CLUT origin kept apart. *)
Lemma sniff_offsets (magic flags size x y : Z) (fields rest : list byte) :
  let file := le_I magic ++ le_I flags ++ le_I size ++
              (le_H x ++ le_H y) ++ fields ++ rest in
  skipn (Z.to_nat 4) file =
    le_I flags ++ le_I size ++ (le_H x ++ le_H y) ++ fields ++ rest /\
  skipn (Z.to_nat 12) file = (le_H x ++ le_H y) ++ fields ++ rest.
Proof. split; reflexivity. Qed.

(** For a TIM file with a CLUT, the palette count [_add_paths] records is
    read four bytes too far: it is the second color of the CLUT (or 1 when
    that color is 0), whatever the CLUT's height field and size; the depth it
    records is the one of the mode field, 24 for an unknown mode. *)
Theorem sniffed_palette_count_is_second_color
    (flags size x y w h c0 c1 : Z) (colors : list Z) (rest : list byte) :
  0 <= flags < 2 ^ 32 ->
  Z.land flags 0x08 <> 0 ->
  0 <= w < 2 ^ 16 -> 0 <= h < 2 ^ 16 ->
  0 <= c0 < 2 ^ 16 -> 0 <= c1 < 2 ^ 16 ->
  sniff_metadata (le_I 0x10 ++ le_I flags ++
                  clut_block size x y w h (c0 :: c1 :: colors) ++ rest)
  = (if c1 >? 0 then c1 else 1,
     match bpp_of_mode (Z.land flags 0x07) with
     | Some bpp => bpp
     | None => 24
     end).
Proof.
  intros Hflags Hclut Hw Hh Hc0 Hc1.
  unfold clut_block, tobytes_u16. cbn [flat_map]. fold (tobytes_u16 colors).
  rewrite <- !app_assoc.
  set (fields := le_H w ++ le_H h ++ le_H c0 ++ le_H c1).
  set (tail := tobytes_u16 colors ++ rest).
  change (le_H x ++ le_H y ++ le_H w ++ le_H h ++ le_H c0 ++ le_H c1 ++ tail)
    with ((le_H x ++ le_H y) ++ fields ++ tail).
  destruct (sniff_offsets 0x10 flags size x y fields tail) as [H4 H12].
  cbv zeta in H4, H12.
  unfold sniff_metadata, run. cbv zeta.
  rewrite bind_seek, H4.
  rewrite (bind_ok _ _ _ _ _ (f_read_app 4 (le_I flags) _ eq_refl)).
  rewrite (bind_lift_ok _ _ _ _ (unpack_I_le_I flags Hflags)).
  destruct (Z.eqb_spec (Z.land flags 8) 0); [contradiction|]. cbn [negb].
  rewrite bind_seek, H12.
  rewrite (bind_ok _ _ _ _ _ (f_read_app 4 (le_H x ++ le_H y) _ eq_refl)).
  rewrite (bind_lift_ok _ _ _ (le_bytes (le_H x ++ le_H y))) by reflexivity.
  rewrite (bind_ok _ _ _ _ _ (f_read_app 8 fields tail eq_refl)).
  subst fields.
  rewrite (bind_lift_ok _ _ _ _ (unpack_4H_le_H w h c0 c1 Hw Hh Hc0 Hc1)).
  reflexivity.
Qed.

Lemma sniffed_palette_count_is_second_color_witness :
  sniff_metadata (le_I 0x10 ++ le_I 0x08 ++
                  clut_block 20 0 0 2 2 (0 :: 0x7FFF :: [0x1F; 0x3E0]) ++
                  [x0e; x00; x00; x00;  x00; x00; x00; x00; x01; x00; x01; x00;
                   x10; x01])
  = (if 0x7FFF >? 0 then 0x7FFF else 1,
     match bpp_of_mode (Z.land 0x08 0x07) with
     | Some bpp => bpp
     | None => 24
     end).
Proof.
  apply (sniffed_palette_count_is_second_color 0x08 20 0 0 2 2 0 0x7FFF);
    vm_compute; intuition discriminate.
Defined.

Lemma clut_of_cons (bpp : Z) (palette : list byte) :
  bpp = 4 \/ bpp = 8 ->
  exists tl, clut_of bpp palette =
             clut_entry palette 0 :: clut_entry palette 1 :: tl.
Proof.
  intros [-> | ->]; unfold clut_of; cbn [Z.eqb Pos.eqb].
  - change (range 16) with (0 :: 1 :: map Z.of_nat (seq 2 14)).
    cbn [map]. eexists. reflexivity.
  - change (range 256) with (0 :: 1 :: map Z.of_nat (seq 2 254)).
    cbn [map]. eexists. reflexivity.
Qed.

(** For a file written by [image_to_tim] the palette preview draws nothing,
    whatever the selected row and the canvas size: the preview takes the CLUT
    origin (0, 0) for the block size, asks the file for -12 bytes, and the
    exception is swallowed. *)
Theorem palette_preview_empty_for_written_files
    (image : PImage) (bpp : Z) (out : list byte) (sel_row canvas_w canvas_h : Z) :
  image_to_tim image bpp = Ok out ->
  palette_preview out sel_row canvas_w canvas_h = [].
Proof.
  intros H. apply image_to_tim_inv in H.
  destruct H as (Hbpp & w_words & pb & _ & -> & _).
  destruct (clut_of_cons bpp (p_palette image) Hbpp) as (tl & Hclut).
  unfold tim_layout. rewrite Hclut.
  set (flags := Z.lor 8 (if bpp =? 4 then 0 else 1)).
  assert (Hflags : 0 <= flags < 2 ^ 32 /\ Z.land flags 8 <> 0)
    by (subst flags; destruct Hbpp as [-> | ->]; vm_compute; intuition discriminate).
  unfold tobytes_u16 at 2. cbn [flat_map]. fold (tobytes_u16 tl).
  rewrite <- !app_assoc.
  set (fields := le_H (if bpp =? 4 then 16 else 256) ++ le_H 1 ++
                 le_H (clut_entry (p_palette image) 0) ++
                 le_H (clut_entry (p_palette image) 1)).
  match goal with
  | |- palette_preview (_ ++ _ ++ ?sz ++ _ ++ _ ++ _ ++ _ ++ _ ++ _ ++ ?tail) _ _ _ = _ =>
      change (palette_preview
                (le_I 0x10 ++ le_I flags ++ sz ++ (le_H 0 ++ le_H 0) ++ fields ++ tail)
                sel_row canvas_w canvas_h = [])
  end.
  match goal with
  | |- palette_preview (_ ++ _ ++ le_I ?size ++ _ ++ _ ++ ?tail) _ _ _ = _ =>
      destruct (sniff_offsets 0x10 flags size 0 0 fields tail) as [H4 H12];
      set (rest := tail) in *
  end.
  cbv zeta in H4, H12.
  unfold palette_preview, run. cbv zeta.
  rewrite bind_seek, H4.
  rewrite (bind_ok _ _ _ _ _ (f_read_app 4 (le_I flags) _ eq_refl)).
  rewrite (bind_lift_ok _ _ _ _ (unpack_I_le_I flags (proj1 Hflags))).
  destruct (Z.eqb_spec (Z.land flags 8) 0); [now destruct Hflags|].
  rewrite bind_seek, H12.
  rewrite (bind_ok _ _ _ _ _ (f_read_app 4 (le_H 0 ++ le_H 0) _ eq_refl)).
  rewrite (bind_lift_ok _ _ _ 0) by reflexivity.
  rewrite (bind_ok _ _ _ _ _ (f_read_app 8 fields rest eq_refl)).
  destruct (unpack_4H_total fields eq_refl) as (a & b & c & d & Hu).
  rewrite (bind_lift_ok _ _ _ _ Hu). cbv beta iota.
  rewrite (bind_err (f_read (0 - 12)) _ _ ValueError) by reflexivity.
  reflexivity.
Qed.

Lemma palette_preview_empty_for_written_files_witness :
  palette_preview (tim_layout 4 (clut_of 4 [xff; x80; x08]) 1 1 [x21; x43]) 0 400 60
  = [].
Proof.
  apply (palette_preview_empty_for_written_files
           (mkPImage 4 1 [xff; x80; x08] [x01; x02; x03; x04]) 4).
  vm_compute. reflexivity.
Defined.

(** A click on the palette preview never makes the palette index negative,
    for any file and any click; on a file with a CLUT the index becomes the
    clicked column clamped to [0, c0 - 1], where [c0] is the first color of
    the CLUT (read where the method expects the CLUT width), and stays as it
    was when that color is 0. *)
Theorem palette_click_clamps :
  (forall file clicked_col palette_index,
     0 <= palette_index -> 0 <= palette_click file clicked_col palette_index) /\
  (forall flags size x y w h c0 c1 colors rest clicked_col palette_index,
     0 <= flags < 2 ^ 32 ->
     Z.land flags 0x08 <> 0 ->
     0 <= w < 2 ^ 16 -> 0 <= h < 2 ^ 16 ->
     0 <= c0 < 2 ^ 16 -> 0 <= c1 < 2 ^ 16 ->
     palette_click (le_I 0x10 ++ le_I flags ++
                    clut_block size x y w h (c0 :: c1 :: colors) ++ rest)
                   clicked_col palette_index
     = if c0 <=? 0 then palette_index
       else Z.max 0 (Z.min clicked_col (c0 - 1))).
Proof.
  split.
  - intros file col old Hold. unfold palette_click, run.
    match goal with
    | |- 0 <= match (match ?m with _ => _ end) with _ => _ end =>
        destruct m as [[n s]|e] eqn:E; [|exact Hold]
    end.
    unfold bind, f_seek, lift, ret in E.
    repeat match type of E with
           | context [match ?x with _ => _ end] => destruct x; try discriminate
           end;
      injection E as <- _; lia.
  - intros flags size x y w h c0 c1 colors rest col old
           Hflags Hclut Hw Hh Hc0 Hc1.
    unfold clut_block, tobytes_u16. cbn [flat_map]. fold (tobytes_u16 colors).
    rewrite <- !app_assoc.
    set (fields := le_H w ++ le_H h ++ le_H c0 ++ le_H c1).
    set (tail := tobytes_u16 colors ++ rest).
    change (le_H x ++ le_H y ++ le_H w ++ le_H h ++ le_H c0 ++ le_H c1 ++ tail)
      with ((le_H x ++ le_H y) ++ fields ++ tail).
    destruct (sniff_offsets 0x10 flags size x y fields tail) as [H4 H12].
    cbv zeta in H4, H12.
    unfold palette_click, run. cbv zeta.
    rewrite bind_seek, H4.
    rewrite (bind_ok _ _ _ _ _ (f_read_app 4 (le_I flags) _ eq_refl)).
    rewrite (bind_lift_ok _ _ _ _ (unpack_I_le_I flags Hflags)).
    destruct (Z.eqb_spec (Z.land flags 8) 0); [contradiction|].
    rewrite bind_seek, H12.
    rewrite (bind_ok _ _ _ _ _ (f_read_app 4 (le_H x ++ le_H y) _ eq_refl)).
    rewrite (bind_lift_ok _ _ _ (le_bytes (le_H x ++ le_H y))) by reflexivity.
    rewrite (bind_ok _ _ _ _ _ (f_read_app 8 fields tail eq_refl)).
    subst fields.
    rewrite (bind_lift_ok _ _ _ _ (unpack_4H_le_H w h c0 c1 Hw Hh Hc0 Hc1)).
    cbv beta iota. now destruct (c0 <=? 0).
Qed.

Lemma palette_click_clamps_witness :
  0 <= palette_click two_row_tim 5 0 /\
  palette_click (le_I 0x10 ++ le_I 0x08 ++
                 clut_block 20 0 0 2 2 (3 :: 0x7FFF :: [0x1F; 0x3E0]) ++ [])
                5 0
  = if 3 <=? 0 then 0 else Z.max 0 (Z.min 5 (3 - 1)).
Proof.
  split.
  - apply (proj1 palette_click_clamps two_row_tim 5 0). lia.
  - apply (proj2 palette_click_clamps 0x08 20 0 0 2 2 3 0x7FFF [0x1F; 0x3E0] [] 5 0);
      vm_compute; intuition discriminate.
Defined.

(** * Dropped paths *)

Lemma dnd_push_clean (paths : list (list ascii)) (cur : list ascii) :
  Forall dnd_clean paths ->
  ~ In "{"%char cur -> ~ In "}"%char cur ->
  Forall dnd_clean (dnd_push paths cur).
Proof.
  intros Hpaths Hopen Hclose. destruct cur as [|c cur]; [exact Hpaths|].
  unfold dnd_push. apply Forall_app. split; [exact Hpaths|].
  constructor; [|constructor]. repeat split; [discriminate | exact Hopen | exact Hclose].
Qed.

Lemma dnd_step_clean (st : dnd_state) (ch : ascii) :
  Forall dnd_clean (dnd_paths st) ->
  ~ In "{"%char (dnd_cur st) -> ~ In "}"%char (dnd_cur st) ->
  Forall dnd_clean (dnd_paths (dnd_step st ch)) /\
  ~ In "{"%char (dnd_cur (dnd_step st ch)) /\
  ~ In "}"%char (dnd_cur (dnd_step st ch)).
Proof.
  intros Hpaths Hopen Hclose. unfold dnd_step.
  destruct (Ascii.eqb_spec ch "{"); [cbn; tauto|].
  destruct (Ascii.eqb_spec ch "}");
    [cbn [dnd_paths dnd_cur]; split; [now apply dnd_push_clean | cbn; tauto]|].
  destruct (Ascii.eqb ch " " && negb (dnd_in_brace st));
    cbn [dnd_paths dnd_cur].
  - split; [now apply dnd_push_clean | cbn; tauto].
  - split; [exact Hpaths|].
    split; intros Hin; apply in_app_or in Hin;
      destruct Hin as [Hin | [Hin | []]]; congruence || tauto.
Qed.

Lemma dnd_fold_clean (data : list ascii) (st : dnd_state) :
  Forall dnd_clean (dnd_paths st) ->
  ~ In "{"%char (dnd_cur st) -> ~ In "}"%char (dnd_cur st) ->
  let st' := fold_left dnd_step data st in
  Forall dnd_clean (dnd_paths st') /\
  ~ In "{"%char (dnd_cur st') /\ ~ In "}"%char (dnd_cur st').
Proof.
  revert st. induction data as [|ch data IH]; intros st Hpaths Hopen Hclose.
  - cbn. tauto.
  - cbn [fold_left].
    destruct (dnd_step_clean st ch Hpaths Hopen Hclose) as (H1 & H2 & H3).
    now apply IH.
Qed.

(** Whatever is dropped, no path handed on is empty and none holds a brace. *)
Theorem dropped_paths_clean (data : list ascii) :
  Forall (fun path => path <> [] /\ ~ In "{"%char path /\ ~ In "}"%char path)
         (on_dnd_paths data).
Proof.
  unfold on_dnd_paths. cbv zeta.
  destruct (dnd_fold_clean data (mkDnd [] [] false)) as (H1 & H2 & H3);
    [constructor | cbn; tauto | cbn; tauto |].
  now apply dnd_push_clean.
Qed.

Lemma dnd_fold_in_brace (w : list ascii) (paths : list (list ascii))
    (cur : list ascii) :
  ~ In "{"%char w -> ~ In "}"%char w ->
  fold_left dnd_step w (mkDnd paths cur true) = mkDnd paths (cur ++ w) true.
Proof.
  revert cur. induction w as [|ch w IH]; intros cur Hopen Hclose.
  - cbn. now rewrite app_nil_r.
  - cbn [fold_left]. unfold dnd_step at 2. cbn [dnd_paths dnd_cur dnd_in_brace].
    destruct (Ascii.eqb_spec ch "{"); [subst; cbn in Hopen; tauto|].
    destruct (Ascii.eqb_spec ch "}"); [subst; cbn in Hclose; tauto|].
    rewrite andb_false_r.
    rewrite IH by (cbn in Hopen, Hclose; tauto).
    now rewrite <- app_assoc.
Qed.

Lemma dnd_fold_plain (w : list ascii) (paths : list (list ascii))
    (cur : list ascii) :
  ~ In "{"%char w -> ~ In "}"%char w -> existsb (Ascii.eqb " ") w = false ->
  fold_left dnd_step w (mkDnd paths cur false) = mkDnd paths (cur ++ w) false.
Proof.
  revert cur. induction w as [|ch w IH]; intros cur Hopen Hclose Hspace.
  - cbn. now rewrite app_nil_r.
  - cbn [fold_left]. unfold dnd_step at 2. cbn [dnd_paths dnd_cur dnd_in_brace].
    cbn [existsb] in Hspace. apply orb_false_elim in Hspace.
    destruct Hspace as [Hch Hspace].
    destruct (Ascii.eqb_spec ch "{"); [subst; cbn in Hopen; tauto|].
    destruct (Ascii.eqb_spec ch "}"); [subst; cbn in Hclose; tauto|].
    rewrite Ascii.eqb_sym in Hch. rewrite Hch. cbn [andb].
    rewrite IH by (cbn in Hopen, Hclose; tauto).
    now rewrite <- app_assoc.
Qed.

Lemma dnd_step_open (paths : list (list ascii)) (cur : list ascii) (b : bool) :
  dnd_step (mkDnd paths cur b) "{" = mkDnd paths [] true.
Proof. reflexivity. Qed.

Lemma dnd_step_close (paths : list (list ascii)) (cur : list ascii) (b : bool) :
  dnd_step (mkDnd paths cur b) "}" = mkDnd (dnd_push paths cur) [] false.
Proof. reflexivity. Qed.

Lemma dnd_step_space (paths : list (list ascii)) (cur : list ascii) :
  dnd_step (mkDnd paths cur false) " " = mkDnd (dnd_push paths cur) [] false.
Proof. reflexivity. Qed.

Lemma dnd_push_nonempty (paths : list (list ascii)) (cur : list ascii) :
  cur <> [] -> dnd_push paths cur = paths ++ [cur].
Proof. intros Hne. destruct cur; [contradiction | reflexivity]. Qed.

(** An item read from between items: a braced one is on the list when its
    closing brace has been read, a plain one is still being collected. *)
Lemma dnd_fold_item (name : list ascii) (paths : list (list ascii)) :
  dnd_clean name ->
  fold_left dnd_step (dnd_item name) (mkDnd paths [] false) =
  if existsb (Ascii.eqb " ") name
  then mkDnd (paths ++ [name]) [] false
  else mkDnd paths name false.
Proof.
  intros (Hne & Hopen & Hclose). unfold dnd_item.
  destruct (existsb (Ascii.eqb " ") name) eqn:Hspace.
  - cbn [fold_left]. rewrite dnd_step_open.
    rewrite fold_left_app, dnd_fold_in_brace by assumption.
    cbn [fold_left app]. rewrite dnd_step_close.
    now rewrite dnd_push_nonempty.
  - now rewrite dnd_fold_plain by assumption.
Qed.

(** After an item and the space that follows it, the item is on the list and
    the parser is back between items. *)
Lemma dnd_item_then_space (name : list ascii) (paths : list (list ascii)) :
  dnd_clean name ->
  fold_left dnd_step (dnd_item name ++ [" "%char]) (mkDnd paths [] false)
  = mkDnd (paths ++ [name]) [] false.
Proof.
  intros Hname. rewrite fold_left_app, dnd_fold_item by exact Hname.
  destruct Hname as (Hne & _).
  destruct (existsb (Ascii.eqb " ") name); cbn [fold_left];
    rewrite dnd_step_space; [reflexivity|].
  now rewrite dnd_push_nonempty.
Qed.

Lemma dnd_last_item (name : list ascii) (paths : list (list ascii)) :
  dnd_clean name ->
  let st := fold_left dnd_step (dnd_item name) (mkDnd paths [] false) in
  dnd_push (dnd_paths st) (dnd_cur st) = paths ++ [name].
Proof.
  intros Hname. cbv zeta. rewrite dnd_fold_item by exact Hname.
  destruct Hname as (Hne & _).
  destruct (existsb (Ascii.eqb " ") name); cbn [dnd_paths dnd_cur];
    [reflexivity | now apply dnd_push_nonempty].
Qed.

Lemma dnd_join_fold (names paths : list (list ascii)) :
  Forall dnd_clean names ->
  let st := fold_left dnd_step (dnd_join (map dnd_item names))
                      (mkDnd paths [] false) in
  dnd_push (dnd_paths st) (dnd_cur st) = paths ++ names.
Proof.
  revert paths. induction names as [|name names IH]; intros paths Hall.
  - cbn. now rewrite app_nil_r.
  - inversion Hall as [|? ? Hname Hrest]; subst.
    destruct names as [|name' names].
    + cbn [map dnd_join]. now apply dnd_last_item.
    + cbn zeta. change (dnd_join (map dnd_item (name :: name' :: names)))
        with (dnd_item name ++ " "%char :: dnd_join (map dnd_item (name' :: names))).
      change (dnd_item name ++ " "%char :: dnd_join (map dnd_item (name' :: names)))
        with (dnd_item name ++ [" "%char] ++ dnd_join (map dnd_item (name' :: names))).
      rewrite app_assoc, fold_left_app, dnd_item_then_space by exact Hname.
      specialize (IH (paths ++ [name]) Hrest). cbv zeta in IH. rewrite IH.
      now rewrite <- app_assoc.
Qed.

(** Names that are not empty and hold no brace, written one after the other
    with a single space between them and with braces around those that hold a
    space, are read back exactly, in order. *)
Theorem dropped_paths_roundtrip (names : list (list ascii)) :
  Forall (fun name => name <> [] /\ ~ In "{"%char name /\ ~ In "}"%char name)
         names ->
  on_dnd_paths (dnd_join (map dnd_item names)) = names.
Proof.
  intros Hall. unfold on_dnd_paths.
  exact (dnd_join_fold names [] Hall).
Qed.

Lemma dropped_paths_roundtrip_witness :
  on_dnd_paths (dnd_join (map dnd_item
      [["a"; " "; "b"]; ["c"]; ["d"; "."; "t"; "i"; "m"]]%char))
  = [["a"; " "; "b"]; ["c"]; ["d"; "."; "t"; "i"; "m"]]%char.
Proof.
  apply dropped_paths_roundtrip.
  repeat constructor; try discriminate; cbn; intuition discriminate.
Defined.

(** * The viewer's lists and counters *)

Lemma hex_digit_injective (d d' : Z) :
  0 <= d < 16 -> 0 <= d' < 16 -> hex_digit d = hex_digit d' -> d = d'.
Proof.
  intros Hd Hd' H.
  assert (Hc : d = 0 \/ d = 1 \/ d = 2 \/ d = 3 \/ d = 4 \/ d = 5 \/ d = 6 \/
               d = 7 \/ d = 8 \/ d = 9 \/ d = 10 \/ d = 11 \/ d = 12 \/
               d = 13 \/ d = 14 \/ d = 15) by lia.
  assert (Hc' : d' = 0 \/ d' = 1 \/ d' = 2 \/ d' = 3 \/ d' = 4 \/ d' = 5 \/
                d' = 6 \/ d' = 7 \/ d' = 8 \/ d' = 9 \/ d' = 10 \/ d' = 11 \/
                d' = 12 \/ d' = 13 \/ d' = 14 \/ d' = 15) by lia.
  clear Hd Hd'.
  repeat match goal with
         | Hx : _ \/ _ |- _ => destruct Hx as [Hx | Hx]
         end; subst; (reflexivity || (vm_compute in H; discriminate H)).
Qed.

Lemma hex_pair_injective (v v' : Z) :
  0 <= v <= 255 -> 0 <= v' <= 255 ->
  hex_digit (v / 16) = hex_digit (v' / 16) ->
  hex_digit (v mod 16) = hex_digit (v' mod 16) ->
  v = v'.
Proof.
  intros Hv Hv' Hhi Hlo.
  apply hex_digit_injective in Hhi; [|Z.to_euclidean_division_equations; lia ..].
  apply hex_digit_injective in Hlo; [|Z.to_euclidean_division_equations; lia ..].
  Z.to_euclidean_division_equations. lia.
Qed.

Lemma hex_value_digit (d : Z) :
  0 <= d < 16 -> hex_value (hex_digit d) = Some d.
Proof.
  intros Hd.
  assert (Hc : d = 0 \/ d = 1 \/ d = 2 \/ d = 3 \/ d = 4 \/ d = 5 \/ d = 6 \/
               d = 7 \/ d = 8 \/ d = 9 \/ d = 10 \/ d = 11 \/ d = 12 \/
               d = 13 \/ d = 14 \/ d = 15) by lia.
  clear Hd.
  repeat match goal with
         | Hx : _ \/ _ |- _ => destruct Hx as [Hx | Hx]
         end; subst; reflexivity.
Qed.

Lemma hex_byte_format (v : Z) :
  0 <= v <= 255 ->
  hex_byte (hex_digit (v / 16)) (hex_digit (v mod 16)) = Some v.
Proof.
  intros Hv. unfold hex_byte.
  rewrite !hex_value_digit by (Z.to_euclidean_division_equations; lia).
  f_equal. Z.to_euclidean_division_equations. lia.
Qed.

(** The fill string of a color is always "#" and six hexadecimal digits, in
    lower case, that spell, two by two, the red, green and blue channels
    clamped to [0,255]; so channels outside [0,255] are clamped, and two
    colors within range never share a string. *)
Theorem rgb_to_hex_faithful :
  (forall r g b,
     exists d1 d2 d3 d4 d5 d6,
       rgb_to_hex (r, g, b) = ["#"; d1; d2; d3; d4; d5; d6]%char /\
       hex_byte d1 d2 = Some (Z.max 0 (Z.min 255 r)) /\
       hex_byte d3 d4 = Some (Z.max 0 (Z.min 255 g)) /\
       hex_byte d5 d6 = Some (Z.max 0 (Z.min 255 b))) /\
  (forall r g b,
     length (rgb_to_hex (r, g, b)) = 7%nat /\
     rgb_to_hex (r, g, b) =
     rgb_to_hex (Z.max 0 (Z.min 255 r), Z.max 0 (Z.min 255 g), Z.max 0 (Z.min 255 b))) /\
  (forall r g b r' g' b',
     0 <= r <= 255 -> 0 <= g <= 255 -> 0 <= b <= 255 ->
     0 <= r' <= 255 -> 0 <= g' <= 255 -> 0 <= b' <= 255 ->
     rgb_to_hex (r, g, b) = rgb_to_hex (r', g', b') ->
     (r, g, b) = (r', g', b')).
Proof.
  split; [|split].
  - intros r g b. unfold rgb_to_hex, format_02x. cbn [app].
    do 6 eexists. split; [reflexivity|].
    repeat split; apply hex_byte_format; lia.
  - intros r g b. split; [reflexivity|]. unfold rgb_to_hex.
    now rewrite !(Z.max_r 0 (Z.min 255 (Z.max 0 _))), !(Z.min_r 255 (Z.max 0 _)) by lia.
  - intros r g b r' g' b' Hr Hg Hb Hr' Hg' Hb' H. unfold rgb_to_hex in H.
    rewrite !Z.min_r, !Z.max_r in H by lia.
    unfold format_02x in H. cbn [app] in H.
    injection H as H1 H2 H3 H4 H5 H6.
    rewrite (hex_pair_injective r r'), (hex_pair_injective g g'),
      (hex_pair_injective b b') by assumption.
    reflexivity.
Qed.

Lemma rgb_to_hex_faithful_witness :
  (exists d1 d2 d3 d4 d5 d6,
     rgb_to_hex (300, -5, 8) = ["#"; d1; d2; d3; d4; d5; d6]%char /\
     hex_byte d1 d2 = Some (Z.max 0 (Z.min 255 300)) /\
     hex_byte d3 d4 = Some (Z.max 0 (Z.min 255 (-5))) /\
     hex_byte d5 d6 = Some (Z.max 0 (Z.min 255 8))) /\
  (length (rgb_to_hex (300, -5, 8)) = 7%nat /\
   rgb_to_hex (300, -5, 8) =
   rgb_to_hex (Z.max 0 (Z.min 255 300), Z.max 0 (Z.min 255 (-5)),
               Z.max 0 (Z.min 255 8))) /\
  (248, 0, 8) = (248, 0, 8).
Proof.
  split; [|split].
  - apply (proj1 rgb_to_hex_faithful 300 (-5) 8).
  - apply (proj1 (proj2 rgb_to_hex_faithful) 300 (-5) 8).
  - apply (proj2 (proj2 rgb_to_hex_faithful) 248 0 8 248 0 8);
      (lia || reflexivity).
Defined.

(** With files loaded, [next_image] and [prev_image] always leave the index
    on a loaded file, wrap around at both ends, and undo each other. *)
Theorem image_navigation_cycles {A} (tim_files : list A) (i : Z) :
  tim_files <> [] ->
  let n := len tim_files in
  0 <= next_image tim_files i < n /\
  0 <= prev_image tim_files i < n /\
  next_image tim_files (n - 1) = 0 /\
  prev_image tim_files 0 = n - 1 /\
  (0 <= i < n ->
   prev_image tim_files (next_image tim_files i) = i /\
   next_image tim_files (prev_image tim_files i) = i).
Proof.
  intros Hne. cbv zeta.
  assert (Hn : 0 < len tim_files)
    by (destruct tim_files; [contradiction | unfold len; cbn [length]; lia]).
  assert (Hnext : forall j, next_image tim_files j = (j + 1) mod len tim_files)
    by (intros j; destruct tim_files; [contradiction | reflexivity]).
  assert (Hprev : forall j, prev_image tim_files j = (j - 1) mod len tim_files)
    by (intros j; destruct tim_files; [contradiction | reflexivity]).
  set (n := len tim_files) in *.
  rewrite !Hnext, !Hprev.
  split; [apply Z.mod_pos_bound; lia|].
  split; [apply Z.mod_pos_bound; lia|].
  split; [replace (n - 1 + 1) with n by lia; apply Z.mod_same; lia|].
  split.
  { replace (0 - 1) with (n - 1 + -1 * n) by lia.
    rewrite Z.mod_add by lia. apply Z.mod_small. lia. }
  intros Hi. split.
  - destruct (Z.eq_dec (i + 1) n) as [E | E].
    + rewrite E, Z.mod_same by lia.
      replace (0 - 1) with (n - 1 + -1 * n) by lia.
      rewrite Z.mod_add by lia. rewrite Z.mod_small; lia.
    + rewrite (Z.mod_small (i + 1)) by lia.
      replace (i + 1 - 1) with i by lia. apply Z.mod_small. lia.
  - destruct (Z.eq_dec i 0) as [E | E].
    + subst i. replace (0 - 1) with (n - 1 + -1 * n) by lia.
      rewrite Z.mod_add by lia. rewrite (Z.mod_small (n - 1)) by lia.
      replace (n - 1 + 1) with n by lia. apply Z.mod_same. lia.
    + rewrite (Z.mod_small (i - 1)) by lia.
      replace (i - 1 + 1) with i by lia. apply Z.mod_small. lia.
Qed.

Lemma image_navigation_cycles_witness :
  let n := len [4; 8; 16] in
  0 <= next_image [4; 8; 16] 2 < n /\
  0 <= prev_image [4; 8; 16] 2 < n /\
  next_image [4; 8; 16] (n - 1) = 0 /\
  prev_image [4; 8; 16] 0 = n - 1 /\
  (0 <= 2 < n ->
   prev_image [4; 8; 16] (next_image [4; 8; 16] 2) = 2 /\
   next_image [4; 8; 16] (prev_image [4; 8; 16] 2) = 2).
Proof.
  apply (image_navigation_cycles [4; 8; 16] 2). discriminate.
Defined.

(** ** The thumbnail grid *)

Lemma range_succ (n : Z) :
  0 <= n -> range (n + 1) = 0 :: map (fun j => j + 1) (range n).
Proof.
  intros Hn. unfold range.
  replace (Z.to_nat (n + 1)) with (S (Z.to_nat n)) by lia.
  cbn [seq map]. f_equal. rewrite <- seq_shift, !map_map.
  apply map_ext. intros k. lia.
Qed.

Lemma thumbnail_fold {A} (files : list A) (cells : list (Z * Z)) (k : Z) :
  0 <= k ->
  fold_left (fun (st : list (Z * Z) * Z * Z) (_ : A) =>
               let '(cells, cur_col, cur_row) := st in
               let cells := cells ++ [(cur_row, cur_col)] in
               let cur_col := cur_col + 1 in
               if cur_col >=? 3 then (cells, 0, cur_row + 1)
               else (cells, cur_col, cur_row))
            files (cells, k mod 3, k / 3)
  = (cells ++ map (fun j => ((k + j) / 3, (k + j) mod 3)) (range (len files)),
     (k + len files) mod 3, (k + len files) / 3).
Proof.
  revert cells k. induction files as [|f files IH]; intros cells k Hk.
  - cbn [fold_left]. change (len (@nil A)) with 0. cbn [range map].
    now rewrite app_nil_r, Z.add_0_r.
  - cbn [fold_left].
    assert (Hstep : (if k mod 3 + 1 >=? 3
                     then (cells ++ [(k / 3, k mod 3)], 0, k / 3 + 1)
                     else (cells ++ [(k / 3, k mod 3)], k mod 3 + 1, k / 3))
                    = (cells ++ [(k / 3, k mod 3)], (k + 1) mod 3, (k + 1) / 3)).
    { destruct (Z.geb_spec (k mod 3 + 1) 3).
      - replace ((k + 1) mod 3) with 0 by (Z.to_euclidean_division_equations; lia).
        replace ((k + 1) / 3) with (k / 3 + 1)
          by (Z.to_euclidean_division_equations; lia).
        reflexivity.
      - replace ((k + 1) mod 3) with (k mod 3 + 1)
          by (Z.to_euclidean_division_equations; lia).
        replace ((k + 1) / 3) with (k / 3)
          by (Z.to_euclidean_division_equations; lia).
        reflexivity. }
    rewrite Hstep, IH by lia.
    replace (len (f :: files)) with (len files + 1)
      by (unfold len; cbn [length]; lia).
    rewrite range_succ by apply len_nonneg.
    cbn [map]. rewrite Z.add_0_r, <- app_assoc. cbn [app]. rewrite map_map.
    replace (k + 1 + len files) with (k + (len files + 1)) by lia.
    do 4 f_equal.
    apply map_ext. intros j. now replace (k + 1 + j) with (k + (j + 1)) by lia.
Qed.

(** Thumbnails are laid out three to a row in the order of the files:
    thumbnail [i] is in row [i / 3], column [i mod 3]. *)
Theorem thumbnail_grid_three_columns {A} (tim_files : list A) :
  thumbnail_cells tim_files =
  map (fun i => (i / 3, i mod 3)) (range (len tim_files)).
Proof.
  unfold thumbnail_cells. cbv zeta.
  pose proof (thumbnail_fold tim_files [] 0 ltac:(lia)) as H.
  change (0 mod 3) with 0 in H. change (0 / 3) with 0 in H.
  cbv zeta in H. rewrite H. cbn [app]. apply map_ext. intros i. reflexivity.
Qed.

(** ** Removing a file *)

Lemma list_pop_in_bounds {A} (l : list A) (i : Z) :
  0 <= i < len l -> list_pop l i = Ok (without i l).
Proof.
  intros Hi. unfold list_pop.
  destruct (Z.leb_spec 0 i); [|lia]. destruct (Z.ltb_spec i (len l)); [|lia].
  reflexivity.
Qed.

Lemma len_without {A} (l : list A) (i : Z) :
  0 <= i < len l -> len (without i l) = len l - 1.
Proof.
  intros Hi. unfold without, len in *.
  rewrite length_app, length_firstn, length_skipn. lia.
Qed.

Lemma combine_without_nat {A B} (k : nat) (a : list A) (b : list B) :
  length a = length b ->
  combine (firstn k a ++ skipn (S k) a) (firstn k b ++ skipn (S k) b)
  = firstn k (combine a b) ++ skipn (S k) (combine a b).
Proof.
  revert a b. induction k as [|k IH]; intros a b Hlen.
  - destruct a, b; try discriminate; reflexivity.
  - destruct a as [|x a], b as [|y b]; try discriminate; [reflexivity|].
    cbn [firstn skipn app combine]. f_equal. apply IH.
    cbn [length] in Hlen. lia.
Qed.

Lemma combine_without {A B} (i : Z) (a : list A) (b : list B) :
  len a = len b ->
  combine (without i a) (without i b) = without i (combine a b).
Proof.
  intros Hlen. unfold without. apply combine_without_nat.
  unfold len in Hlen. lia.
Qed.

Lemma len_combine {A B} (a : list A) (b : list B) :
  len a = len b -> len (combine a b) = len a.
Proof. unfold len. intros H. rewrite length_combine. lia. Qed.

(** Removing the selected file from a viewer whose lists are in step removes
    the same entry from all five lists: every remaining file keeps its own
    type, palette count, palette index and depth, the lists stay in step, and
    the file then on display is the one before the removed one (the first
    when the first was removed), which exists as long as a file is left. *)
Theorem context_remove_keeps_rows (v : viewer) (idx n : Z) :
  aligned n v ->
  0 <= idx < n ->
  exists v',
    context_remove (Some idx) v = Ok v' /\
    aligned (n - 1) v' /\
    viewer_rows v' = without idx (viewer_rows v) /\
    index_ v' = Z.max 0 (idx - 1) /\
    (1 < n -> 0 <= index_ v' < n - 1).
Proof.
  intros (H1 & H2 & H3 & H4 & H5) Hidx.
  unfold context_remove.
  rewrite !list_pop_in_bounds by lia. cbn [rbind].
  eexists. split; [reflexivity|].
  split; [|split; [|split]].
  - unfold aligned. cbn [tim_files file_types palettes palette_indices bpp_modes].
    rewrite !len_without by lia. lia.
  - unfold viewer_rows.
    cbn [tim_files file_types palettes palette_indices bpp_modes].
    rewrite !combine_without; [reflexivity | | | |];
      repeat rewrite len_combine; lia.
  - reflexivity.
  - cbn [index_]. lia.
Qed.

Lemma context_remove_keeps_rows_witness :
  exists v',
    context_remove (Some 1)
      (mkViewer [["a"]; ["b"]; ["c"]]%char [["t"]; ["p"]; ["t"]]%char
                [1; 2; 3] [0; 1; 2] [4; 8; 16] 1) = Ok v' /\
    aligned (3 - 1) v' /\
    viewer_rows v' =
      without 1 (viewer_rows
        (mkViewer [["a"]; ["b"]; ["c"]]%char [["t"]; ["p"]; ["t"]]%char
                  [1; 2; 3] [0; 1; 2] [4; 8; 16] 1)) /\
    index_ v' = Z.max 0 (1 - 1) /\
    (1 < 3 -> 0 <= index_ v' < 3 - 1).
Proof.
  apply (context_remove_keeps_rows
           (mkViewer [["a"]; ["b"]; ["c"]]%char [["t"]; ["p"]; ["t"]]%char
                     [1; 2; 3] [0; 1; 2] [4; 8; 16] 1) 1 3).
  - repeat split.
  - lia.
Defined.

(** * Where the decoder's errors come from *)

Lemma mapM_error {A B} (f : A -> result B) (l : list A) (e : error) :
  mapM f l = Err e -> exists x, In x l /\ f x = Err e.
Proof.
  induction l as [|a l IH]; cbn [mapM]; [discriminate|].
  destruct (f a) as [b|e'] eqn:Ea; cbn [rbind].
  - destruct (mapM f l) as [bs|e'']; cbn [rbind]; [discriminate|].
    intros H. injection H as ->. destruct (IH eq_refl) as (x & Hin & Hx).
    exists x. split; [now right | exact Hx].
  - intros H. injection H as ->. exists a. split; [now left | exact Ea].
Qed.

Lemma index_error {A} (d : A) (a : list A) (i : Z) (e : error) :
  index d a i = Err e -> e = IndexError.
Proof.
  unfold index. destruct (_ && _); [discriminate|].
  destruct (_ && _); [discriminate|]. congruence.
Qed.

Lemma gather_error (palette pixels : list Z) (e : error) :
  gather palette pixels = Err e -> e = IndexError.
Proof.
  unfold gather. intros H. apply mapM_error in H.
  destruct H as (x & _ & Hx). now apply index_error in Hx.
Qed.

Lemma frombuffer_u16_error (data : list byte) (e : error) :
  frombuffer_u16 data = Err e -> e = ValueError.
Proof.
  destruct (Nat.Even_or_Odd (length data)) as [[n Hn] | [n Hn]].
  - destruct (frombuffer_u16_even _ _ Hn) as (a & -> & _). discriminate.
  - rewrite (frombuffer_u16_odd _ _ Hn). congruence.
Qed.

Lemma decode_pixels_error (bpp : Z) (sel : option (list Z)) (w h : Z)
    (raw_data : list byte) (e : error) :
  decode_pixels bpp sel w h raw_data = Err e ->
  e = IndexError \/ e = ValueError \/
  (e = NotImplementedError /\ bpp <> 4 /\ bpp <> 8 /\ bpp <> 16 /\ bpp <> 24).
Proof.
  unfold decode_pixels. intros H.
  destruct (Z.eqb_spec bpp 4).
  { left. destruct (unpack_4bpp _ _) as [pixels|e'] eqn:Epix; cbn [rbind] in H.
    - destruct sel as [palette|];
        (destruct (gather _ pixels) as [cv|e''] eqn:Ecv; cbn [rbind] in H;
         [discriminate|]);
        injection H as ->; now apply gather_error in Ecv.
    - injection H as ->. unfold unpack_4bpp in Epix. apply mapM_error in Epix.
      destruct Epix as (i & _ & Hi).
      destruct (index 0 _ (i / 2)) as [byte|e''] eqn:Eidx; cbn [rbind] in Hi;
        [discriminate|].
      injection Hi as ->. now apply index_error in Eidx. }
  destruct (Z.eqb_spec bpp 8).
  { destruct (negb _); [right; left; congruence|].
    destruct (gather _ _) as [cv|e'] eqn:Ecv; cbn [rbind] in H; [discriminate|].
    injection H as ->. left. now apply gather_error in Ecv. }
  destruct (Z.eqb_spec bpp 16).
  { right. left.
    destruct (frombuffer_u16 _) as [a|e'] eqn:Ea; cbn [rbind] in H.
    - destruct (negb _); [congruence | discriminate].
    - injection H as ->. now apply frombuffer_u16_error in Ea. }
  destruct (Z.eqb_spec bpp 24).
  { right. left. destruct (_ <? _); [congruence | discriminate]. }
  right. right. injection H as <-. tauto.
Qed.

Lemma unpack_I_error (bs : list byte) (e : error) :
  unpack_I bs = Err e -> e = StructError.
Proof.
  unfold unpack_I. destruct bs as [|a [|b [|c [|d [|? ?]]]]]; congruence.
Qed.

Lemma unpack_4H_error (bs : list byte) (e : error) :
  unpack_4H bs = Err e -> e = StructError.
Proof.
  unfold unpack_4H.
  destruct bs as [|a0 [|a1 [|b0 [|b1 [|c0 [|c1 [|d0 [|d1 [|? ?]]]]]]]]];
    congruence.
Qed.

Lemma f_read_error (n : Z) (s : list byte) (e : error) :
  f_read n s = Err e -> e = ValueError.
Proof.
  unfold f_read. destruct (n <? -1); [congruence|].
  destruct (n =? -1); discriminate.
Qed.

Lemma read_clut_error (s : list byte) (e : error) :
  read_clut s = Err e -> e = StructError \/ e = ValueError.
Proof.
  unfold read_clut, bind. intros H.
  destruct (f_read 4 s) as [[bs s1]|e1] eqn:E1;
    [|injection H as <-; right; now apply f_read_error in E1].
  unfold lift in H.
  destruct (unpack_I bs) as [sz|e2] eqn:E2;
    [|injection H as <-; left; now apply unpack_I_error in E2].
  destruct (f_read 8 s1) as [[bs' s2]|e3] eqn:E3;
    [|injection H as <-; right; now apply f_read_error in E3].
  destruct (unpack_4H bs') as [[[[cx cy] cw] ch]|e4] eqn:E4;
    [|injection H as <-; left; now apply unpack_4H_error in E4].
  destruct (f_read (sz - 12) s2) as [[data s3]|e5] eqn:E5;
    [|injection H as <-; right; now apply f_read_error in E5].
  destruct (frombuffer_u16 data) as [colors|e6] eqn:E6;
    [discriminate|injection H as <-; right; now apply frombuffer_u16_error in E6].
Qed.

Lemma read_header_ok_bpp (s : list byte) (bpp : Z) (has_clut : bool)
    (s' : list byte) :
  read_header s = Ok ((bpp, has_clut), s') ->
  bpp = 4 \/ bpp = 8 \/ bpp = 16 \/ bpp = 24.
Proof.
  unfold read_header, bind, lift. intros H.
  destruct (f_read 4 s) as [[bs s1]|e1]; [|discriminate].
  destruct (unpack_I bs) as [magic|e2]; [|discriminate].
  destruct (negb (magic =? 16)); [discriminate|].
  destruct (f_read 4 s1) as [[bs' s2]|e3]; [|discriminate].
  destruct (unpack_I bs') as [flags|e4]; [|discriminate].
  unfold bpp_of_mode in H.
  repeat match type of H with
         | context [if ?c then _ else _] => destruct c
         end; inversion H; tauto.
Qed.

Lemma read_header_error (s : list byte) (e : error) :
  read_header s = Err e ->
  (e = BadMagic /\ exists a b c d rest,
      s = a :: b :: c :: d :: rest /\ le_bytes [a; b; c; d] <> 0x10) \/
  e = UnsupportedBppMode \/ e = StructError.
Proof.
  unfold read_header, bind, lift. intros H.
  unfold f_read at 1 in H. cbn [Z.ltb Z.eqb Z.compare] in H.
  destruct (unpack_I (firstn (Z.to_nat 4) s)) as [magic|e2] eqn:E2;
    [|injection H as <-; right; right; now apply unpack_I_error in E2].
  destruct (Z.eqb_spec magic 16) as [Hm | Hm]; cbn [negb] in H.
  - unfold f_read at 1 in H. cbn [Z.ltb Z.eqb Z.compare] in H.
    destruct (unpack_I _) as [flags|e4] eqn:E4 in H;
      [|injection H as <-; right; right; now apply unpack_I_error in E4].
    destruct (bpp_of_mode _); [discriminate|].
    injection H as <-. right. now left.
  - injection H as <-. left. split; [reflexivity|].
    destruct s as [|a [|b [|c [|d rest]]]]; try discriminate.
    exists a, b, c, d, rest. split; [reflexivity|].
    change (firstn (Z.to_nat 4) (a :: b :: c :: d :: rest)) with [a; b; c; d] in E2.
    unfold unpack_I in E2. congruence.
Qed.

Lemma select_palette_error (clut : list (list Z)) (p : Z) (e : error) :
  select_palette clut p = Err e -> e = IndexError.
Proof. unfold select_palette. apply index_error. Qed.

(** Every failure of [read_tim] comes from the header, or is one of
    [struct.error], ValueError and IndexError, or is the failure of the pixel
    decoder on one of the four depths. *)
Lemma read_tim_err_inv (file : list byte) (p : Z) (e : error) :
  read_tim file p = Err e ->
  read_header file = Err e \/
  e = StructError \/ e = ValueError \/ e = IndexError \/
  exists bpp sel w h raw_data,
    (bpp = 4 \/ bpp = 8 \/ bpp = 16 \/ bpp = 24) /\
    decode_pixels bpp sel w h raw_data = Err e.
Proof.
  unfold read_tim, run. intros H.
  destruct (read_header file) as [[[bpp has_clut] s0]|e0] eqn:Ehdr;
    [|rewrite (bind_err _ _ _ _ Ehdr) in H; left; congruence].
  right. apply read_header_ok_bpp in Ehdr as Hbpp.
  rewrite (bind_ok _ _ _ _ _ Ehdr) in H. cbv beta iota in H.
  unfold bind at 1 in H.
  match type of H with
  | context [(if has_clut then ?a else ?b) s0] =>
      destruct ((if has_clut then a else b) s0) as [[sel s1]|e1] eqn:Epal
  end.
  2: { injection H as <-. destruct has_clut; [|discriminate].
       unfold bind in Epal.
       destruct (read_clut s0) as [[clut s']|e2] eqn:Eclut.
       - unfold lift in Epal.
         destruct (select_palette clut p) as [row|e3] eqn:Esel; [discriminate|].
         injection Epal as <-. apply select_palette_error in Esel. tauto.
       - injection Epal as <-. apply read_clut_error in Eclut. tauto. }
  unfold bind at 1 in H. unfold f_read at 1 in H. cbn [Z.ltb Z.eqb Z.compare] in H.
  rewrite bind_lift in H.
  destruct (unpack_I _) as [sz|e2] eqn:E2;
    [|injection H as <-; apply unpack_I_error in E2; tauto].
  unfold bind at 1 in H. unfold f_read at 1 in H. cbn [Z.ltb Z.eqb Z.compare] in H.
  rewrite bind_lift in H.
  destruct (unpack_4H _) as [[[[x y] w_words] h]|e3] eqn:E3;
    [|injection H as <-; apply unpack_4H_error in E3; tauto].
  unfold bind, f_read_all, lift in H.
  destruct (decode_pixels _ _ _ _ _) as [img|e4] eqn:Edec; [discriminate|].
  injection H as <-. right. right. right. eauto 10.
Qed.

(** [read_tim] never raises NotImplementedError: its last branch is dead,
    the depth being one of 4, 8, 16 and 24 once the header is accepted.  And
    it reports a bad magic only for a file of four bytes or more whose first
    four do not read 0x10. *)
Theorem read_tim_error_kinds (file : list byte) (p : Z) (e : error) :
  read_tim file p = Err e ->
  e <> NotImplementedError /\
  (e = BadMagic ->
   exists a b c d rest,
     file = a :: b :: c :: d :: rest /\ le_bytes [a; b; c; d] <> 0x10).
Proof.
  intros H. apply read_tim_err_inv in H.
  destruct H as [H | [-> | [-> | [-> | (bpp & sel & w & h & raw & Hbpp & H)]]]];
    try (split; [discriminate | discriminate]).
  - apply read_header_error in H.
    destruct H as [[-> Hmagic] | [-> | ->]];
      (split; [discriminate|]); [intros _; exact Hmagic | discriminate ..].
  - apply decode_pixels_error in H.
    destruct H as [-> | [-> | (-> & H4 & H8 & H16 & H24)]];
      try (split; discriminate).
    lia.
Qed.

Lemma read_tim_error_kinds_witness :
  IndexError <> NotImplementedError /\
  (IndexError = BadMagic ->
   exists a b c d rest,
     two_row_tim = a :: b :: c :: d :: rest /\ le_bytes [a; b; c; d] <> 0x10).
Proof.
  apply (read_tim_error_kinds two_row_tim (-3) IndexError). reflexivity.
Defined.

Lemma read_tim_bad_magic (a b c d : byte) (rest : list byte) (p : Z) :
  le_bytes [a; b; c; d] <> 0x10 ->
  read_tim (a :: b :: c :: d :: rest) p = Err BadMagic.
Proof.
  intros Hmagic. unfold read_tim, run.
  change (a :: b :: c :: d :: rest) with ([a; b; c; d] ++ rest).
  rewrite (bind_err read_header _ _ BadMagic); [reflexivity|].
  unfold read_header.
  rewrite (bind_ok _ _ _ _ _ (f_read_app 4 [a; b; c; d] rest eq_refl)).
  rewrite (bind_lift_ok _ _ _ (le_bytes [a; b; c; d])) by reflexivity.
  destruct (Z.eqb_spec (le_bytes [a; b; c; d]) 0x10); [contradiction|].
  reflexivity.
Qed.

Lemma tim_magic_ok_cons (a b c d : byte) (rest : list byte) :
  tim_magic_ok (a :: b :: c :: d :: rest) = (le_bytes [a; b; c; d] =? 0x10).
Proof.
  unfold tim_magic_ok, run.
  change (a :: b :: c :: d :: rest) with ([a; b; c; d] ++ rest).
  rewrite (bind_ok _ _ _ _ _ (f_read_app 4 [a; b; c; d] rest eq_refl)).
  rewrite (bind_lift_ok _ _ _ (le_bytes [a; b; c; d])) by reflexivity.
  now destruct (le_bytes [a; b; c; d] =? 16).
Qed.

(** The magic check of the file list and the decoder agree on the magic: a file put
    on the list is never refused for its magic when displayed, a file kept
    off the list could not have been decoded, and every file [image_to_tim]
    writes is put on the list. *)
Theorem listed_files_have_good_magic :
  (forall file p, tim_magic_ok file = true -> read_tim file p <> Err BadMagic) /\
  (forall file p, tim_magic_ok file = false ->
     read_tim file p = Err BadMagic \/ read_tim file p = Err StructError) /\
  (forall image bpp out, image_to_tim image bpp = Ok out -> tim_magic_ok out = true).
Proof.
  split; [|split].
  - intros file p Hok Hbad.
    apply read_tim_err_inv in Hbad.
    destruct Hbad as [H | [H | [H | [H | (bpp & sel & w & h & raw & _ & H)]]]];
      try discriminate.
    + apply read_header_error in H.
      destruct H as [[_ (a & b & c & d & rest & -> & Hmagic)] | [H | H]];
        try discriminate.
      rewrite tim_magic_ok_cons in Hok. apply Z.eqb_eq in Hok. contradiction.
    + apply decode_pixels_error in H.
      destruct H as [H | [H | (H & _)]]; discriminate.
  - intros file p Hno.
    destruct file as [|a [|b [|c [|d rest]]]]; try (right; reflexivity).
    rewrite tim_magic_ok_cons in Hno. apply Z.eqb_neq in Hno.
    left. now apply read_tim_bad_magic.
  - intros image bpp out H. apply image_to_tim_inv in H.
    destruct H as (_ & w_words & pb & _ & -> & _). reflexivity.
Qed.

Lemma listed_files_have_good_magic_witness :
  read_tim two_row_tim 0 <> Err BadMagic /\
  (read_tim [x11; x00; x00; x00] 0 = Err BadMagic \/
   read_tim [x11; x00; x00; x00] 0 = Err StructError) /\
  tim_magic_ok (tim_layout 4 (clut_of 4 []) 1 1 [x21; x03]) = true.
Proof.
  split; [|split].
  - apply (proj1 listed_files_have_good_magic two_row_tim 0). reflexivity.
  - apply (proj1 (proj2 listed_files_have_good_magic) [x11; x00; x00; x00] 0).
    reflexivity.
  - apply (proj2 (proj2 listed_files_have_good_magic)
             (mkPImage 3 1 [] [x01; x02; x03]) 4).
    vm_compute. reflexivity.
Defined.

(** * The legacy decoder and the current one *)

Lemma mapM_ext {A B} (f g : A -> result B) (l : list A) :
  (forall x, f x = g x) -> mapM f l = mapM g l.
Proof.
  intros Hfg. induction l as [|a l IH]; [reflexivity|].
  cbn [mapM]. now rewrite Hfg, IH.
Qed.

Lemma v1_unpack_4bpp_eq (raw_data : list byte) (n : Z) :
  V1Codec.unpack_4bpp raw_data n = unpack_4bpp raw_data n.
Proof.
  unfold V1Codec.unpack_4bpp, unpack_4bpp. apply mapM_ext. intros i.
  rewrite land_1_even.
  replace (i mod 2 =? 0) with (Z.even i)
    by (rewrite Zmod_even; now destruct (Z.even i)).
  reflexivity.
Qed.

Lemma v1_read_clut_ok (s : list byte) (r : list (list Z) * list byte) :
  V1.read_clut s = Ok r -> read_clut s = Ok r.
Proof.
  unfold V1.read_clut, read_clut, bind.
  destruct (f_read 4 s) as [[bs s1]|e1]; [|discriminate].
  destruct (lift (unpack_I bs) s1) as [[sz s2]|e2]; [|discriminate].
  destruct (f_read 8 s2) as [[bs' s3]|e3]; [|discriminate].
  destruct (lift (unpack_4H bs') s3) as [[[[[cx cy] cw] ch] s4]|e4];
    [|discriminate].
  destruct (f_read (sz - 12) s4) as [[data s5]|e5]; [|discriminate].
  destruct (lift (frombuffer_u16 data) s5) as [[colors s6]|e6]; [|discriminate].
  unfold lift, ret. destruct (reshape_rows colors cw); [tauto | discriminate].
Qed.

(** When the legacy decoder gets as far as the pixels, the current one gets
    there with the same depth, palette, size and payload; the palette is
    missing exactly when the file has no CLUT. *)
Lemma v1_prefix (file : list byte) (p : Z) :
  match V1Codec.read_tim file p with
  | V1Codec.Raised _ => True
  | _ =>
      exists bpp sel w h raw_data,
        V1Codec.read_tim file p = V1Codec.decode_pixels bpp sel w h raw_data /\
        read_tim file p = decode_pixels bpp sel w h raw_data /\
        (sel = None -> file_clut file = Ok None)
  end.
Proof.
  assert (Hgen :
    (exists e, V1Codec.read_tim file p = V1Codec.Raised e) \/
    exists bpp sel w h raw_data,
      V1Codec.read_tim file p = V1Codec.decode_pixels bpp sel w h raw_data /\
      read_tim file p = decode_pixels bpp sel w h raw_data /\
      (sel = None -> file_clut file = Ok None)).
  { unfold V1Codec.read_tim, read_tim, file_clut, run, bind, lift, ret,
      f_read_all, f_read.
    cbn [Z.ltb Z.eqb Z.compare].
    destruct (read_header file) as [[[bpp has_clut] s0]|e0]; [|left; eauto].
    destruct has_clut.
    - destruct (V1.read_clut s0) as [[clut s1]|e1] eqn:Eclut; [|left; eauto].
      rewrite (v1_read_clut_ok _ _ Eclut).
      destruct (select_palette clut p) as [row|e2]; [|left; eauto].
      destruct (unpack_I _) as [sz|e3]; [|left; eauto].
      destruct (unpack_4H _) as [[[[x y] w_words] h]|e4]; [|left; eauto].
      right. eexists bpp, (Some row), _, h, _. split; [reflexivity|].
      split; [now destruct (decode_pixels _ _ _ _ _) | discriminate].
    - destruct (unpack_I _) as [sz|e3]; [|left; eauto].
      destruct (unpack_4H _) as [[[[x y] w_words] h]|e4]; [|left; eauto].
      right. eexists bpp, None, _, h, _. split; [reflexivity|].
      split; [now destruct (decode_pixels _ _ _ _ _) | reflexivity]. }
  destruct Hgen as [(e & ->) | Hgen]; [exact I|].
  destruct (V1Codec.read_tim file p); [exact Hgen | exact I | exact Hgen].
Qed.

Lemma frombuffer_u16_length (data : list byte) (a : list Z) :
  frombuffer_u16 data = Ok a -> len data = 2 * len a.
Proof.
  intros H. destruct (Nat.Even_or_Odd (length data)) as [[n Hn] | [n Hn]].
  - destruct (frombuffer_u16_even _ _ Hn) as (a' & Ha' & Hlen & _).
    rewrite H in Ha'. injection Ha' as <-. unfold len. lia.
  - rewrite (frombuffer_u16_odd _ _ Hn) in H. discriminate.
Qed.

Lemma mapM_forall {A B} (f : A -> result B) (P : B -> Prop) (l : list A)
    (out : list B) :
  (forall x y, f x = Ok y -> P y) -> mapM f l = Ok out -> Forall P out.
Proof.
  intros Hf. revert out. induction l as [|a l IH]; intros out H; cbn [mapM] in H.
  - injection H as <-. constructor.
  - destruct (f a) as [b|e] eqn:Ea; [|discriminate]. cbn [rbind] in H.
    destruct (mapM f l) as [bs|e]; [|discriminate]. cbn [rbind] in H.
    injection H as <-. constructor; [now apply (Hf a) | now apply IH].
Qed.

Lemma unpack_4bpp_range (raw_data : list byte) (n : Z) (pixels : list Z) :
  unpack_4bpp raw_data n = Ok pixels -> Forall (fun v => 0 <= v < 16) pixels.
Proof.
  unfold unpack_4bpp. apply mapM_forall. intros i v H.
  destruct (index 0 _ (i / 2)) as [byte|e]; [|discriminate]. cbn [rbind] in H.
  injection H as <-. destruct (Z.land i 1 =? 0); rewrite land_15;
    apply Z.mod_pos_bound; lia.
Qed.

Lemma v1_decode_pixels_returned (bpp : Z) (sel : option (list Z)) (w h : Z)
    (raw_data : list byte) (img : Image) :
  V1Codec.decode_pixels bpp sel w h raw_data = V1Codec.Returned img ->
  decode_pixels bpp sel w h raw_data = Ok img.
Proof.
  unfold V1Codec.decode_pixels, decode_pixels, V1Codec.subscript.
  rewrite v1_unpack_4bpp_eq. intros H.
  destruct (bpp =? 4).
  { destruct (unpack_4bpp _ _) as [pixels|e]; [|discriminate]. cbn [rbind].
    destruct sel as [palette|]; [|discriminate].
    destruct (gather palette pixels) as [cv|e]; [|discriminate].
    cbn [V1Codec.of_result rbind] in H |- *. congruence. }
  destruct (bpp =? 8).
  { cbv zeta in H |- *. destruct (negb _); [discriminate|].
    destruct sel as [palette|]; [|discriminate].
    destruct (gather palette _) as [cv|e]; [|discriminate].
    cbn [V1Codec.of_result rbind] in H |- *. congruence. }
  destruct (bpp =? 16).
  { destruct (frombuffer_u16 raw_data) as [a|e] eqn:Ea; [|discriminate].
    destruct (Z.eqb_spec (len a) (h * w)) as [Hlen|]; [|discriminate].
    cbn [negb] in H. apply frombuffer_u16_length in Ea as Hraw.
    rewrite take_all by lia. rewrite Ea. cbn [rbind].
    rewrite Hlen, Z.eqb_refl. cbn [negb]. congruence. }
  destruct (bpp =? 24); [|discriminate].
  cbv zeta in H |- *. destruct (_ <? _); [discriminate | congruence].
Qed.

Lemma v1_decode_pixels_type_error (bpp : Z) (sel : option (list Z)) (w h : Z)
    (raw_data : list byte) :
  V1Codec.decode_pixels bpp sel w h raw_data = V1Codec.RaisedTypeError ->
  sel = None /\ exists img, decode_pixels bpp sel w h raw_data = Ok img.
Proof.
  unfold V1Codec.decode_pixels, decode_pixels, V1Codec.subscript.
  rewrite v1_unpack_4bpp_eq. intros H.
  destruct (bpp =? 4).
  { destruct (unpack_4bpp _ _) as [pixels|e] eqn:Epix; [|discriminate].
    cbn [rbind].
    destruct sel as [palette|];
      [destruct (gather palette pixels); discriminate|].
    split; [reflexivity|]. apply unpack_4bpp_range in Epix.
    rewrite gather_ok; [cbn [rbind]; eauto|].
    now rewrite len_synth_palette by lia. }
  destruct (bpp =? 8).
  { cbv zeta in H |- *. destruct (negb _); [discriminate|].
    destruct sel as [palette|];
      [destruct (gather palette _); discriminate|].
    split; [reflexivity|].
    rewrite gather_ok; [cbn [rbind]; eauto|].
    apply Forall_forall. intros v Hv. apply in_map_iff in Hv.
    destruct Hv as (b & <- & _). rewrite len_synth_palette by lia.
    apply b2z_range. }
  destruct (bpp =? 16).
  { destruct (frombuffer_u16 raw_data); [|discriminate].
    destruct (negb _); discriminate. }
  destruct (bpp =? 24); [|discriminate].
  cbv zeta in H. destruct (_ <? _); discriminate.
Qed.

(** The current decoder decodes every file the legacy decoder decodes, with
    the same palette request, to the same image; and where the legacy decoder
    raises TypeError (a 4 or 8bpp file without CLUT) the current one returns
    an image. *)
Theorem current_decoder_extends_legacy (file : list byte) (p : Z) :
  (forall img, V1Codec.read_tim file p = V1Codec.Returned img ->
               read_tim file p = Ok img) /\
  (V1Codec.read_tim file p = V1Codec.RaisedTypeError ->
   file_clut file = Ok None /\ exists img, read_tim file p = Ok img).
Proof.
  pose proof (v1_prefix file p) as Hpre. split.
  - intros img H. rewrite H in Hpre.
    destruct Hpre as (bpp & sel & w & h & raw & Hv1 & Hv2 & _).
    rewrite Hv2. apply v1_decode_pixels_returned. congruence.
  - intros H. rewrite H in Hpre.
    destruct Hpre as (bpp & sel & w & h & raw & Hv1 & Hv2 & Hclut).
    symmetry in Hv1.
    apply v1_decode_pixels_type_error in Hv1. destruct Hv1 as (-> & img & Himg).
    split; [now apply Hclut|]. exists img. congruence.
Qed.

Lemma current_decoder_extends_legacy_witness :
  read_tim two_row_tim 1 =
    Ok (mkImage 4 1 [(248, 0, 0); (0, 248, 0); (0, 248, 0); (248, 0, 0)]) /\
  file_clut (le_I 0x10 ++ le_I 1 ++ le_I 14 ++
             (le_H 0 ++ le_H 0 ++ le_H 1 ++ le_H 1) ++ [x21; x05]) = Ok None.
Proof.
  split.
  - apply (proj1 (current_decoder_extends_legacy two_row_tim 1)). reflexivity.
  - apply (proj2 (current_decoder_extends_legacy
                    (le_I 0x10 ++ le_I 1 ++ le_I 14 ++
                     (le_H 0 ++ le_H 0 ++ le_H 1 ++ le_H 1) ++ [x21; x05]) 0)).
    reflexivity.
Defined.

(** ** The legacy encoder (v1/timview.py, lines 88-174) *)

Lemma range3_triples (n : Z) :
  0 <= n -> V1Codec.range3 (3 * n) = map (fun k => 3 * k) (range n).
Proof.
  intros Hn. unfold V1Codec.range3.
  replace ((3 * n + 2) / 3) with n
    by (Z.to_euclidean_division_equations; lia).
  reflexivity.
Qed.

Lemma take_range (a b : Z) :
  0 <= a <= b -> take a (range b) = range a.
Proof.
  intros Hab. unfold take, range. rewrite firstn_map. f_equal.
  replace (Z.to_nat b) with (Z.to_nat a + (Z.to_nat b - Z.to_nat a))%nat
    by lia.
  rewrite seq_app, firstn_app, length_seq, Nat.sub_diag, firstn_O, app_nil_r.
  apply firstn_all2. rewrite length_seq. lia.
Qed.

Lemma in_unique (a : list Z) (c : Z) :
  In c (V1Codec.unique a) <-> In c a /\ 0 <= c < 256.
Proof.
  unfold V1Codec.unique. rewrite filter_In, in_range, existsb_exists.
  split.
  - intros (Hc & x & Hx & Heq). apply Z.eqb_eq in Heq. subst x. tauto.
  - intros (Hin & Hc). split; [exact Hc|]. exists c. split; [exact Hin|].
    apply Z.eqb_refl.
Qed.

(** One step of the legacy CLUT loop, on a whole triple. *)
Lemma v1_clut_step (palette : list byte) (k : Z) :
  0 <= k -> 3 * k + 2 < len palette ->
  (r8 <- index 0 (frombuffer_u8 palette) (3 * k) ;;
   g8 <- index 0 (frombuffer_u8 palette) (3 * k + 1) ;;
   b8 <- index 0 (frombuffer_u8 palette) (3 * k + 2) ;;
   Ok (Z.lor (Z.lor (Z.shiftl (Z.shiftr b8 3) 10)
                    (Z.shiftl (Z.shiftr g8 3) 5))
             (Z.shiftr r8 3)))
  = Ok (clut_entry palette k).
Proof.
  intros Hk Hlt.
  assert (Hl : len (frombuffer_u8 palette) = len palette)
    by (unfold frombuffer_u8; now rewrite len_map).
  rewrite !index_in_bounds by lia. cbn [rbind].
  rewrite !nth_frombuffer_u8.
  unfold clut_entry. cbv zeta.
  destruct (Z.geb_spec (k * 3 + 2) (len palette)) as [Hge|_]; [lia|].
  replace (k * 3) with (3 * k) by lia.
  set (r8 := b2z (nth (Z.to_nat (3 * k)) palette x00)).
  set (g8 := b2z (nth (Z.to_nat (3 * k + 1)) palette x00)).
  set (b8 := b2z (nth (Z.to_nat (3 * k + 2)) palette x00)).
  pose proof (b2z_range (nth (Z.to_nat (3 * k)) palette x00)) as Hr.
  pose proof (b2z_range (nth (Z.to_nat (3 * k + 1)) palette x00)) as Hg.
  pose proof (b2z_range (nth (Z.to_nat (3 * k + 2)) palette x00)) as Hb.
  fold r8 in Hr. fold g8 in Hg. fold b8 in Hb.
  unfold quantize, pack_color. cbv zeta. rewrite land_65535. f_equal.
  rewrite !Z.shiftr_div_pow2 by lia. change (2 ^ 3) with 8.
  assert (0 <= r8 / 8 < 32)
    by (split; [apply Z.div_pos | apply Z.div_lt_upper_bound]; lia).
  assert (0 <= g8 / 8 < 32)
    by (split; [apply Z.div_pos | apply Z.div_lt_upper_bound]; lia).
  assert (0 <= b8 / 8 < 32)
    by (split; [apply Z.div_pos | apply Z.div_lt_upper_bound]; lia).
  rewrite pack_channels by assumption.
  symmetry. apply Z.mod_small. lia.
Qed.

(** The colors the legacy loop computes for a palette of [n] whole triples. *)
Lemma v1_clut_colors (palette : list byte) (n : Z) :
  len palette = 3 * n ->
  mapM (fun i =>
          r8 <- index 0 (frombuffer_u8 palette) i ;;
          g8 <- index 0 (frombuffer_u8 palette) (i + 1) ;;
          b8 <- index 0 (frombuffer_u8 palette) (i + 2) ;;
          Ok (Z.lor (Z.lor (Z.shiftl (Z.shiftr b8 3) 10)
                           (Z.shiftl (Z.shiftr g8 3) 5))
                    (Z.shiftr r8 3)))
       (V1Codec.range3 (len (frombuffer_u8 palette)))
  = Ok (map (clut_entry palette) (range n)).
Proof.
  intros Hlen. pose proof (len_nonneg palette) as Hnn.
  assert (Hl : len (frombuffer_u8 palette) = 3 * n)
    by (unfold frombuffer_u8; now rewrite len_map).
  rewrite Hl, range3_triples by lia.
  assert (Hin : forall k, In k (range n) -> 0 <= k < n)
    by (intros k Hk; now apply in_range).
  induction (range n) as [|k l IH]; [reflexivity|].
  cbn [map mapM].
  rewrite v1_clut_step by (specialize (Hin k ltac:(now left)); lia).
  cbn [rbind]. rewrite IH by (intros x Hx; apply Hin; now right).
  reflexivity.
Qed.

Lemma take_map {A B} (f : A -> B) (n : Z) (l : list A) :
  take n (map f l) = map f (take n l).
Proof. unfold take. apply firstn_map. Qed.

(** The legacy encoder as its fallible steps and the layout of the bytes,
    for a palette of [n] whole triples that covers the CLUT and the pixel
    values. *)
Lemma v1_image_to_tim_eq (image : PImage) (bpp n : Z) :
  bpp = 4 \/ bpp = 8 ->
  len (p_palette image) = 3 * n ->
  (if bpp =? 4 then 16 else 256) <= n ->
  Forall (fun b => b2z b < n) (p_data image) ->
  V1Codec.image_to_tim image bpp =
    (pixel_bytes <- (if bpp =? 4
                     then pack_4bpp (frombuffer_u8 (p_data image))
                     else Ok (tobytes_u8 (frombuffer_u8 (p_data image)))) ;;
     _ <- pack_I (12 + len pixel_bytes) ;;
     _ <- pack_4H 0 0 (if bpp =? 4 then p_width image / 4
                       else p_width image / 2) (p_height image) ;;
     Ok (tim_layout bpp (clut_of bpp (p_palette image))
                    (if bpp =? 4 then p_width image / 4
                     else p_width image / 2) (p_height image) pixel_bytes)).
Proof.
  intros Hbpp Hlen Hn Hpix. unfold V1Codec.image_to_tim. cbv zeta.
  rewrite (v1_clut_colors _ n Hlen). cbn [rbind].
  assert (Hn0 : 0 <= n) by (destruct (bpp =? 4); lia).
  rewrite (mapM_map _ (fun c => nth (Z.to_nat c)
                                  (map (clut_entry (p_palette image)) (range n))
                                  0)).
  2:{ intros c Hc. apply in_unique in Hc. destruct Hc as (Hc & Hr).
      apply index_in_bounds. rewrite len_map, len_range by lia.
      split; [lia|]. unfold frombuffer_u8 in Hc. apply in_map_iff in Hc.
      destruct Hc as (b & <- & Hb).
      rewrite Forall_forall in Hpix. now apply Hpix. }
  cbn [rbind]. rewrite take_map, take_range by (destruct (bpp =? 4); lia).
  fold (clut_of bpp (p_palette image)).
  change (pack_I 16) with (Ok (le_I 16)). cbn [rbind].
  assert (Hflags :
    (flags_val <- (if bpp =? 4 then Ok 0
                   else if bpp =? 8 then Ok 1 else Err NotImplementedError) ;;
     Ok (Z.lor flags_val 8)) = Ok (Z.lor 8 (if bpp =? 4 then 0 else 1)))
    by (destruct Hbpp as [-> | ->]; reflexivity).
  destruct (if bpp =? 4 then Ok 0
            else if bpp =? 8 then Ok 1 else Err NotImplementedError)
    as [fv|e]; [|discriminate].
  cbn [rbind].
  assert (Hfv : Z.lor fv 8 = Z.lor 8 (if bpp =? 4 then 0 else 1))
    by (change (Ok (Z.lor fv 8) = Ok (Z.lor 8 (if bpp =? 4 then 0 else 1)))
          in Hflags; congruence).
  rewrite Hfv.
  assert (Hpf : pack_I (Z.lor 8 (if bpp =? 4 then 0 else 1))
                = Ok (le_I (Z.lor 8 (if bpp =? 4 then 0 else 1))))
    by (destruct Hbpp as [-> | ->]; reflexivity).
  rewrite Hpf.
  rewrite (pack_I_ok (12 + len (tobytes_u16 (clut_of bpp (p_palette image)))))
    by (rewrite len_tobytes_u16, len_clut_of; destruct (bpp =? 4); lia).
  rewrite (pack_4H_ok 0 0 (if bpp =? 4 then 16 else 256) 1)
    by (try destruct (bpp =? 4); lia).
  cbn [rbind].
  destruct (if bpp =? 4 then pack_4bpp (frombuffer_u8 (p_data image))
            else Ok (tobytes_u8 (frombuffer_u8 (p_data image))))
    as [pixel_bytes|e]; [|reflexivity].
  cbn [rbind].
  destruct (pack_I (12 + len pixel_bytes)) as [sz|e] eqn:Esz; [|reflexivity].
  apply pack_I_inv in Esz. destruct Esz as [_ ->]. cbn [rbind].
  destruct (pack_4H 0 0 _ (p_height image)) as [fields|e] eqn:Ef;
    [|reflexivity].
  apply pack_4H_inv in Ef. destruct Ef as [_ ->]. cbn [rbind].
  unfold tim_layout. now rewrite <- !app_assoc.
Qed.

(** The legacy encoder stores the width in words rounded DOWN.  For a palette
    of [n] whole RGB triples, with at least as many colors as the CLUT holds
    (16 at 4bpp, 256 at 8bpp) and more colors than any pixel value, it
    returns or raises exactly what the current encoder returns or raises for
    the same pixels and palette under the width rounded down to a whole
    number of words; for a width that is a whole number of words the two
    encoders agree on the image itself. *)
Theorem legacy_encoder_rounds_width_down (image : PImage) (bpp n : Z) :
  bpp = 4 \/ bpp = 8 ->
  len (p_palette image) = 3 * n ->
  (if bpp =? 4 then 16 else 256) <= n ->
  Forall (fun b => b2z b < n) (p_data image) ->
  let k := if bpp =? 4 then 4 else 2 in
  V1Codec.image_to_tim image bpp =
    image_to_tim (with_width image (k * (p_width image / k))) bpp /\
  (p_width image mod k = 0 ->
   V1Codec.image_to_tim image bpp = image_to_tim image bpp).
Proof.
  intros Hbpp Hlen Hn Hpix k.
  assert (Hfloor :
    V1Codec.image_to_tim image bpp =
      image_to_tim (with_width image (k * (p_width image / k))) bpp).
  { rewrite (v1_image_to_tim_eq image bpp n) by assumption.
    rewrite image_to_tim_eq by exact Hbpp.
    unfold encode_pixels, with_width. cbn [p_width p_height p_palette p_data].
    subst k. destruct Hbpp as [-> | ->].
    - change (4 =? 4) with true. cbv iota.
      replace ((4 * (p_width image / 4) + 3) / 4) with (p_width image / 4)
        by (Z.to_euclidean_division_equations; lia).
      destruct (pack_4bpp _); reflexivity.
    - change (8 =? 4) with false. cbv iota.
      replace ((2 * (p_width image / 2) + 1) / 2) with (p_width image / 2)
        by (Z.to_euclidean_division_equations; lia).
      reflexivity. }
  split; [exact Hfloor|].
  intros Hmod. rewrite Hfloor. f_equal.
  destruct image as [w h pal data]. unfold with_width.
  cbn [p_width p_height p_palette p_data] in *. f_equal.
  subst k. destruct (bpp =? 4); Z.to_euclidean_division_equations; lia.
Qed.

Lemma legacy_encoder_rounds_width_down_witness :
  V1Codec.image_to_tim (mkPImage 5 1 (repeat x80 48)
                                 [x01; x02; x03; x04; x05]) 4 =
    image_to_tim (with_width (mkPImage 5 1 (repeat x80 48)
                                       [x01; x02; x03; x04; x05]) 4) 4 /\
  V1Codec.image_to_tim (mkPImage 4 1 (repeat x80 48)
                                 [x01; x02; x03; x04]) 4 =
    image_to_tim (mkPImage 4 1 (repeat x80 48) [x01; x02; x03; x04]) 4.
Proof.
  split.
  - apply (legacy_encoder_rounds_width_down
             (mkPImage 5 1 (repeat x80 48) [x01; x02; x03; x04; x05]) 4 16);
      [now left | reflexivity | vm_compute; discriminate |].
    repeat constructor.
  - apply (legacy_encoder_rounds_width_down
             (mkPImage 4 1 (repeat x80 48) [x01; x02; x03; x04]) 4 16);
      [now left | reflexivity | vm_compute; discriminate | | reflexivity].
    repeat constructor.
Defined.

Lemma pack_I_error (v : Z) (e : error) : pack_I v = Err e -> e = StructError.
Proof. unfold pack_I. destruct (_ && _); congruence. Qed.

Lemma pack_H_error (v : Z) (e : error) : pack_H v = Err e -> e = StructError.
Proof. unfold pack_H. destruct (_ && _); congruence. Qed.

Lemma pack_4H_error (a b c d : Z) (e : error) :
  pack_4H a b c d = Err e -> e = StructError.
Proof.
  unfold pack_4H.
  destruct (pack_H a) eqn:Ea; cbn [rbind]; [|intros H; injection H as <-;
                                             now apply pack_H_error in Ea].
  destruct (pack_H b) eqn:Eb; cbn [rbind]; [|intros H; injection H as <-;
                                             now apply pack_H_error in Eb].
  destruct (pack_H c) eqn:Ec; cbn [rbind]; [|intros H; injection H as <-;
                                             now apply pack_H_error in Ec].
  destruct (pack_H d) eqn:Ed; cbn [rbind]; [discriminate|].
  intros H; injection H as <-. now apply pack_H_error in Ed.
Qed.

(** The only exceptions of the current encoder. *)
Lemma image_to_tim_error (image : PImage) (bpp : Z) (e : error) :
  image_to_tim image bpp = Err e -> e = NotImplementedError \/ e = StructError.
Proof.
  destruct (Z.eq_dec bpp 4) as [H4|H4]; [|destruct (Z.eq_dec bpp 8) as [H8|H8]].
  3:{ unfold image_to_tim.
      destruct (Z.eqb_spec bpp 4); [contradiction|].
      destruct (Z.eqb_spec bpp 8); [contradiction|].
      cbn [orb negb]. intros H. left. congruence. }
  all: rewrite image_to_tim_eq by tauto;
    destruct (encode_pixels_ok bpp (p_width image) (p_data image))
      as (pb & -> & _); cbn [rbind];
    destruct (pack_I _) eqn:Ei; cbn [rbind];
      [|intros H; injection H as <-; right; now apply pack_I_error in Ei];
    destruct (pack_4H _ _ _ _) eqn:Eh; cbn [rbind]; [discriminate|];
    intros H; injection H as <-; right; now apply pack_4H_error in Eh.
Qed.

(** One step of the legacy CLUT loop returns a color or raises IndexError. *)
Lemma v1_clut_step_cases (palette : list Z) (i : Z) :
  (exists y,
     (r8 <- index 0 palette i ;;
      g8 <- index 0 palette (i + 1) ;;
      b8 <- index 0 palette (i + 2) ;;
      Ok (Z.lor (Z.lor (Z.shiftl (Z.shiftr b8 3) 10)
                       (Z.shiftl (Z.shiftr g8 3) 5))
                (Z.shiftr r8 3))) = Ok y) \/
  (r8 <- index 0 palette i ;;
   g8 <- index 0 palette (i + 1) ;;
   b8 <- index 0 palette (i + 2) ;;
   Ok (Z.lor (Z.lor (Z.shiftl (Z.shiftr b8 3) 10)
                    (Z.shiftl (Z.shiftr g8 3) 5))
             (Z.shiftr r8 3))) = Err IndexError.
Proof.
  destruct (index 0 palette i) eqn:E1; cbn [rbind];
    [|apply index_error in E1; subst; now right].
  destruct (index 0 palette (i + 1)) eqn:E2; cbn [rbind];
    [|apply index_error in E2; subst; now right].
  destruct (index 0 palette (i + 2)) eqn:E3; cbn [rbind];
    [|apply index_error in E3; subst; now right].
  left. now eexists.
Qed.

(** A palette that does not end on a whole triple stops the legacy loop. *)
Lemma v1_clut_colors_ragged (palette : list byte) :
  len palette mod 3 <> 0 ->
  mapM (fun i =>
          r8 <- index 0 (frombuffer_u8 palette) i ;;
          g8 <- index 0 (frombuffer_u8 palette) (i + 1) ;;
          b8 <- index 0 (frombuffer_u8 palette) (i + 2) ;;
          Ok (Z.lor (Z.lor (Z.shiftl (Z.shiftr b8 3) 10)
                           (Z.shiftl (Z.shiftr g8 3) 5))
                    (Z.shiftr r8 3)))
       (V1Codec.range3 (len (frombuffer_u8 palette)))
  = Err IndexError.
Proof.
  intros Hmod. pose proof (len_nonneg palette) as Hnn.
  assert (Hl : len (frombuffer_u8 palette) = len palette)
    by (unfold frombuffer_u8; now rewrite len_map).
  apply mapM_first_error.
  - intros x _. apply v1_clut_step_cases.
  - exists (3 * (len palette / 3)). split.
    + unfold V1Codec.range3. apply in_map_iff. exists (len palette / 3).
      split; [reflexivity|]. apply in_range. rewrite Hl.
      Z.to_euclidean_division_equations; lia.
    + rewrite (index_in_bounds 0 (frombuffer_u8 palette)
                 (3 * (len palette / 3)))
        by (rewrite Hl; Z.to_euclidean_division_equations; lia).
      cbn [rbind].
      destruct (Z_lt_le_dec (3 * (len palette / 3) + 1) (len palette))
        as [Hlt|Hge].
      * rewrite (index_in_bounds 0 (frombuffer_u8 palette)
                   (3 * (len palette / 3) + 1))
          by (rewrite Hl; Z.to_euclidean_division_equations; lia).
        cbn [rbind].
        rewrite (index_out_of_bounds 0 (frombuffer_u8 palette)
                   (3 * (len palette / 3) + 2))
          by (rewrite Hl; Z.to_euclidean_division_equations; lia).
        reflexivity.
      * rewrite (index_out_of_bounds 0 (frombuffer_u8 palette)
                   (3 * (len palette / 3) + 1))
          by (rewrite Hl; lia).
        reflexivity.
Qed.

(** The legacy encoder indexes the palette without a guard: a palette whose
    length is not a multiple of 3, or a pixel value that has no color in the
    palette, raises IndexError, whatever the depth asked for (also one the
    encoder would refuse).  The current encoder never raises IndexError. *)
Theorem legacy_encoder_index_errors (image : PImage) (bpp : Z) :
  (len (p_palette image) mod 3 <> 0 ->
   V1Codec.image_to_tim image bpp = Err IndexError) /\
  (forall b, In b (p_data image) -> len (p_palette image) <= 3 * b2z b ->
             V1Codec.image_to_tim image bpp = Err IndexError) /\
  image_to_tim image bpp <> Err IndexError.
Proof.
  assert (Hragged : len (p_palette image) mod 3 <> 0 ->
                    V1Codec.image_to_tim image bpp = Err IndexError).
  { intros Hmod. unfold V1Codec.image_to_tim. cbv zeta.
    now rewrite v1_clut_colors_ragged. }
  split; [exact Hragged|]. split.
  - intros b Hb Hlen.
    destruct (Z.eq_dec (len (p_palette image) mod 3) 0) as [Hmod|Hmod];
      [|now apply Hragged].
    pose proof (len_nonneg (p_palette image)) as Hnn.
    assert (Hn : len (p_palette image) = 3 * (len (p_palette image) / 3))
      by (Z.to_euclidean_division_equations; lia).
    unfold V1Codec.image_to_tim. cbv zeta.
    rewrite (v1_clut_colors _ _ Hn). cbn [rbind].
    rewrite (mapM_first_error _ _ IndexError); [reflexivity | |].
    + intros x _. destruct (index 0 _ x) eqn:E; [left; now eexists|].
      apply index_error in E. subst. now right.
    + exists (b2z b). split.
      * apply in_unique. split; [|apply b2z_range].
        unfold frombuffer_u8. now apply in_map.
      * apply index_out_of_bounds. rewrite len_map, len_range by lia. lia.
  - intros H. apply image_to_tim_error in H. destruct H; discriminate.
Qed.

Lemma legacy_encoder_index_errors_witness :
  V1Codec.image_to_tim (mkPImage 1 1 [x10; x20] [x00]) 16 = Err IndexError /\
  V1Codec.image_to_tim (mkPImage 1 1 [x10; x20; x30] [x01]) 8
    = Err IndexError.
Proof.
  split.
  - apply (legacy_encoder_index_errors (mkPImage 1 1 [x10; x20] [x00]) 16).
    vm_compute. discriminate.
  - apply (proj1 (proj2 (legacy_encoder_index_errors
                           (mkPImage 1 1 [x10; x20; x30] [x01]) 8)) x01).
    + now left.
    + vm_compute. discriminate.
Defined.
